(** * Partitioning engine of reviewer_experience_prediction

    A shallow embedding of the bin helpers of [util/datasets.pyx]
    ([get_bin_ranges], [get_bin]) and of the class [ExperimentalData] of
    [src/experiments.pyx] (constructor validation, [_make_test_set],
    [_generate_training_fold], [_generate_dataset],
    [_construct_layered_dataset]); then of the functions around them:
    [write_arff_file] of [util/datasets.pyx], which bins hours with
    [get_bin], and [evenly_distribute_samples], [get_label_in_doc],
    [get_all_features], [get_data_point], [fit_preds_in_scale],
    [get_sorted_features_for_learner] and [print_model_weights] of
    [src/experiments.pyx].

    Conventions of the embedding.
    - Python and C floating-point numbers are idealised as exact rationals
      ([Qc]); integers are [Z]; every comparison and every rounding step of
      the source is kept at the place where the source has it.
    - A Python exception is a value [Raise e] of the type [result]; the
      statements after a raising statement are not run.
    - A Python [dict] keyed by identifier strings is a [gmap string _]; a
      [FreqDist] (a counter whose iteration order matters because [sorted]
      is stable) is an association list in iteration order.
    - What comes from outside the repository (numpy's seeded shuffle, the
      table of games, the corpus store) is a parameter, see [Externals];
      so are, for the functions around the class, the decoder of the NLP
      features, [compute_label_value], the clock and the collection that
      [write_arff_file] reads.
    - A generator is the list of what it yields; a call of [sys.exit] is
      a way for a function to end, next to returning; the files a
      function writes are the list of their paths and texts. *)

From stdpp Require Import base numbers list sorting strings pretty gmap fin_maps fin_sets.
From Stdlib Require Import QArith Qcanon Qround Lqa.

Local Open Scope Z_scope.

(** ** Exceptions *)

Inductive exn : Set :=
  | ValueError
  | TypeError
  | KeyError
  | ZeroDivisionError.

Inductive result (A : Type) : Type :=
  | Ok (a : A)
  | Raise (e : exn).
Arguments Ok {A} a.
Arguments Raise {A} e.

Definition rbind {A B} (r : result A) (k : A → result B) : result B :=
  match r with
  | Ok a => k a
  | Raise e => Raise e
  end.

#[global] Instance result_ret : MRet result := λ A a, Ok a.
#[global] Instance result_bind : MBind result := λ A B k r, rbind r k.

(** ** Numbers *)

Definition Z2Qc (n : Z) : Qc := Qc_of_Z n.
Definition frac (n : Z) (d : positive) : Qc := Q2Qc (n # d).

(** [int(np.ceil(x))] and [int(x)] of a non-negative [x]. *)
Definition Qc_ceil (x : Qc) : Z := Qceiling x.
Definition Qc_floor (x : Qc) : Z := Qfloor x.

(** Python 3 [round(x, 1)]: to the nearest tenth, ties to the even tenth. *)
Definition round1 (x : Qc) : Qc :=
  let t := (x * Z2Qc 10)%Qc in
  let f := Qc_floor t in
  let r := (t - Z2Qc f)%Qc in
  let n := match (r ?= frac 1 2)%Qc with
           | Lt => f
           | Gt => f + 1
           | Eq => if Z.even f then f else f + 1
           end in
  (Z2Qc n / Z2Qc 10)%Qc.

(** ** [util/datasets.pyx] *)

Module Datasets.

Definition bin_range : Type := Qc * Qc.

(** The state of the loop of [get_bin_ranges]:
    [_bin_start], [_bin_end] and the list built so far. *)
Record bin_state : Type := BinState {
  _bin_start : Qc;
  _bin_end : Qc;
  bin_ranges_acc : list bin_range
}.

(** One iteration [b] of [for b in range(1, nbins + 1)]. *)
Definition bin_step (nbins : Z) (bin_size : Qc) (st : bin_state) (b : Z)
  : bin_state :=
  let start := if decide (b = 1) then _bin_start st else _bin_end st in
  let stop := if decide (b = nbins)
              then (start + bin_size + 1)%Qc
              else (start + bin_size)%Qc in
  BinState start stop (bin_ranges_acc st ++ [(start, stop)]).

(** [get_bin_ranges(_min, _max, nbins)].  The quotient
    [(_max - _min)/<float>nbins] is a C division compiled with Cython's
    default [cdivision=False]: a zero divisor raises [ZeroDivisionError]. *)
Definition get_bin_ranges (_min _max : Qc) (nbins : Z)
  : result (list bin_range) :=
  if decide (nbins = 0) then Raise ZeroDivisionError
  else
    let bin_size := round1 ((_max - _min) / Z2Qc nbins)%Qc in
    let st0 := BinState (_min - frac 1 10)%Qc (_min + bin_size)%Qc [] in
    Ok (bin_ranges_acc (foldl (bin_step nbins bin_size) st0 (seqZ 1 nbins))).

(** [get_bin(bin_ranges, val)]: the loop over [enumerate(bin_ranges)],
    [i] being the index of the head of the remaining list. *)
Fixpoint get_bin_from (i : Z) (bin_ranges : list bin_range) (val : Qc) : Z :=
  match bin_ranges with
  | [] => -1
  | bin_range :: rest =>
      if bool_decide (bin_range.1 < val)%Qc && bool_decide (val ≤ bin_range.2)%Qc
      then i + 1
      else get_bin_from (i + 1) rest val
  end.

Definition get_bin (bin_ranges : list bin_range) (val : Qc) : Z :=
  get_bin_from 0 bin_ranges val.

(** A value falls in a range when [val > low and val <= high]. *)
Definition in_range (val : Qc) (r : bin_range) : Prop :=
  (r.1 < val)%Qc ∧ (val ≤ r.2)%Qc.

(** The range that iteration [b] appends, in closed form. *)
Definition nth_range (_min bin_size : Qc) (nbins b : Z) : bin_range :=
  let lo := (_min - frac 1 10 + Z2Qc (b - 1) * bin_size)%Qc in
  (lo, if decide (b = nbins) then (lo + bin_size + 1)%Qc else (lo + bin_size)%Qc).


(** The ranges of [generate(0.0, 10.0, 5)]. *)
Definition ranges_0_10_5 : list bin_range :=
  [(frac (-1) 10, frac 19 10); (frac 19 10, frac 39 10);
   (frac 39 10, frac 59 10); (frac 59 10, frac 79 10);
   (frac 79 10, frac 109 10)].

End Datasets.

(** ** Python values used by [src/experiments.pyx] *)

(** The slice [a[:n]] of a sequence, for an integer [n] of either sign. *)
Definition slice_to {A} (n : Z) (a : list A) : list A :=
  if decide (0 ≤ n) then take (Z.to_nat n) a
  else take (length a - Z.to_nat (- n)) a.

(** [int(x)]: truncation towards zero. *)
Definition Qc_trunc (x : Qc) : Z :=
  if decide (0 ≤ x)%Qc then Qc_floor x else Qc_ceil x.

(** The slice [a[:x]] of a numpy array where [x] may have become a float
    ([factor*size]): the numpy releases the repository was written against
    convert such an index with [int(x)]. *)
Definition slice_to_float {A} (x : Qc) (a : list A) : list A :=
  slice_to (Qc_trunc x) a.

(** [a.sort()] on an array of identifier strings. *)
Definition sort_ids (a : list string) : list string :=
  merge_sort String.le a.

(** [sorted(xs, key=key)]: a stable sort, smallest key first. *)
Fixpoint insert_by {A} (key : A → Z) (x : A) (l : list A) : list A :=
  match l with
  | [] => [x]
  | y :: r => if decide (key x ≤ key y) then x :: y :: r
              else y :: insert_by key x r
  end.

Definition sorted_by {A} (key : A → Z) (l : list A) : list A :=
  foldr (insert_by key) [] l.

(** [a.pop()] on a list: the last element and the list without it;
    [None] stands for the empty list, on which the callers do not
    call it. *)
Definition pop {A} (a : list A) : option (A * list A) :=
  match reverse a with
  | [] => None
  | x :: r => Some (x, reverse r)
  end.


(** [abs(x)] *)
Definition Qc_abs (x : Qc) : Qc := if decide (x < 0)%Qc then (- x)%Qc else x.

(** [sorted(xs, key=key, reverse=True)]: a stable sort, largest key
    first. *)
Fixpoint insert_desc {A} (key : A → Qc) (x : A) (l : list A) : list A :=
  match l with
  | [] => [x]
  | y :: r => if decide (key y ≤ key x)%Qc then x :: y :: r
              else y :: insert_desc key x r
  end.

Definition sorted_desc_by {A} (key : A → Qc) (l : list A) : list A :=
  foldr (insert_desc key) [] l.

(** ** [src/experiments.pyx]: class [ExperimentalData] *)

Module Experiments.

(** [self.distributional_info_kwargs]. *)
Record kwargs : Type := Kwargs {
  kw_power_transform : option Qc;
  kw_lognormal : bool;
  kw_bin_ranges : list Datasets.bin_range;
  kw_batch_size : Z
}.

(** The arguments of [ExperimentalData.__init__] ([db] and
    [prediction_label] are part of the corpus query below).  A [set]
    argument that is [None] is not distinguished from the empty set, nor
    a list that is [None] from the empty list: the constructor only
    tests their truth value. *)
Record init_args : Type := InitArgs {
  arg_games : gset string;
  arg_folds : Z;
  arg_fold_size : Z;
  arg_grid_search_folds : Z;
  arg_grid_search_fold_size : Z;
  arg_test_games : gset string;
  arg_test_size : Z;
  arg_sampling : string;
  arg_bin_ranges : list Datasets.bin_range;
  arg_test_bin_ranges : list Datasets.bin_range;
  arg_lognormal : bool;
  arg_power_transform : option Qc;
  arg_batch_size : Z
}.

Definition sampling_options : list string := ["even"; "stratified"].

(** What the class takes from outside the repository: numpy's seeded
    generator, the table [data.APPID_DICT] and the corpus store. *)
Class Externals (Label : Type) : Type := {
  (** [np.random.RandomState(seed)] and [prng.shuffle(a)], which returns
      the shuffled array and advances the generator. *)
  prng : Type;
  RandomState : Z → prng;
  shuffle : prng → list string → list string * prng;
  (** The keys of [data.APPID_DICT]. *)
  APPID_DICT : gset string;
  (** The corpus store seen through [distributional_info]: for the
      keyword arguments and a list of games, the [(id_string, label
      value)] pairs of the documents of the cursor whose label value is
      not [None], in cursor order, or the exception raised by the
      validation of the arguments or by [compute_label_value]. *)
  find_samples : kwargs → list string → result (list (string * Label))
}.

Section ExperimentalData.

(** Label values are only compared for equality. *)
Context {Label : Type} `{!EqDecision Label} `{!Externals Label}.

(** *** [nltk.FreqDist] *)

(** A counter in iteration order: first occurrence first. *)
Definition FreqDist : Type := list (Label * Z).

Fixpoint fd_incr (label : Label) (fd : FreqDist) : FreqDist :=
  match fd with
  | [] => [(label, 1)]
  | (l, c) :: r => if decide (l = label) then (l, c + 1) :: r
                   else (l, c) :: fd_incr label r
  end.

Definition FreqDist_of (samples : list Label) : FreqDist :=
  foldl (λ fd label, fd_incr label fd) [] samples.

(** [fdist[label]] *)
Fixpoint fd_get (fd : FreqDist) (label : Label) : Z :=
  match fd with
  | [] => 0
  | (l, c) :: r => if decide (l = label) then c else fd_get r label
  end.

(** [fdist.N()] *)
Definition fd_N (fd : FreqDist) : Z := foldr (λ lc n, lc.2 + n) 0 fd.

(** [fdist.freq(label)] *)
Definition fd_freq (fd : FreqDist) (label : Label) : Qc :=
  if decide (fd_N fd = 0) then 0%Qc
  else (Z2Qc (fd_get fd label) / Z2Qc (fd_N fd))%Qc.

(** [sorted(fdist, key=lambda _label: fdist[_label])] *)
Definition sorted_labels (fd : FreqDist) : list Label :=
  sorted_by (fd_get fd) fd.*1.

(** *** [distributional_info] *)

(** [{doc['id_string']: doc[label] for doc in samples}] *)
Definition dict_of_samples (samples : list (string * Label))
  : gmap string Label :=
  foldl (λ d s, <[s.1 := s.2]> d) ∅ samples.

Definition distributional_info (kw : kwargs) (games : list string)
  : result (gmap string Label * FreqDist) :=
  samples ← find_samples kw games;
  match samples with
  | [] => Raise ValueError
  | _ => Ok (dict_of_samples samples, FreqDist_of samples.*2)
  end.

(** *** The two sampling loops shared, word for word, by
    [_make_test_set] and [_generate_training_fold] *)

(** [np.array([_id for _id in d if d[_id] == label])], then [.sort()]
    and [prng.shuffle]. *)
Definition ids_with_label (d : gmap string Label) (label : Label)
  : list string :=
  (filter (λ kv, kv.2 = label) (map_to_list d)).*1.

Definition shuffled_label_ids (g : prng) (d : gmap string Label)
    (label : Label) : list string * prng :=
  shuffle g (sort_ids (ids_with_label d label)).

(** State of the first stratified loop: the generator, [factor] and
    the dictionary [labels_ids] in insertion order (the labels
    iterated are the distinct keys of the [FreqDist]). *)
Record scan_state : Type := ScanState {
  sc_prng : prng;
  sc_factor : Qc;
  sc_labels_ids : list (Label * list string)
}.

Definition scan_step (d : gmap string Label) (fd : FreqDist) (size : Qc)
    (st : scan_state) (label : Label) : scan_state :=
  let '(all_label_ids, g) := shuffled_label_ids (sc_prng st) d label in
  let label_freq := fd_freq fd label in
  let n_label_data := Qc_ceil (label_freq * size) in
  let n_label_data_actual :=
    Z.of_nat (length (slice_to n_label_data all_label_ids)) in
  let factor :=
    if decide (n_label_data_actual < n_label_data) then
      let new_factor :=
        (1 - Z2Qc (n_label_data - n_label_data_actual)
             / Z2Qc n_label_data)%Qc in
      if decide (new_factor < sc_factor st)%Qc then new_factor
      else sc_factor st
    else sc_factor st in
  ScanState g factor (sc_labels_ids st ++ [(label, all_label_ids)]).

Definition stratified_scan (g : prng) (d : gmap string Label)
    (fd : FreqDist) (size : Qc) : scan_state :=
  foldl (scan_step d fd size) (ScanState g 1%Qc []) (sorted_labels fd).

(** The second stratified loop: [for label in labels_ids: ...
    _extend(all_label_ids[:n_label_data])]. *)
Definition stratified_take (fd : FreqDist) (size : Qc)
    (labels_ids : list (Label * list string)) : list string :=
  foldl (λ acc li, acc ++ slice_to (Qc_ceil (fd_freq fd li.1 * size)) li.2)
        [] labels_ids.

(** [if not n_label_min] *)
Definition falsy (n_label_min : option Z) : bool :=
  match n_label_min with
  | None => true
  | Some n => bool_decide (n = 0)
  end.

(** The even loop either runs to its end or stops at the first label
    whose [n_label_data_actual] is [0]; what happens then differs
    between the two callers. *)
Inductive even_outcome : Type :=
  | EvenDrawn (ids : list string) (g : prng)
  | EvenStarved (label : Label).

Fixpoint even_loop (d : gmap string Label) (fd : FreqDist) (size : Qc)
    (labels : list Label) (g : prng) (n_label_min : option Z)
    (acc : list string) : even_outcome :=
  match labels with
  | [] => EvenDrawn acc g
  | label :: rest =>
      let '(all_label_ids, g') := shuffled_label_ids g d label in
      let n_label_data :=
        Qc_ceil (size / Z2Qc (Z.of_nat (length fd)))%Qc in
      let n_label_data_actual :=
        Z.of_nat (length (slice_to n_label_data all_label_ids)) in
      if falsy n_label_min then
        if decide (n_label_data_actual = 0) then EvenStarved label
        else even_loop d fd size rest g' (Some n_label_data_actual)
               (acc ++ slice_to n_label_data_actual all_label_ids)
      else
        even_loop d fd size rest g' n_label_min
          (acc ++ slice_to (default 0 n_label_min) all_label_ids)
  end.

(** The common tail: [a = np.array(ids); a.sort(); prng.shuffle(a);
    if len(a) > size: a = a[:size]]. *)
Definition shuffle_and_cap (g : prng) (ids : list string) (size : Qc)
  : list string :=
  let a := (shuffle g (sort_ids ids)).1 in
  if decide (size < Z2Qc (Z.of_nat (length a)))%Qc
  then slice_to_float size a else a.

(** [for _id in ids: del d[_id]]; deleting a missing key raises
    [KeyError]. *)
Fixpoint del_all (ids : list string) (d : gmap string Label)
  : result (gmap string Label) :=
  match ids with
  | [] => Ok d
  | _id :: rest =>
      match d !! _id with
      | Some _ => del_all rest (delete _id d)
      | None => Raise KeyError
      end
  end.

(** [for _id in ids: if _id in d: del d[_id]] *)
Definition discard_all (ids : list string) (d : gmap string Label)
  : gmap string Label :=
  foldl (λ d _id, match d !! _id with
                  | Some _ => delete _id d
                  | None => d
                  end) d ids.

(** [len(n_folds_collected)]: [n_folds_collected] is an [int], and
    [len] of an [int] raises [TypeError]. *)
Definition len_of_int (n : Z) : result Z := Raise TypeError.

(** *** The object *)

(** The attributes of an [ExperimentalData] object that the modelled
    methods read or write ([test_bin_ranges] is stored and never read
    by them).  [None] is [None]; the class default of [test_set] is
    the empty array. *)
Record self_t : Type := Self {
  games : gset string;
  test_games : gset string;
  _games_test_games_equal : bool;
  folds : Z;
  fold_size : Z;
  grid_search_folds : Z;
  grid_search_fold_size : Z;
  sampling : string;
  distributional_info_kwargs : kwargs;
  test_size : Qc;
  test_set : option (list string);
  id_strings_labels : option (gmap string Label);
  labels_fdist : option FreqDist;
  labels_id_strings : option (list (Label * list string));
  training_set : option (list (list string));
  grid_search_set : option (list (list string));
  num_datasets : option Z
}.

Definition set_test_size (x : Qc) (s : self_t) : self_t :=
  Self (games s) (test_games s) (_games_test_games_equal s) (folds s)
    (fold_size s) (grid_search_folds s) (grid_search_fold_size s)
    (sampling s) (distributional_info_kwargs s) x (test_set s)
    (id_strings_labels s) (labels_fdist s) (labels_id_strings s)
    (training_set s) (grid_search_set s) (num_datasets s).

Definition set_test_set (x : option (list string)) (s : self_t) : self_t :=
  Self (games s) (test_games s) (_games_test_games_equal s) (folds s)
    (fold_size s) (grid_search_folds s) (grid_search_fold_size s)
    (sampling s) (distributional_info_kwargs s) (test_size s) x
    (id_strings_labels s) (labels_fdist s) (labels_id_strings s)
    (training_set s) (grid_search_set s) (num_datasets s).

Definition set_id_strings_labels (x : option (gmap string Label))
    (s : self_t) : self_t :=
  Self (games s) (test_games s) (_games_test_games_equal s) (folds s)
    (fold_size s) (grid_search_folds s) (grid_search_fold_size s)
    (sampling s) (distributional_info_kwargs s) (test_size s) (test_set s)
    x (labels_fdist s) (labels_id_strings s)
    (training_set s) (grid_search_set s) (num_datasets s).

Definition set_labels_fdist (x : option FreqDist) (s : self_t) : self_t :=
  Self (games s) (test_games s) (_games_test_games_equal s) (folds s)
    (fold_size s) (grid_search_folds s) (grid_search_fold_size s)
    (sampling s) (distributional_info_kwargs s) (test_size s) (test_set s)
    (id_strings_labels s) x (labels_id_strings s)
    (training_set s) (grid_search_set s) (num_datasets s).

Definition set_labels_id_strings (x : option (list (Label * list string)))
    (s : self_t) : self_t :=
  Self (games s) (test_games s) (_games_test_games_equal s) (folds s)
    (fold_size s) (grid_search_folds s) (grid_search_fold_size s)
    (sampling s) (distributional_info_kwargs s) (test_size s) (test_set s)
    (id_strings_labels s) (labels_fdist s) x
    (training_set s) (grid_search_set s) (num_datasets s).

Definition set_training_set (x : option (list (list string)))
    (s : self_t) : self_t :=
  Self (games s) (test_games s) (_games_test_games_equal s) (folds s)
    (fold_size s) (grid_search_folds s) (grid_search_fold_size s)
    (sampling s) (distributional_info_kwargs s) (test_size s) (test_set s)
    (id_strings_labels s) (labels_fdist s) (labels_id_strings s)
    x (grid_search_set s) (num_datasets s).

Definition set_grid_search_set (x : option (list (list string)))
    (s : self_t) : self_t :=
  Self (games s) (test_games s) (_games_test_games_equal s) (folds s)
    (fold_size s) (grid_search_folds s) (grid_search_fold_size s)
    (sampling s) (distributional_info_kwargs s) (test_size s) (test_set s)
    (id_strings_labels s) (labels_fdist s) (labels_id_strings s)
    (training_set s) x (num_datasets s).

Definition set_num_datasets (x : option Z) (s : self_t) : self_t :=
  Self (games s) (test_games s) (_games_test_games_equal s) (folds s)
    (fold_size s) (grid_search_folds s) (grid_search_fold_size s)
    (sampling s) (distributional_info_kwargs s) (test_size s) (test_set s)
    (id_strings_labels s) (labels_fdist s) (labels_id_strings s)
    (training_set s) (grid_search_set s) x.

(** Reading an attribute that must hold a dictionary: iterating or
    indexing [None] raises [TypeError]. *)
Definition the {A} (o : option A) : result A :=
  match o with
  | Some a => Ok a
  | None => Raise TypeError
  end.

(** *** [_make_test_set] *)

(** The stratified branch after the scan: the check of the size
    reduction, then the draws. *)
Definition test_set_resize (factor size : Qc) : result Qc :=
  if decide (factor < 1)%Qc then
    if decide (1 - factor < frac 1 2)%Qc then Raise ValueError
    else Ok (factor * size)%Qc
  else Ok size.

Definition _make_test_set (self : self_t)
  : result (self_t * option (list string)) :=
  distribution_data ←
    distributional_info (distributional_info_kwargs self)
                        (elements (test_games self));
  let id_strings_labels_test := distribution_data.1 in
  let labels_fdist_test := distribution_data.2 in
  let self :=
    if _games_test_games_equal self
    then set_labels_fdist (Some labels_fdist_test)
           (set_id_strings_labels (Some id_strings_labels_test) self)
    else self in
  if decide (id_strings_labels_test = ∅) then Ok (self, None)
  else
    let prng0 := RandomState 12345 in
    if decide (sampling self = "stratified") then
      let sc := stratified_scan prng0 id_strings_labels_test
                  labels_fdist_test (test_size self) in
      size ← test_set_resize (sc_factor sc) (test_size self);
      let self := set_test_size size self in
      let test_set :=
        stratified_take labels_fdist_test size (sc_labels_ids sc) in
      Ok (self, Some (shuffle_and_cap (sc_prng sc) test_set size))
    else
      match even_loop id_strings_labels_test labels_fdist_test
              (test_size self) (sorted_labels labels_fdist_test)
              prng0 None [] with
      | EvenStarved _ => Raise ValueError
      | EvenDrawn test_set g =>
          Ok (self, Some (shuffle_and_cap g test_set (test_size self)))
      end.

(** *** [_generate_labels_dict] *)

Definition _generate_labels_dict (labels : list Label)
    (d : gmap string Label) : list (Label * list string) :=
  (foldl (λ st label,
            let '(all_ids, g) := shuffled_label_ids st.1 d label in
            (g, st.2 ++ [(label, all_ids)]))
         (RandomState 12345, []) labels).2.

(** *** [_generate_training_fold] *)

(** What the sampling part of [_generate_training_fold] hands to its
    tail: the identifiers drawn, the generator and [_fold_size] (a
    float once refactored), or the early [return np.array([])]. *)
Inductive fold_draw : Type :=
  | FoldDrawn (ids : list string) (g : prng) (_fold_size : Qc)
  | FoldEmpty.

(** The stratified branch after the scan. *)
Definition fold_resize (factor : Qc) (_fold_size : Qc)
    (n_folds_collected n_folds_needed : Z) : result (option Qc) :=
  if decide (factor < 1)%Qc then
    if bool_decide (n_folds_needed ≠ 1)
       && bool_decide (1 - factor < frac 1 10)%Qc then
      n ← len_of_int n_folds_collected;
      if decide (n ≠ 0) then Raise ValueError else Ok None
    else Ok (Some (factor * _fold_size)%Qc)
  else Ok (Some _fold_size).

Definition draw_fold (sampling : string) (fd : FreqDist)
    (d : gmap string Label) (_fold_size : Z)
    (n_folds_collected n_folds_needed : Z) : result fold_draw :=
  let prng0 := RandomState 12345 in
  if decide (sampling = "stratified") then
    let sc := stratified_scan prng0 d fd (Z2Qc _fold_size) in
    size ← fold_resize (sc_factor sc) (Z2Qc _fold_size)
             n_folds_collected n_folds_needed;
    match size with
    | None => Ok FoldEmpty
    | Some size =>
        Ok (FoldDrawn (stratified_take fd size (sc_labels_ids sc))
                      (sc_prng sc) size)
    end
  else
    match even_loop d fd (Z2Qc _fold_size) (sorted_labels fd)
            prng0 None [] with
    | EvenStarved _ =>
        if decide (n_folds_collected = 0) then Raise ValueError
        else Ok FoldEmpty
    | EvenDrawn ids g => Ok (FoldDrawn ids g (Z2Qc _fold_size))
    end.

(** The method on an explicit pool: the new pool and the fold. *)
Definition training_fold (sampling : string) (fd : FreqDist)
    (d : gmap string Label) (_fold_size : Z)
    (n_folds_collected n_folds_needed : Z)
  : result (gmap string Label * list string) :=
  drawn ← draw_fold sampling fd d _fold_size
            n_folds_collected n_folds_needed;
  match drawn with
  | FoldEmpty => Ok (d, [])
  | FoldDrawn ids g size =>
      let fold_set := shuffle_and_cap g ids size in
      d' ← del_all fold_set d;
      Ok (d', fold_set)
  end.

Definition _generate_training_fold (self : self_t) (_fold_size : Z)
    (n_folds_collected n_folds_needed : Z)
  : result (self_t * list string) :=
  fd ← the (labels_fdist self);
  d ← the (id_strings_labels self);
  r ← training_fold (sampling self) fd d _fold_size
        n_folds_collected n_folds_needed;
  Ok (set_id_strings_labels (Some r.1) self, r.2).

(** *** [_generate_dataset] *)

(** The loop [for _ in range(folds)], [n] iterations remaining. *)
Fixpoint fold_loop (n : nat) (self : self_t) (fold_size folds : Z)
    (folds_collected : Z) (training_set : list (list string))
  : result (self_t * Z * list (list string)) :=
  match n with
  | O => Ok (self, folds_collected, training_set)
  | S n' =>
      r ← _generate_training_fold self fold_size folds_collected folds;
      match r.2 with
      | [] => Ok (r.1, folds_collected, training_set)
      | _ => fold_loop n' r.1 fold_size folds (folds_collected + 1)
               (training_set ++ [r.2])
      end
  end.

Definition _generate_dataset (self : self_t) (grid_search : bool)
  : result (self_t * list (list string)) :=
  let folds := if grid_search then grid_search_folds self
               else folds self in
  let fold_size := if grid_search then grid_search_fold_size self
                   else fold_size self in
  r ← fold_loop (Z.to_nat folds) self fold_size folds 0 [];
  let '(self, folds_collected, training_set) := r in
  if decide (frac 3 4 * Z2Qc folds ≤ Z2Qc folds_collected)%Qc
  then Ok (self, training_set)
  else Raise ValueError.

(** *** [_construct_layered_dataset] *)

Definition nonempty_dict (o : option (gmap string Label)) : bool :=
  match o with
  | Some d => bool_decide (d ≠ ∅)
  | None => false
  end.

Definition nonempty_fdist (o : option FreqDist) : bool :=
  match o with
  | Some (_ :: _) => true
  | _ => false
  end.

(** [any(game in self.games for game in self.test_games)] *)
Definition games_in_common (self : self_t) : bool :=
  existsb (λ game, bool_decide (game ∈ games self))
          (elements (test_games self)).

(** The method, block by block. *)

(** "Generate a list of sample IDs for the test set, if applicable" *)
Definition build_test_set (self : self_t) : result self_t :=
  if decide (test_size self ≠ 0%Qc) then
    r ← _make_test_set self;
    Ok (set_test_set r.2 r.1)
  else Ok self.

(** "Get dictionary of ID strings mapped to labels and a frequency
    distribution of the labels (if not cached while making the test
    set)" *)
Definition load_distribution (self : self_t) : result self_t :=
  if negb (nonempty_dict (id_strings_labels self)
           && nonempty_fdist (labels_fdist self)) then
    distribution_data ←
      distributional_info (distributional_info_kwargs self)
                          (elements (games self));
    Ok (set_labels_fdist (Some distribution_data.2)
          (set_id_strings_labels (Some distribution_data.1) self))
  else Ok self.

(** "Remove sample IDs that are in the test set, if any and if there
    are even games in common between the test set and the training
    set" *)
Definition remove_test_ids (self : self_t) : result self_t :=
  if bool_decide (test_size self ≠ 0%Qc) && games_in_common self then
    ids ← the (test_set self);
    d ← the (id_strings_labels self);
    Ok (set_id_strings_labels (Some (discard_all ids d)) self)
  else Ok self.

(** "Get set of labels" and "Make a dictionary mapping each label
    value to a list of sample IDs" *)
Definition index_labels (self : self_t) : result self_t :=
  fd ← the (labels_fdist self);
  d ← the (id_strings_labels self);
  Ok (set_labels_id_strings (Some (_generate_labels_dict fd.*1 d)) self).

(** "Generate arrays of sample IDs for the main training data-set
    folds" *)
Definition build_training_set (self : self_t) : result self_t :=
  if decide (folds self ≠ 0) then
    r ← _generate_dataset self false;
    Ok (set_training_set (Some r.2) r.1)
  else Ok self.

(** "Generate arrays of sample IDs for the grid search folds" *)
Definition build_grid_search_set (self : self_t) : result self_t :=
  if decide (grid_search_folds self ≠ 0) then
    r ← _generate_dataset self true;
    Ok (set_grid_search_set (Some r.2) r.1)
  else Ok self.

(** "Set the [self.num_datasets] attribute":
    [self.num_datasets = len(self.training_set)] *)
Definition count_datasets (self : self_t) : result self_t :=
  ts ← the (training_set self);
  Ok (set_num_datasets (Some (Z.of_nat (length ts))) self).

Definition _construct_layered_dataset (self : self_t) : result self_t :=
  self ← build_test_set self;
  self ← load_distribution self;
  self ← remove_test_ids self;
  self ← index_labels self;
  self ← build_training_set self;
  self ← build_grid_search_set self;
  count_datasets self.

(** *** [__init__] *)

(** The validation of the parameters and the assignments that follow
    it, up to the call of [_construct_layered_dataset]. *)
Definition validate (a : init_args) : result self_t :=
  if decide (arg_games a = ∅) then Raise ValueError
  else
    let games := arg_games a in
    let test_games := if decide (arg_test_games a = ∅) then games
                      else arg_test_games a in
    if existsb (λ game, bool_decide (game ∉ APPID_DICT))
               (elements (games ∪ test_games))
    then Raise ValueError
    else if decide (arg_batch_size a < 1) then Raise ValueError
    else if existsb (λ parameter, bool_decide (parameter < 0))
              [arg_folds a; arg_fold_size a; arg_grid_search_folds a;
               arg_grid_search_fold_size a; arg_test_size a]
    then Raise ValueError
    else
      let equal := bool_decide (test_games = games) in
      _ ← (if equal then Ok ()
           else if decide (arg_test_size a < 0) then Raise ValueError
           else
             match arg_bin_ranges a, arg_test_bin_ranges a with
             | _ :: _, [] => Raise ValueError
             | (_ :: _) as b, (_ :: _) as tb =>
                 if decide (length b ≠ length tb) then Raise ValueError
                 else Ok ()
             | [], _ :: _ => Raise ValueError
             | [], [] => Ok ()
             end);
      if bool_decide (arg_sampling a ∉ sampling_options)
      then Raise ValueError
      else
        Ok (Self games test_games equal (arg_folds a) (arg_fold_size a)
              (arg_grid_search_folds a) (arg_grid_search_fold_size a)
              (arg_sampling a)
              (Kwargs (arg_power_transform a) (arg_lognormal a)
                      (arg_bin_ranges a) (arg_batch_size a))
              (Z2Qc (arg_test_size a)) (Some []) None None None
              None None None).

Definition __init__ (a : init_args) : result self_t :=
  self ← validate a;
  _construct_layered_dataset self.

(** *** Quantities used to state the properties *)

(** The identifiers of a dictionary. *)
Definition keys (d : gmap string Label) : list string :=
  (map_to_list d).*1.

(** How many identifiers of the dictionary carry the label. *)
Definition available (d : gmap string Label) (label : Label) : nat :=
  length (ids_with_label d label).

(** How many identifiers of a list carry the label in the dictionary. *)
Definition count_label (d : gmap string Label) (label : Label)
    (ids : list string) : nat :=
  length (filter (λ _id, d !! _id = Some label) ids).

(** [len(a[:n])] for an array of length [len]. *)
Definition slice_len (n : Z) (len : nat) : nat :=
  if decide (0 ≤ n) then Z.to_nat n `min` len
  else len - Z.to_nat (- n).

(** One step of the computation of [factor], on the number of identifiers
    the label has: what the first stratified loop computes whatever the
    order the shuffle leaves them in. *)
Definition factor_step (d : gmap string Label) (fd : FreqDist) (size : Qc)
    (factor : Qc) (label : Label) : Qc :=
  let n_label_data := Qc_ceil (fd_freq fd label * size) in
  let n_label_data_actual :=
    Z.of_nat (slice_len n_label_data (available d label)) in
  if decide (n_label_data_actual < n_label_data) then
    let new_factor :=
      (1 - Z2Qc (n_label_data - n_label_data_actual) / Z2Qc n_label_data)%Qc in
    if decide (new_factor < factor)%Qc then new_factor else factor
  else factor.

(** The shrink factor of a dictionary for a distribution and a size. *)
Definition shrink_factor (d : gmap string Label) (fd : FreqDist) (size : Qc)
  : Qc :=
  foldl (factor_step d fd size) 1%Qc (sorted_labels fd).

(** A part drawn for a label: some of its identifiers, [m] of them
    unless the label has fewer. *)
Definition part_of (d : gmap string Label) (m : nat) (label : Label)
    (part : list string) : Prop :=
  part ⊆+ ids_with_label d label ∧
  length part = (m `min` available d label)%nat.


(** The partitions of an object: the test set, then the folds of the
    training set, then those of the grid search set. *)
Definition partitions (self : self_t) : list (list string) :=
  default [] (test_set self)
  :: default [] (training_set self) ++ default [] (grid_search_set self).

(** The folds drawn by a loop are made of distinct identifiers of the
    dictionary the loop started with, and these are exactly the ones
    that have left it. *)
Definition drawn_from (d d' : gmap string Label)
    (new : list (list string)) : Prop :=
  mjoin new ⊆+ keys d ∧
  ∀ x, d' !! x = if decide (x ∈ mjoin new) then None else d !! x.

(** The blocks other than the one that builds the training set leave
    [folds] and [training_set] as they are. *)
Definition keeps_folds (stage : self_t → result (self_t))
  : Prop :=
  ∀ self self', stage self = Ok self' →
    folds self' = folds self ∧ training_set self' = training_set self.

(** The object when the folds are about to be drawn. *)
Definition pool_ready (self : self_t) : Prop :=
  ∃ d fd,
    id_strings_labels self = Some d ∧ labels_fdist self = Some fd ∧
    NoDup fd.*1 ∧ NoDup (default [] (test_set self)) ∧
    (∀ x, x ∈ default [] (test_set self) → d !! x = None) ∧
    training_set self = None ∧ grid_search_set self = None.

(** *** Quantities used to state further properties *)

(** [n_label_data] of the stratified loops for a label:
    [int(np.ceil(label_freq*size))]. *)
Definition n_label_data (fd : FreqDist) (size : Qc) (label : Label) : Z :=
  Qc_ceil (fd_freq fd label * size).

(** The dictionary holds fewer identifiers of the label than the
    stratified loops ask for. *)
Definition short_of (d : gmap string Label) (fd : FreqDist) (size : Qc)
    (label : Label) : Prop :=
  Z.of_nat (available d label) < n_label_data fd size label.

(** The share of the identifiers asked for that the label can give. *)
Definition ratio (d : gmap string Label) (fd : FreqDist) (size : Qc)
    (label : Label) : Qc :=
  (Z2Qc (Z.of_nat (available d label)) / Z2Qc (n_label_data fd size label))%Qc.

(** How many samples carry the label. *)
Definition count_samples (label : Label) (samples : list (string * Label))
  : nat :=
  length (filter (λ s, s.2 = label) samples).

(** The fold counts and fold sizes an object was asked for. *)
Definition requested (self : self_t) : Z * Z * Z * Z :=
  (folds self, fold_size self, grid_search_folds self,
   grid_search_fold_size self).

(** A block of [_construct_layered_dataset] that leaves the request and
    the three partitions as they are. *)
Definition partitions_kept (self self' : self_t) : Prop :=
  requested self' = requested self ∧ test_set self' = test_set self ∧
  training_set self' = training_set self ∧
  grid_search_set self' = grid_search_set self.

(** Folds that answer a request for [n] folds of [size] identifiers:
    at least three quarters of them, at most [n], none empty and none
    larger than [size]. *)
Definition folds_as_requested (n size : Z) (ts : list (list string)) : Prop :=
  3 * n ≤ 4 * Z.of_nat (length ts) ∧ Z.of_nat (length ts) ≤ n ∧
  Forall (λ fold_set, fold_set ≠ [] ∧ Z.of_nat (length fold_set) ≤ size) ts.


End ExperimentalData.

Arguments FreqDist Label : clear implicits.
Arguments self_t Label : clear implicits.

End Experiments.

(** ** A small corpus to run the model on *)

Module Corpus.
Import Experiments.

(** A generator that counts its calls; its shuffle reverses the array. *)
Definition counter : Type := nat.
Definition counter_of_seed (seed : Z) : counter := 0%nat.
Definition reverse_shuffle (g : counter) (a : list string)
  : list string * counter := (reverse a, S g).

(** A document of the corpus: game, identifier, label value. *)
Record doc : Type := Doc {
  doc_game : string;
  doc_id : string;
  doc_label : string
}.

(** [n] documents of one game and one label, with identifiers
    [prefix0], [prefix1], ... *)
Definition docs (game prefix label : string) (n : nat) : list doc :=
  (λ i : nat, Doc game (prefix +:+ pretty i) label) <$> seq 0 n.

(** The query [{'game': {'$in': games}}] over a list of documents. *)
Definition find_in (corpus : list doc) (kw : kwargs) (games : list string)
  : result (list (string * string)) :=
  Ok ((λ d, (doc_id d, doc_label d))
        <$> filter (λ d, doc_game d ∈ games) corpus).

Definition APPIDS : gset string := {["Dota_2"; "Arma_3"]}.

Definition externals (corpus : list doc) : Externals string :=
  {| prng := counter; RandomState := counter_of_seed;
     shuffle := reverse_shuffle; APPID_DICT := APPIDS;
     find_samples := find_in corpus |}.

Definition init (corpus : list doc) (a : init_args)
  : result (self_t string) :=
  __init__ (Externals0 := externals corpus) a.

Definition args (games test_games : gset string)
    (folds fold_size grid_search_folds grid_search_fold_size test_size : Z)
    (sampling : string) : init_args :=
  InitArgs games folds fold_size grid_search_folds grid_search_fold_size
    test_games test_size sampling [] [] false None 50.

(** The object at the end of the validation of [args ...]. *)
Definition fresh_self (games test_games : gset string)
    (folds fold_size grid_search_folds grid_search_fold_size test_size : Z)
    (sampling : string) : self_t string :=
  Self games test_games (bool_decide (test_games = games))
    folds fold_size grid_search_folds grid_search_fold_size sampling
    (Kwargs None false [] 50) (Z2Qc test_size) (Some []) None None None
    None None None.

(** The same object once [id_strings_labels] and [labels_fdist] hold the
    given dictionary and distribution. *)
Definition loaded_self (d : gmap string string) (fd : FreqDist string)
    (s : self_t string) : self_t string :=
  set_labels_fdist (Some fd) (set_id_strings_labels (Some d) s).

(** The dictionary and the distribution of a list of documents. *)
Definition dict_of (corpus : list doc) : gmap string string :=
  dict_of_samples ((λ d, (doc_id d, doc_label d)) <$> corpus).

Definition fdist_of (corpus : list doc) : FreqDist string :=
  FreqDist_of (doc_label <$> corpus).

(** The game of the first document with the identifier. *)
Fixpoint game_of_id (corpus : list doc) (_id : string) : string :=
  match corpus with
  | [] => ""
  | d :: rest => if decide (doc_id d = _id) then doc_game d
                 else game_of_id rest _id
  end.

(** 40 documents of each of two labels. *)
Definition corpus_40_40 : list doc :=
  docs "Dota_2" "a" "A" 40 ++ docs "Dota_2" "b" "B" 40.

(** 90 documents of label A and 10 of label B. *)
Definition corpus_90_10 : list doc :=
  docs "Dota_2" "a" "A" 90 ++ docs "Dota_2" "b" "B" 10.

(** Two games, 12 documents each, two labels. *)
Definition corpus_two_games : list doc :=
  docs "Dota_2" "a" "A" 6 ++ docs "Dota_2" "b" "B" 6
  ++ docs "Arma_3" "c" "A" 6 ++ docs "Arma_3" "d" "B" 6.

(** One game, 6 documents of each of two labels. *)
Definition corpus_6_6 : list doc :=
  docs "Dota_2" "a" "A" 6 ++ docs "Dota_2" "b" "B" 6.




End Corpus.

(** ** [src/experiments.pyx]: [evenly_distribute_samples] *)

Module Sampling.
Import Experiments.

Section EvenlyDistributed.

Context {Label : Type} `{!EqDecision Label}.

(** The corpus store seen through [distributional_info] for each value
    of its [partition] argument. *)
Context (store : string → Externals Label).

(** The state of the generator: the dictionary
    [labels_id_strings_lists_dict] (indexed only at the labels of the
    distribution, which are its keys), the counter [i] and the
    identifiers yielded so far. *)
Record gen_state : Type := GenState {
  labels_id_strings_lists_dict : Label → list string;
  gen_i : Z;
  yielded : list string
}.

(** [labels_id_strings_lists_dict[label_value] = ids] *)
Definition dict_set (f : Label → list string) (label_value : Label)
    (ids : list string) : Label → list string :=
  λ k, if decide (k = label_value) then ids else f k.

(** [if labels_id_strings_lists_dict[label_value]:
        yield labels_id_strings_lists_dict[label_value].pop(); i += 1] *)
Definition pop_label (st : gen_state) (label_value : Label) : gen_state :=
  match pop (labels_id_strings_lists_dict st label_value) with
  | None => st
  | Some (_id, rest) =>
      GenState (dict_set (labels_id_strings_lists_dict st) label_value rest)
               (gen_i st + 1) (yielded st ++ [_id])
  end.

(** [while i < len(id_strings_labels_dict): for label_value in
    labels_fdist: ...], with [fuel] bounding the number of rounds of
    the [while] loop; [None] when the fuel runs out. *)
Fixpoint distribute_loop (fuel : nat) (n : Z) (labels : list Label)
    (st : gen_state) : option gen_state :=
  if decide (gen_i st < n) then
    match fuel with
    | O => None
    | S fuel' => distribute_loop fuel' n labels (foldl pop_label st labels)
    end
  else Some st.

(** The truth value of [power_transform], a float or [None]. *)
Definition truthy_float (x : option Qc) : bool :=
  match x with
  | Some q => bool_decide (q ≠ 0%Qc)
  | None => false
  end.

(** [for label_value in labels_fdist:
        labels_id_strings_lists_dict[label_value] =
          [_id for _id, _label in id_strings_labels_dict.items()
           if _label == label_value]] *)
Definition lists_of (d : gmap string Label) (labels : list Label)
  : Label → list string :=
  foldl (λ f label_value,
           dict_set f label_value (ids_with_label d label_value))
        (λ _, []) labels.

(** The generator, run to its end: the identifiers it yields, in
    order.  (Being a generator, the function raises its exceptions at
    the first [next], not at the call.) *)
Definition evenly_distribute_samples (fuel : nat) (games : list string)
    (partition : string) (bin_ranges : list Datasets.bin_range)
    (lognormal : bool) (power_transform : option Qc)
  : result (option (list string)) :=
  if bool_decide (partition ≠ "test")
     && negb (bool_decide (partition ∈ ["train"; "all"]))
  then Raise ValueError
  else if lognormal && truthy_float power_transform then Raise ValueError
  else
    distribution_dict ←
      distributional_info (Externals0 := store partition)
        (Kwargs power_transform lognormal bin_ranges 50) games;
    let d := distribution_dict.1 in
    let fd := distribution_dict.2 in
    Ok (yielded
          <$> distribute_loop fuel (Z.of_nat (size d)) fd.*1
                (GenState (lists_of d fd.*1) 0 [])).

(** Identifiers spread evenly over the labels: for some number of
    rounds [r], every label has given [r] or [r + 1] of its
    identifiers, or all of them if it has fewer. *)
Definition evenly_spread (d : gmap string Label) (labels : list Label)
    (ids : list string) : Prop :=
  ∃ r : nat, ∀ l, l ∈ labels →
    (r `min` available d l ≤ count_label d l ids)%nat ∧
    (count_label d l ids ≤ S r `min` available d l)%nat.

(** The state in round [r] of the [while] loop, when the [for] loop has
    gone through the labels [seen] and has [todo] left. *)
Definition round_inv (d : gmap string Label) (labels : list Label)
    (r : nat) (seen todo : list Label) (st : gen_state) : Prop :=
  (∀ l x, l ∈ labels → x ∈ labels_id_strings_lists_dict st l →
          d !! x = Some l) ∧
  (∀ l, l ∈ labels →
     (count_label d l (yielded st)
      + length (labels_id_strings_lists_dict st l))%nat = available d l) ∧
  (∀ l, l ∈ seen →
     count_label d l (yielded st) = (S r `min` available d l)%nat) ∧
  (∀ l, l ∈ todo →
     count_label d l (yielded st) = (r `min` available d l)%nat) ∧
  gen_i st = Z.of_nat (length (yielded st)) ∧
  yielded st ++ mjoin (labels_id_strings_lists_dict st <$> labels)
    ≡ₚ mjoin (ids_with_label d <$> labels) ∧
  ∀ p, p `prefix_of` yielded st → evenly_spread d labels p.

End EvenlyDistributed.

End Sampling.

(** ** [src/experiments.pyx]: [fit_preds_in_scale] *)

Module Predictions.





End Predictions.

(** ** [src/experiments.pyx]: [get_label_in_doc], [get_all_features] and
       [get_data_point] *)

Module Features.

(** Python values of a review document: scalars, and dictionaries of
    scalars (the [achievement_progress] sub-document). *)
Inductive atom : Type :=
  | ANone
  | ABool (b : bool)
  | AInt (n : Z)
  | AFloat (x : Qc)
  | ANaN
  | AStr (s : string).

Inductive pyval : Type :=
  | Atom (a : atom)
  | Dict (d : gmap string atom).

(** The exceptions of this part of the module: those of [exn], and
    [AttributeError] (calling [.items()] on a value that is not a
    dictionary). *)
Inductive py_exn : Type :=
  | AttributeError
  | Exn (e : exn).

Inductive outcome (A : Type) : Type :=
  | Return (a : A)
  | Throw (e : py_exn).
Arguments Return {A} a.
Arguments Throw {A} e.

#[global] Instance outcome_ret : MRet outcome := λ A a, Return a.
#[global] Instance outcome_bind : MBind outcome := λ A B k r,
  match r with
  | Return a => k a
  | Throw e => Throw e
  end.

(** The truth value of a Python value. *)
Definition truthy_atom (a : atom) : bool :=
  match a with
  | ANone => false
  | ABool b => b
  | AInt n => bool_decide (n ≠ 0)
  | AFloat x => bool_decide (x ≠ 0%Qc)
  | ANaN => true
  | AStr s => bool_decide (s ≠ "")
  end.

Definition truthy (v : pyval) : bool :=
  match v with
  | Atom a => truthy_atom a
  | Dict d => bool_decide (d ≠ ∅)
  end.

(** [val != nan] with [nan = float("NaN")]: a NaN compares unequal to
    every value, itself included. *)
Definition differs_from_nan (v : pyval) : bool := true.

(** [val and val != nan] *)
Definition kept (v : pyval) : bool := truthy v && differs_from_nan v.

(** [v != None] *)
Definition is_not_None (v : pyval) : bool :=
  match v with
  | Atom ANone => false
  | _ => true
  end.

(** [v.items()] *)
Definition items (v : pyval) : outcome (gmap string pyval) :=
  match v with
  | Dict d => Return (Atom <$> d)
  | Atom _ => Throw AttributeError
  end.

(** What [get_data_point] returns: [{'y': ..., 'id': ..., 'x': ...}]. *)
Record data_point : Type := DataPoint {
  dp_y : pyval;
  dp_id : pyval;
  dp_x : gmap string pyval
}.

Section DataPoints.

(** [src.LABELS]; [BSON.decode] applied to [review_doc.get('nlp_features')];
    [src.datasets.compute_label_value]. *)
Context (LABELS : list string).
Context (BSON_decode : option pyval → outcome (gmap string pyval)).
Context (compute_label_value :
           pyval → string → bool → option Qc → list Datasets.bin_range
           → outcome pyval).

(** [{feat: val for feat, val in d.items()
      if feat in set(LABELS) and val and val != nan}] *)
Definition label_features (d : gmap string pyval) : gmap string pyval :=
  filter (λ kv, kv.1 ∈ LABELS ∧ kept kv.2 = true) d.

(** [features.update(new)] *)
Definition update (new features : gmap string pyval) : gmap string pyval :=
  new ∪ features.

Definition get_all_features (review_doc : gmap string pyval)
    (prediction_label : string) (nlp_features : bool)
  : outcome (option (gmap string pyval)) :=
  let features := ∅ in
  features ←
    (if nlp_features then
       decoded ← BSON_decode (review_doc !! "nlp_features");
       Return (update (filter (λ kv, kept kv.2 = true) decoded) features)
     else Return features);
  let features := update (label_features review_doc) features in
  achievements ←
    items (default (Dict ∅) (review_doc !! "achievement_progress"));
  let features := update (label_features achievements) features in
  if negb (from_option truthy false (features !! prediction_label))
  then Return None
  else
    Return (Some (update {["id_string" :=
                            default (Atom ANone) (review_doc !! "id_string")]}
                         features)).

(** [feature_dict[key]] *)
Definition getitem (feature_dict : gmap string pyval) (key : string)
  : outcome pyval :=
  match feature_dict !! key with
  | Some v => Return v
  | None => Throw (Exn KeyError)
  end.

(** [del feature_dict[key]] *)
Definition delitem (feature_dict : gmap string pyval) (key : string)
  : outcome (gmap string pyval) :=
  match feature_dict !! key with
  | Some _ => Return (delete key feature_dict)
  | None => Throw (Exn KeyError)
  end.

(** One iteration of [for feat in LABELS: if not feat in
    non_nlp_features and feature_dict.get(feat, None) != None:
    del feature_dict[feat]]. *)
Definition drop_label_feature (non_nlp_features : list string)
    (feature_dict : gmap string pyval) (feat : string)
  : gmap string pyval :=
  if negb (bool_decide (feat ∈ non_nlp_features))
     && is_not_None (default (Atom ANone) (feature_dict !! feat))
  then delete feat feature_dict
  else feature_dict.

Definition get_data_point (review_doc : gmap string pyval)
    (prediction_label : string) (nlp_features : bool)
    (non_nlp_features : list string) (lognormal : bool)
    (power_transform : option Qc) (bin_ranges : list Datasets.bin_range)
  : outcome (option data_point) :=
  feature_dict ← get_all_features review_doc prediction_label nlp_features;
  match feature_dict with
  | None => Return None
  | Some feature_dict =>
      if decide (feature_dict = ∅) then Return None
      else
        label_value ← getitem feature_dict prediction_label;
        y_value ← compute_label_value label_value prediction_label
                    lognormal power_transform bin_ranges;
        feature_dict ← delitem feature_dict prediction_label;
        id_string ← getitem feature_dict "id_string";
        feature_dict ← delitem feature_dict "id_string";
        let feature_dict :=
          foldl (drop_label_feature non_nlp_features) feature_dict LABELS in
        if decide (feature_dict = ∅) then Return None
        else Return (Some (DataPoint y_value id_string feature_dict))
  end.

(** [label in achievement_progress]: a key test on a dictionary, a
    substring test on a string, a [TypeError] on a value that is not
    iterable. *)
Definition contains (v : pyval) (label : string) : outcome bool :=
  match v with
  | Dict d => Return (bool_decide (is_Some (d !! label)))
  | Atom (AStr s) => Return (bool_decide (is_Some (String.index 0 label s)))
  | Atom _ => Throw (Exn TypeError)
  end.

(** [achievement_progress[label]], reached only when the test above
    holds: a string is not indexed by a string. *)
Definition subscript (v : pyval) (label : string) : outcome pyval :=
  match v with
  | Dict d => from_option (λ a, Return (Atom a)) (Throw (Exn KeyError))
                (d !! label)
  | Atom _ => Throw (Exn TypeError)
  end.

(** [get_label_in_doc(doc, label)]; falling off the end returns
    [None]. *)
Definition get_label_in_doc (doc : gmap string pyval) (label : string)
  : outcome pyval :=
  if negb (bool_decide (label ∈ LABELS)) then Throw (Exn ValueError)
  else
    match doc !! label with
    | Some v => Return v
    | None =>
        match doc !! "achievement_progress" with
        | Some achievement_progress =>
            found ← contains achievement_progress label;
            if found : bool then subscript achievement_progress label
            else Return (Atom ANone)
        | None => Return (Atom ANone)
        end
    end.

(** The three dictionaries the features are collected from. *)
Definition collected (review_doc : gmap string pyval) (nlp_features : bool)
    (feat : string) (val : pyval) : Prop :=
  (nlp_features = true ∧
   ∃ decoded, BSON_decode (review_doc !! "nlp_features") = Return decoded ∧
              decoded !! feat = Some val)
  ∨ (feat ∈ LABELS ∧ review_doc !! feat = Some val)
  ∨ (feat ∈ LABELS ∧
     ∃ a, review_doc !! "achievement_progress" = Some (Dict a) ∧
          Atom <$> a !! feat = Some val).

End DataPoints.

(** A review document with three labels, one of them in the
    [achievement_progress] sub-document, read with a decoder that
    gives back a stored dictionary and with label values left as they
    are. *)
Definition LABELS_3 : list string :=
  ["total_game_hours"; "num_reviews"; "num_achievements_attained"].

Definition decode_stored (v : option pyval) : outcome (gmap string pyval) :=
  from_option items (Throw AttributeError) v.

Definition label_unchanged (v : pyval) (label : string) (lognormal : bool)
    (power_transform : option Qc) (bin_ranges : list Datasets.bin_range)
  : outcome pyval := Return v.

Definition review_doc_1 : gmap string pyval :=
  {[ "total_game_hours" := Atom (AFloat (Z2Qc 12));
     "num_reviews" := Atom (AInt 3);
     "id_string" := Atom (AStr "r1");
     "nlp_features" := Dict {[ "good" := AInt 2 ]};
     "achievement_progress" :=
       Dict {[ "num_achievements_attained" := AInt 5 ]} ]}.

End Features.

(** ** [src/experiments.pyx]: [get_sorted_features_for_learner] and
       [print_model_weights] *)

Module Weights.

Section Learner.

(** Class labels are only copied. *)
Context {Label : Type}.

(** [dict(feature=..., label=..., weight=...)] *)
Record feature_weight : Type := FeatureWeight {
  fw_feature : string;
  fw_label : Label;
  fw_weight : Qc
}.

(** [learner.coef_[i][index]] on the two-dimensional array of a
    classifier; [None] is the [IndexError]. *)
Definition coef_at (coef_ : list (list Qc)) (i index : nat) : option Qc :=
  row ← coef_ !! i; row !! index.

(** [[learner.coef_[i][index] for i, _ in enumerate(classes)]] *)
Definition coef_indices (coef_ : list (list Qc)) (classes : list Label)
    (index : nat) : option (list Qc) :=
  mapM (λ i, coef_at coef_ i index) (seq 0 (length classes)).

(** The first loop, from feature number [index] on: one tuple
    [(feat, (class, coef), ...)] per feature name, [ValueError] at the
    first feature with a missing coefficient. *)
Fixpoint collect_coefs (coef_ : list (list Qc)) (classes : list Label)
    (index : nat) (feature_names : list string)
  : result (list (string * list (Label * Qc))) :=
  match feature_names with
  | [] => Ok []
  | feat :: rest =>
      match coef_indices coef_ classes index with
      | None => Raise ValueError
      | Some coefs =>
          feature_coefs ← collect_coefs coef_ classes (S index) rest;
          Ok ((feat, zip classes coefs) :: feature_coefs)
      end
  end.

(** [[dict(feature=coefs[0], label=coefs[i][0], weight=coefs[i][1])
      for coefs in feature_coefs if coefs[i][1]]]; [coefs[i]] is the
    pair number [i - 1] of the tuple, which has one pair per class. *)
Definition weights_of_class
    (feature_coefs : list (string * list (Label * Qc))) (i : nat)
  : list feature_weight :=
  mjoin ((λ coefs,
            match coefs.2 !! (i - 1)%nat with
            | Some (label, weight) =>
                if decide (weight ≠ 0%Qc)
                then [FeatureWeight coefs.1 label weight] else []
            | None => []
            end) <$> feature_coefs).

(** [get_sorted_features_for_learner(learner, classes, vectorizer)]:
    [no_introspection] tells whether the learner is of one of the
    [NO_INTROSPECTION_LEARNERS], [coef_] is [learner.coef_] and
    [feature_names] is [vectorizer.get_feature_names()]. *)
Definition get_sorted_features_for_learner (no_introspection : bool)
    (coef_ : list (list Qc)) (classes : list Label)
    (feature_names : list string) : result (list feature_weight) :=
  if no_introspection then Raise ValueError
  else
    feature_coefs ← collect_coefs coef_ classes 0 feature_names;
    let features :=
      mjoin (weights_of_class feature_coefs <$> seq 1 (length classes)) in
    Ok (sorted_desc_by (λ x, Qc_abs (fw_weight x)) features).


End Learner.

Arguments feature_weight Label : clear implicits.

End Weights.

(** ** [util/datasets.pyx]: [write_arff_file] *)

Module Arff.
Import Datasets.

(** A review dictionary [{'hours': ..., 'review': ...}] and a document
    of the reviews collection, of which the writer reads three keys. *)
Record review_dict : Type := ReviewDict {
  rd_hours : Qc;
  rd_review : string
}.

Record game_doc : Type := GameDoc {
  gd_review : string;
  gd_hours : Qc;
  gd_hours_bin : Z
}.

(** The [bins] argument: a boolean or a list of ranges. *)
Inductive bins_arg : Type :=
  | BinsFlag (b : bool)
  | BinsRanges (bin_ranges : list bin_range).

(** [if bins:] *)
Definition bins_truthy (bins : bins_arg) : bool :=
  match bins with
  | BinsFlag b => b
  | BinsRanges l => bool_decide (l ≠ [])
  end.

(** [type(bins) == list] *)
Definition bins_is_list (bins : bins_arg) : bool :=
  match bins with
  | BinsFlag _ => false
  | BinsRanges _ => true
  end.

(** The ranges handed to [get_bin] (it is not reached with a
    boolean). *)
Definition ranges_of (bins : bins_arg) : list bin_range :=
  match bins with
  | BinsFlag _ => []
  | BinsRanges l => l
  end.

(** How the function ends: it returns [None] or calls
    [sys.exit(code)]. *)
Inductive ended : Type :=
  | Returned
  | Exited (code : Z).

(** The single quote, the double quote, the backslash, the underscore,
    the space and the newline, by their codes. *)
Definition single_quote : Ascii.ascii := Ascii.ascii_of_nat 39.
Definition double_quote : Ascii.ascii := Ascii.ascii_of_nat 34.
Definition backslash : Ascii.ascii := Ascii.ascii_of_nat 92.
Definition underscore : Ascii.ascii := Ascii.ascii_of_nat 95.
Definition space : Ascii.ascii := Ascii.ascii_of_nat 32.
Definition newline : string := String (Ascii.ascii_of_nat 10) EmptyString.

(** [re.sub(pattern, '', s)] for a pattern that matches one character
    out of [bad]. *)
Fixpoint remove_chars (bad : list Ascii.ascii) (s : string) : string :=
  match s with
  | EmptyString => EmptyString
  | String c r =>
      if decide (c ∈ bad) then remove_chars bad r
      else String c (remove_chars bad r)
  end.

(** [re.sub(r'_', r' ', f)] *)
Fixpoint underscores_to_spaces (s : string) : string :=
  match s with
  | EmptyString => EmptyString
  | String c r =>
      String (if decide (c = underscore) then space else c)
             (underscores_to_spaces r)
  end.

(** [s[:-4]] *)
Definition drop_last_4 (s : string) : string :=
  String.substring 0 (String.length s - 4) s.

(** ['\n'.join(lines)] *)
Definition join_lines (lines : list string) : string :=
  String.concat newline lines.

(** The format of a line: the review between double quotes, a comma,
    the hours. *)
Definition arff_line (review hours : string) : string :=
  String double_quote (review +:+ String double_quote ("," +:+ hours)).

Section Writer.

(** [str.lower]; [strftime(TIMEF)], which reads the clock, as a
    function of the number of files written before; [str] of a list of
    strings and of a float; [reviewdb.find] for a partition and a list
    of games. *)
Context (lower : string → string).
Context (strftime : nat → string).
Context (str_of_list : list string → string).
Context (str_of_float : Qc → string).
Context (find : string → list string → list game_doc).

(** [ARFF_BASE.format(now, _file_names)] *)
Definition ARFF_BASE (now _file_names : string) : string :=
  "% Generated on " +:+ now +:+ newline
  +:+ "% This ARFF file was generated with review data from the following game(s): "
  +:+ _file_names +:+ newline
  +:+ "% It is useful only for trying out machine learning algorithms on the bag-of-words representation of the reviews."
  +:+ newline
  +:+ "@relation reviewer_experience" +:+ newline
  +:+ "@attribute string_attribute string" +:+ newline
  +:+ "@attribute numeric_attribute numeric" +:+ newline
  +:+ newline
  +:+ "@data".

(** The two substitutions applied to a review text. *)
Definition clean_review (review : string) : string :=
  remove_chars [backslash]
    (remove_chars [single_quote; double_quote] (lower review)).

(** ['{}\n{}'.format(ARFF_BASE.format(...), '\n'.join(reviews_lines))] *)
Definition arff_text (now _file_names : string)
    (reviews_lines : list string) : string :=
  ARFF_BASE now _file_names +:+ newline +:+ join_lines reviews_lines.

(** The body of [for partition in ['training', 'test']], on the files
    written so far. *)
Definition write_partition (dest_path : string) (file_names : list string)
    (_file_names : string) (bins : bins_arg)
    (files : list (string * string)) (partition : string)
  : list (string * string) * ended :=
  let game_docs := find partition file_names in
  match game_docs with
  | [] => (files, Exited 1)
  | _ =>
      let reviews_lines :=
        (λ game_doc,
           arff_line (clean_review (gd_review game_doc))
             (if bins_truthy bins then pretty (gd_hours_bin game_doc)
              else str_of_float (gd_hours game_doc))) <$> game_docs in
      let suffix := if String.prefix "train" partition then "train"
                    else "test" in
      let replacement := suffix +:+ ".arff" in
      let replacement := if bins_truthy bins then "bins." +:+ replacement
                         else replacement in
      let _dest_path := drop_last_4 dest_path +:+ replacement in
      (files ++ [(_dest_path,
                  arff_text (strftime (length files)) _file_names
                    reviews_lines)],
       Returned)
  end.

(** The loop [for rd in reviews] of the other branch: the lines, or
    [None] when a value has no bin ([sys.exit(1)]). *)
Fixpoint review_lines (bins : bins_arg) (reviews : list review_dict)
  : option (list string) :=
  match reviews with
  | [] => Some []
  | rd :: rest =>
      let review := clean_review (rd_review rd) in
      if bins_truthy bins then
        let hours := get_bin (ranges_of bins) (rd_hours rd) in
        if decide (hours < 0) then None
        else lines ← review_lines bins rest;
             Some (arff_line review (pretty hours) :: lines)
      else
        lines ← review_lines bins rest;
        Some (arff_line review (str_of_float (rd_hours rd)) :: lines)
  end.

(** [write_arff_file]: the files written, as (path, text) in the order
    of the writes, and how the call ends.  [reviews] and [reviewdb]
    are [None] or a value; of an absent or empty [reviews] only the
    truth value is used. *)
Definition write_arff_file (dest_path : string) (file_names : list string)
    (reviews : list review_dict) (reviewdb : bool)
    (make_train_test : bool) (bins : bins_arg)
  : list (string * string) * ended :=
  let has_reviews := bool_decide (reviews ≠ []) in
  if make_train_test && (has_reviews || negb reviewdb) then ([], Exited 1)
  else if negb make_train_test && reviewdb && negb has_reviews
  then ([], Exited 1)
  else if bins_truthy bins && has_reviews && negb (bins_is_list bins)
  then ([], Exited 1)
  else
    let _file_names := str_of_list (underscores_to_spaces <$> file_names) in
    if make_train_test then
      match write_partition dest_path file_names _file_names bins []
              "training" with
      | (files, Returned) =>
          write_partition dest_path file_names _file_names bins files "test"
      | stopped => stopped
      end
    else if negb has_reviews then ([], Exited 1)
    else
      match review_lines bins reviews with
      | None => ([], Exited 1)
      | Some reviews_lines =>
          let dest_path := if bins_truthy bins
                           then drop_last_4 dest_path +:+ "bins.arff"
                           else dest_path in
          ([(dest_path, arff_text (strftime 0%nat) _file_names reviews_lines)],
           Returned)
      end.

End Writer.

(** A collection that holds one document, of the training partition. *)
Definition training_docs_only (partition : string) (games : list string)
  : list game_doc :=
  if String.prefix "train" partition then [GameDoc "Fun" (Z2Qc 3) 1] else [].

End Arff.

(* ================================================================= *)
(** * Properties of the bin helpers *)

Module DatasetsFacts.
Import Datasets.

Lemma Z2Qc_succ (k : Z) : Z2Qc (k + 1 - 1) = (Z2Qc (k - 1) + 1)%Qc.
Proof.
  unfold Z2Qc. replace (k + 1 - 1) with ((k - 1) + 1) by lia.
  by rewrite Z2Qc_inj_add, Z2Qc_inj_1.
Qed.

(** The loop of [get_bin_ranges] appends [nth_range b] at iteration [b]. *)
Lemma bin_loop_closed (_min bin_size : Qc) (nbins : Z) (m : nat) :
  ∀ (k : Z) (st : bin_state),
    1 ≤ k → k + Z.of_nat m - 1 ≤ nbins →
    (k = 1 → _bin_start st = (_min - frac 1 10)%Qc) →
    (k ≠ 1 →
     _bin_end st = (_min - frac 1 10 + Z2Qc (k - 1) * bin_size)%Qc) →
    bin_ranges_acc (foldl (bin_step nbins bin_size) st (seqZ k (Z.of_nat m)))
    = bin_ranges_acc st ++ (nth_range _min bin_size nbins <$> seqZ k (Z.of_nat m)).
Proof.
  induction m as [|m IH]; intros k st Hk Hn H1 Hne.
  - rewrite seqZ_nil by lia. simpl. by rewrite app_nil_r.
  - rewrite seqZ_cons by lia.
    replace (Z.pred (Z.of_nat (S m))) with (Z.of_nat m) by lia.
    cbn [foldl fmap list_fmap].
    assert (Hstart : (if decide (k = 1) then _bin_start st else _bin_end st)
                     = (_min - frac 1 10 + Z2Qc (k - 1) * bin_size)%Qc).
    { destruct (decide (k = 1)) as [->|Hk1].
      - rewrite H1 by done. change (Z2Qc (1 - 1)) with (Qc_of_Z 0).
        rewrite Z2Qc_inj_0. ring.
      - by apply Hne. }
    assert (Hstep : bin_step nbins bin_size st k
              = BinState (nth_range _min bin_size nbins k).1
                         (nth_range _min bin_size nbins k).2
                         (bin_ranges_acc st ++ [nth_range _min bin_size nbins k])).
    { unfold bin_step, nth_range. rewrite Hstart. cbn [fst snd].
      by destruct (decide (k = nbins)). }
    rewrite Hstep. destruct m as [|m].
    + rewrite seqZ_nil by lia. simpl. done.
    + rewrite IH; [| lia | lia | intros; lia |].
      * cbn [bin_ranges_acc]. by rewrite <-app_assoc.
      * intros _. cbn [_bin_end]. unfold nth_range. cbn [snd].
        rewrite decide_False by lia. unfold Z.succ. rewrite Z2Qc_succ. ring.
Qed.

Lemma get_bin_ranges_closed (_min _max : Qc) (nbins : Z) :
  nbins ≠ 0 →
  get_bin_ranges _min _max nbins
  = Ok (nth_range _min (round1 ((_max - _min) / Z2Qc nbins)%Qc) nbins
          <$> seqZ 1 nbins).
Proof.
  intros Hn. unfold get_bin_ranges. rewrite decide_False by done. f_equal.
  destruct (decide (nbins ≤ 0)) as [Hle|Hgt].
  - by rewrite !seqZ_nil by lia.
  - set (bs := round1 _).
    pose proof (bin_loop_closed _min bs nbins (Z.to_nat nbins) 1
                  (BinState (_min - frac 1 10)%Qc (_min + bs)%Qc [])) as H.
    rewrite Z2Nat.id in H by lia. apply H; [lia|lia|done|done].
Qed.

Lemma Z2Qc_nonneg (n : Z) : 0 ≤ n → (0 ≤ Z2Qc n)%Qc.
Proof.
  intros H. unfold Z2Qc. rewrite <-Z2Qc_inj_0.
  by apply (proj1 (Z2Qc_inj_le 0 n)).
Qed.

Lemma Z2Qc_pos (n : Z) : 0 < n → (0 < Z2Qc n)%Qc.
Proof.
  intros H. unfold Z2Qc. rewrite <-Z2Qc_inj_0.
  by apply (proj1 (Z2Qc_inj_lt 0 n)).
Qed.

Lemma round1_nonneg (x : Qc) : (0 ≤ x)%Qc → (0 ≤ round1 x)%Qc.
Proof.
  intros Hx. unfold round1.
  set (t := (x * Z2Qc 10)%Qc). set (f := Qc_floor t).
  assert (Ht : (0 ≤ t)%Qc).
  { apply Qcmult_nonneg_nonneg; [done|]. by apply Z2Qc_nonneg. }
  assert (Hf : 0 ≤ f).
  { change 0 with (Qfloor 0). apply Qfloor_resp_le. exact Ht. }
  set (n := match _ with Lt => f | Eq => _ | Gt => _ end).
  assert (Hn : 0 ≤ n).
  { subst n. destruct (_ ?= _)%Qc; [destruct (Z.even f)|..]; lia. }
  unfold Qcdiv. apply Qcmult_nonneg_nonneg.
  - by apply Z2Qc_nonneg.
  - apply Qclt_le_weak, Qcinv_pos. by apply Z2Qc_pos.
Qed.


Lemma get_bin_from_spec (bin_ranges : list bin_range) (val : Qc) :
  ∀ k : Z,
    (∃ (i : nat) r, bin_ranges !! i = Some r ∧ in_range val r ∧
        (∀ (j : nat) r', (j < i)%nat → bin_ranges !! j = Some r' →
                         ¬ in_range val r') ∧
        get_bin_from k bin_ranges val = k + Z.of_nat i + 1)
    ∨ ((∀ r, r ∈ bin_ranges → ¬ in_range val r) ∧
       get_bin_from k bin_ranges val = -1).
Proof.
  induction bin_ranges as [|r rest IH]; intros k.
  - right. split; [|done]. intros r Hr. by apply elem_of_nil in Hr.
  - cbn [get_bin_from].
    destruct (bool_decide (r.1 < val)%Qc) eqn:Hlo;
      [destruct (bool_decide (val ≤ r.2)%Qc) eqn:Hhi|]; cbn [andb].
    + left. exists 0%nat, r. split_and!; [done| |intros; lia|lia].
      split; [by apply bool_decide_eq_true in Hlo
             |by apply bool_decide_eq_true in Hhi].
    + apply bool_decide_eq_false in Hhi.
      destruct (IH (k + 1)) as [(i & r' & Hi & Hin & Hfirst & Heq)|[Hnone Heq]].
      * left. exists (S i), r'. split_and!; [done|done| |lia].
        intros [|j] r'' Hj Hr''; [|apply (Hfirst j); [lia|done]].
        injection Hr'' as <-. intros [_ ?]. done.
      * right. split; [|done]. intros r' [->|Hr']%elem_of_cons; [|by apply Hnone].
        intros [_ ?]. done.
    + apply bool_decide_eq_false in Hlo.
      destruct (IH (k + 1)) as [(i & r' & Hi & Hin & Hfirst & Heq)|[Hnone Heq]].
      * left. exists (S i), r'. split_and!; [done|done| |lia].
        intros [|j] r'' Hj Hr''; [|apply (Hfirst j); [lia|done]].
        injection Hr'' as <-. intros [? _]. done.
      * right. split; [|done]. intros r' [->|Hr']%elem_of_cons; [|by apply Hnone].
        intros [? _]. done.
Qed.

Lemma get_bin_ranges_0_10_5 :
  get_bin_ranges (Z2Qc 0) (Z2Qc 10) 5 = Ok ranges_0_10_5.
Proof.
  rewrite get_bin_ranges_closed by done. by vm_compute.
Qed.








End DatasetsFacts.


(* ================================================================= *)
(** * Properties of [ExperimentalData] *)

Module ExperimentsFacts.
Import Experiments.

Lemma three_quarters (F k : Z) :
  (frac 3 4 * Z2Qc F ≤ Z2Qc k)%Qc ↔ 3 * F ≤ 4 * k.
Proof.
  unfold Qcle, frac, Z2Qc, Qc_of_Z. cbn [this Qcmult Q2Qc].
  rewrite !Qred_correct. unfold Qle. cbn. lia.
Qed.

(** Splitting a [bind] whose result is known to be [Ok]. *)
Lemma bind_Ok {A B} (r : result A) (k : A → result B) (b : B) :
  (r ≫= k) = Ok b → ∃ a, r = Ok a ∧ k a = Ok b.
Proof. destruct r as [a|e]; [|done]. intros. by exists a. Qed.

Ltac run_bind := cbn [mbind result_bind rbind].

Section Facts.
Context {Label : Type} `{!EqDecision Label} `{!Externals Label}.

Implicit Types (self : self_t Label) (d : gmap string Label)
  (fd : FreqDist Label).

(** *** What the methods leave unchanged *)

Lemma generate_training_fold_self self size c n self' fold_set :
  _generate_training_fold self size c n = Ok (self', fold_set) →
  ∃ d, self' = set_id_strings_labels (Some d) self.
Proof.
  unfold _generate_training_fold.
  intros (fd & _ & (d & _ & (r & _ & Hr)%bind_Ok)%bind_Ok)%bind_Ok.
  injection Hr as <- <-. by eexists.
Qed.

Lemma fold_loop_self (n : nat) :
  ∀ self size F c ts self' c' ts',
    fold_loop n self size F c ts = Ok (self', c', ts') →
    self' = set_id_strings_labels (id_strings_labels self') self.
Proof.
  induction n as [|n IH]; intros self size F c ts self' c' ts' Hloop.
  - injection Hloop as <- <- <-. by destruct self.
  - cbn [fold_loop] in Hloop.
    apply bind_Ok in Hloop as ([self1 fold_set] & Hfold & Hrest).
    apply generate_training_fold_self in Hfold as [d ->].
    cbn [fst snd] in Hrest. destruct fold_set as [|x fold_set].
    + injection Hrest as <- <- <-. done.
    + apply IH in Hrest. rewrite Hrest. done.
Qed.

Lemma generate_dataset_self self gs self' ts :
  _generate_dataset self gs = Ok (self', ts) →
  self' = set_id_strings_labels (id_strings_labels self') self.
Proof.
  unfold _generate_dataset.
  intros ([[self1 c] ts1] & Hloop & Hcheck)%bind_Ok.
  case_decide; [|done]. injection Hcheck as <- <-.
  by apply fold_loop_self in Hloop.
Qed.

Lemma make_test_set_folds self self' ts :
  _make_test_set self = Ok (self', ts) →
  folds self' = folds self ∧ training_set self' = training_set self.
Proof.
  unfold _make_test_set. intros (dd & _ & Hrest)%bind_Ok.
  repeat case_decide.
  - injection Hrest as <- <-. by destruct (_games_test_games_equal self).
  - apply bind_Ok in Hrest as (size & _ & Hrest). injection Hrest as <- <-.
    by destruct (_games_test_games_equal self).
  - destruct (even_loop _ _ _ _ _ _ _); [|done]. injection Hrest as <- <-.
    by destruct (_games_test_games_equal self).
Qed.

(** *** A zero main-fold count *)

Lemma build_test_set_keeps : keeps_folds (Label := Label) build_test_set.
Proof.
  intros self self'. unfold build_test_set. case_decide.
  - intros ([self1 ts] & Hmake & Hset)%bind_Ok.
    injection Hset as <-. by apply make_test_set_folds in Hmake.
  - by intros [= <-].
Qed.

Lemma load_distribution_keeps : keeps_folds (Label := Label) load_distribution.
Proof.
  intros self self'. unfold load_distribution.
  destruct (negb _).
  - intros (dd & _ & Hset)%bind_Ok. by injection Hset as <-.
  - by intros [= <-].
Qed.

Lemma remove_test_ids_keeps : keeps_folds (Label := Label) remove_test_ids.
Proof.
  intros self self'. unfold remove_test_ids. destruct (_ && _).
  - intros (ids & _ & (d & _ & Hset)%bind_Ok)%bind_Ok.
    by injection Hset as <-.
  - by intros [= <-].
Qed.

Lemma index_labels_keeps : keeps_folds (Label := Label) index_labels.
Proof.
  intros self self'. unfold index_labels.
  intros (fd & _ & (d & _ & Hset)%bind_Ok)%bind_Ok.
  by injection Hset as <-.
Qed.

Lemma build_grid_search_set_keeps : keeps_folds (Label := Label) build_grid_search_set.
Proof.
  intros self self'. unfold build_grid_search_set. case_decide.
  - intros ([self1 ts] & Hgen & Hset)%bind_Ok. injection Hset as <-.
    apply generate_dataset_self in Hgen. cbn [fst]. by rewrite Hgen.
  - by intros [= <-].
Qed.

Lemma construct_without_folds self :
  folds self = 0 → training_set self = None →
  ∃ e, _construct_layered_dataset self = Raise e.
Proof.
  intros Hf Ht. unfold _construct_layered_dataset.
  destruct (build_test_set self) as [s1|e] eqn:H1; [|by exists e].
  apply build_test_set_keeps in H1 as [Hf1 Ht1]. run_bind.
  destruct (load_distribution s1) as [s2|e] eqn:H2; [|by exists e].
  apply load_distribution_keeps in H2 as [Hf2 Ht2]. run_bind.
  destruct (remove_test_ids s2) as [s3|e] eqn:H3; [|by exists e].
  apply remove_test_ids_keeps in H3 as [Hf3 Ht3]. run_bind.
  destruct (index_labels s3) as [s4|e] eqn:H4; [|by exists e].
  apply index_labels_keeps in H4 as [Hf4 Ht4]. run_bind.
  assert (H5 : build_training_set s4 = Ok s4).
  { unfold build_training_set. rewrite decide_False; [done|]. congruence. }
  rewrite H5. run_bind.
  destruct (build_grid_search_set s4) as [s6|e] eqn:H6; [|by exists e].
  apply build_grid_search_set_keeps in H6 as [Hf6 Ht6]. run_bind.
  exists TypeError. unfold count_datasets.
  assert (Hnone : training_set s6 = None) by congruence.
  by rewrite Hnone.
Qed.

Lemma validate_fields a self :
  validate a = Ok self →
  folds self = arg_folds a ∧ training_set self = None ∧
  test_size self = Z2Qc (arg_test_size a) ∧
  games self = arg_games a ∧
  _games_test_games_equal self = bool_decide (test_games self = games self) ∧
  games self ≠ ∅ ∧ test_set self = Some [] ∧
  id_strings_labels self = None ∧ labels_fdist self = None ∧
  grid_search_set self = None.
Proof.
  unfold validate. repeat (case_decide; [done|]).
  destruct (existsb _ _); [done|]. case_decide; [done|].
  destruct (existsb _ _); [done|].
  intros (u & _ & Hs)%bind_Ok. destruct (bool_decide (_ ∉ _)); [done|].
  by injection Hs as <-.
Qed.

(** C10.  A construction with [folds = 0] never returns: when the
    arguments pass the validation (which accepts a zero fold count),
    [_construct_layered_dataset] skips the main training set, so that
    [training_set] is still [None] when [len(self.training_set)] is
    evaluated, unless an earlier step has raised already. *)
Theorem zero_folds_never_constructs (a : init_args) (self : self_t Label) :
  validate a = Ok self → arg_folds a = 0 →
  training_set self = None ∧
  build_training_set self = Ok self ∧
  count_datasets self = Raise TypeError ∧
  ∃ e, __init__ a = Raise e.
Proof.
  intros Hv Hz. pose proof (validate_fields _ _ Hv) as (Hf & Ht & _).
  rewrite Hz in Hf. split_and!; [done| | |].
  - unfold build_training_set. by rewrite decide_False by congruence.
  - unfold count_datasets. by rewrite Ht.
  - unfold __init__. rewrite Hv. by apply construct_without_folds.
Qed.

(** *** Validation of the test size *)

(** C9 (what the code does).  With differing, recognised game sets and
    otherwise valid arguments, [test_size = 0] passes the validation
    of the constructor: the check reads [test_size < 0], which the
    earlier non-negativity check has already excluded, and the
    construction goes on without building a test set. *)
Theorem validate_accepts_zero_test_size (a : init_args) :
  arg_games a ≠ ∅ → arg_test_games a ≠ ∅ →
  arg_test_games a ≠ arg_games a →
  arg_games a ∪ arg_test_games a ⊆ APPID_DICT →
  1 ≤ arg_batch_size a →
  0 ≤ arg_folds a → 0 ≤ arg_fold_size a →
  0 ≤ arg_grid_search_folds a → 0 ≤ arg_grid_search_fold_size a →
  arg_bin_ranges a = [] → arg_test_bin_ranges a = [] →
  arg_sampling a ∈ sampling_options →
  arg_test_size a = 0 →
  ∃ self : self_t Label,
    validate a = Ok self ∧ _games_test_games_equal self = false ∧
    test_size self = Z2Qc 0 ∧ test_set self = Some [] ∧
    build_test_set self = Ok self.
Proof.
  intros Hg Htg Hne Hsub Hb Hf Hfs Hgf Hgfs Hbr Htbr Hs Hts.
  unfold validate. rewrite !decide_False by (done || lia).
  destruct (existsb _ (elements _)) eqn:Hex.
  { apply existsb_exists in Hex as (g & Hin & Hg').
    apply list_elem_of_In, elem_of_elements in Hin.
    apply bool_decide_eq_true in Hg'. destruct Hg'. by apply Hsub. }
  rewrite ?decide_False by lia.
  destruct (existsb _ [_; _; _; _; _]) eqn:Hneg.
  { apply existsb_exists in Hneg as (x & Hin & Hx).
    apply bool_decide_eq_true in Hx. apply list_elem_of_In in Hin.
    set_unfold in Hin. lia. }
  rewrite (bool_decide_eq_false_2 (arg_test_games a = arg_games a)) by done.
  rewrite ?decide_False by lia. rewrite Hbr, Htbr. run_bind.
  destruct (bool_decide (arg_sampling a ∉ sampling_options)) eqn:Hsamp.
  { by apply bool_decide_eq_true in Hsamp. }
  eexists. split_and!; [done|done|by rewrite Hts|done|].
  unfold build_test_set. cbn [test_size]. rewrite Hts.
  by rewrite decide_False by (intros Hn; apply Hn, Z2Qc_inj_0).
Qed.

(** *** The 75% rule of [_generate_dataset] *)

Lemma fold_loop_count (n : nat) :
  ∀ self size F c ts self' c' ts',
    fold_loop n self size F c ts = Ok (self', c', ts') →
    ∃ new, ts' = ts ++ new ∧ c' = c + Z.of_nat (length new) ∧
           Forall (λ fold_set, fold_set ≠ []) new ∧
           (length new ≤ n)%nat.
Proof.
  induction n as [|n IH]; intros self size F c ts self' c' ts' Hloop.
  - injection Hloop as <- <- <-. exists []. rewrite app_nil_r.
    split_and!; [done|cbn; lia|done|done].
  - cbn [fold_loop] in Hloop.
    apply bind_Ok in Hloop as ([self1 fold_set] & _ & Hrest).
    cbn [fst snd] in Hrest. destruct fold_set as [|x fold_set].
    + injection Hrest as <- <- <-. exists []. rewrite app_nil_r.
      split_and!; [done|cbn; lia|done|cbn; lia].
    + apply IH in Hrest as (new & -> & -> & Hnew & Hlen).
      exists ((x :: fold_set) :: new). rewrite <-app_assoc.
      split_and!; [done|cbn [length]; lia| |cbn [length]; lia].
      by constructor.
Qed.


(** *** Slices, labels and draws *)

Lemma slice_to_sublist {A} (n : Z) (a : list A) :
  slice_to n a `sublist_of` a.
Proof. unfold slice_to. case_decide; apply sublist_take. Qed.

Lemma length_slice_to {A} (n : Z) (a : list A) :
  length (slice_to n a) = slice_len n (length a).
Proof.
  unfold slice_to, slice_len. case_decide; rewrite length_take; lia.
Qed.

Lemma slice_len_of_nat (m len : nat) :
  slice_len (Z.of_nat m) len = (m `min` len)%nat.
Proof. unfold slice_len. rewrite decide_True by lia. lia. Qed.

Lemma ids_with_label_spec d label (x : string) :
  x ∈ ids_with_label d label ↔ d !! x = Some label.
Proof.
  unfold ids_with_label. rewrite list_elem_of_fmap. split.
  - intros ([k v] & -> & [Hv Hin]%list_elem_of_filter).
    cbn in Hv. subst v. by apply elem_of_map_to_list in Hin.
  - intros Hx. exists (x, label). split; [done|].
    apply list_elem_of_filter. split; [done|].
    by apply elem_of_map_to_list.
Qed.

Lemma ids_with_label_NoDup d label : NoDup (ids_with_label d label).
Proof.
  unfold ids_with_label.
  eapply sublist_NoDup; [apply (NoDup_fst_map_to_list d)|].
  apply fmap_sublist, sublist_filter.
Qed.

Lemma elem_of_keys d (x : string) : x ∈ keys d ↔ is_Some (d !! x).
Proof.
  unfold keys. rewrite list_elem_of_fmap. split.
  - intros ([k v] & -> & Hin). apply elem_of_map_to_list in Hin. by exists v.
  - intros [v Hv]. exists (x, v). split; [done|].
    by apply elem_of_map_to_list.
Qed.

Lemma keys_NoDup d : NoDup (keys d).
Proof. apply NoDup_fst_map_to_list. Qed.

(** The identifiers of distinct labels, one label after the other, are
    identifiers of the dictionary without repetition. *)
Lemma label_ids_in_keys d (labels : list Label) :
  NoDup labels → mjoin (ids_with_label d <$> labels) ⊆+ keys d.
Proof.
  intros Hnd. apply NoDup_submseteq.
  - induction Hnd as [|label labels Hnotin Hnd IH]; [constructor|].
    cbn [fmap list_fmap mjoin list_join]. apply NoDup_app. split_and!.
    + apply ids_with_label_NoDup.
    + intros x Hx%ids_with_label_spec
        (ids & Hin & (l' & -> & Hl')%list_elem_of_fmap)%list_elem_of_join.
      apply ids_with_label_spec in Hin. congruence.
    + done.
  - intros x (ids & Hin & (l' & -> & Hl')%list_elem_of_fmap)%list_elem_of_join.
    apply ids_with_label_spec in Hin. apply elem_of_keys. by eexists.
Qed.



Lemma count_label_app d label (ids1 ids2 : list string) :
  count_label d label (ids1 ++ ids2)
  = (count_label d label ids1 + count_label d label ids2)%nat.
Proof. unfold count_label. by rewrite filter_app, length_app. Qed.


(** *** The stable sort by frequency *)

Lemma insert_by_perm {A} (key : A → Z) (x : A) (l : list A) :
  insert_by key x l ≡ₚ x :: l.
Proof.
  induction l as [|y l IH]; [done|]. cbn [insert_by].
  case_decide; [done|]. rewrite IH. apply Permutation_swap.
Qed.

Lemma sorted_by_perm {A} (key : A → Z) (l : list A) : sorted_by key l ≡ₚ l.
Proof.
  induction l as [|x l IH]; [done|]. cbn [sorted_by foldr].
  rewrite insert_by_perm. by constructor.
Qed.



Lemma sorted_labels_NoDup fd : NoDup fd.*1 → NoDup (sorted_labels fd).
Proof. unfold sorted_labels. by rewrite sorted_by_perm. Qed.

(** *** Draws under a shuffle that permutes *)

(** [prng.shuffle] returns a permutation of the array. *)
Hypothesis shuffle_perm :
  ∀ (g : prng) (a : list string), (shuffle g a).1 ≡ₚ a.

Lemma shuffled_label_ids_perm g d label :
  (shuffled_label_ids g d label).1 ≡ₚ ids_with_label d label.
Proof.
  unfold shuffled_label_ids, sort_ids. rewrite shuffle_perm.
  apply merge_sort_Permutation.
Qed.

Lemma slice_part_of d (m : nat) label (ids : list string) :
  ids ≡ₚ ids_with_label d label →
  part_of d m label (slice_to (Z.of_nat m) ids).
Proof.
  intros Hperm. split.
  - rewrite <-Hperm. apply sublist_submseteq, slice_to_sublist.
  - rewrite length_slice_to, slice_len_of_nat. unfold available.
    by rewrite Hperm.
Qed.

Lemma even_loop_set d fd size (labels : list Label) :
  ∀ g (acc : list string) (m : nat), m ≠ 0%nat →
    ∃ parts g',
      even_loop d fd size labels g (Some (Z.of_nat m)) acc
      = EvenDrawn (acc ++ mjoin parts) g' ∧
      Forall2 (part_of d m) labels parts.
Proof.
  induction labels as [|label labels IH]; intros g acc m Hm.
  - exists [], g. cbn. by rewrite app_nil_r.
  - cbn [even_loop].
    pose proof (shuffled_label_ids_perm g d label) as Hperm.
    destruct (shuffled_label_ids g d label) as [ids g1]. cbn [fst] in Hperm.
    cbn [falsy from_option id]. rewrite bool_decide_eq_false_2 by lia.
    destruct (IH g1 (acc ++ slice_to (Z.of_nat m) ids) m Hm)
      as (parts & g' & -> & Hparts).
    exists (slice_to (Z.of_nat m) ids :: parts), g'.
    cbn [mjoin list_join]. rewrite <-app_assoc. split; [done|].
    constructor; [|done]. by apply slice_part_of.
Qed.

Lemma even_loop_start d fd size first (rest : list Label) g :
  let n := Qc_ceil (size / Z2Qc (Z.of_nat (length fd)))%Qc in
  let m := slice_len n (available d first) in
  if decide (m = 0%nat)
  then even_loop d fd size (first :: rest) g None [] = EvenStarved first
  else ∃ parts g',
         even_loop d fd size (first :: rest) g None []
         = EvenDrawn (mjoin parts) g' ∧
         Forall2 (part_of d m) (first :: rest) parts.
Proof.
  intros n m. cbn [even_loop].
  pose proof (shuffled_label_ids_perm g d first) as Hperm.
  destruct (shuffled_label_ids g d first) as [ids g1]. cbn [fst] in Hperm.
  cbn [falsy]. fold n. rewrite length_slice_to.
  assert (Hlen : slice_len n (length ids) = m).
  { unfold m, available. by rewrite Hperm. }
  rewrite Hlen. case_decide as Hm.
  - rewrite decide_True by lia. done.
  - rewrite decide_False by lia.
    destruct (even_loop_set d fd size rest g1
                ([] ++ slice_to (Z.of_nat m) ids) m Hm)
      as (parts & g' & -> & Hparts).
    exists (slice_to (Z.of_nat m) ids :: parts), g'. split; [done|].
    constructor; [|done]. by apply slice_part_of.
Qed.

Lemma parts_in_keys d (m : nat) (labels : list Label)
    (parts : list (list string)) :
  NoDup labels → Forall2 (part_of d m) labels parts →
  mjoin parts ⊆+ keys d.
Proof.
  intros Hnd Hparts. etrans; [|by apply label_ids_in_keys].
  clear Hnd. induction Hparts as [|label part labels parts [Hsub _] _ IH].
  - done.
  - cbn [fmap list_fmap mjoin list_join]. by apply submseteq_app.
Qed.


Lemma shuffle_sorted_perm g (ids : list string) :
  (shuffle g (sort_ids ids)).1 ≡ₚ ids.
Proof.
  rewrite shuffle_perm. unfold sort_ids. apply merge_sort_Permutation.
Qed.

Lemma shuffle_and_cap_sub g (ids : list string) size :
  shuffle_and_cap g ids size ⊆+ ids.
Proof.
  unfold shuffle_and_cap, slice_to_float.
  pose proof (shuffle_sorted_perm g ids) as Hperm.
  case_decide; [|by rewrite Hperm].
  rewrite <-Hperm at 2. apply sublist_submseteq, slice_to_sublist.
Qed.


(** *** The shrink factor *)

Lemma scan_step_factor d fd size (st : scan_state) label :
  sc_factor (scan_step d fd size st label)
  = factor_step d fd size (sc_factor st) label.
Proof.
  unfold scan_step, factor_step.
  pose proof (shuffled_label_ids_perm (sc_prng st) d label) as Hperm.
  destruct (shuffled_label_ids (sc_prng st) d label) as [ids g].
  cbn [fst sc_factor] in *. rewrite length_slice_to.
  unfold available. by rewrite (Permutation_length Hperm).
Qed.

(** The [factor] found by the first stratified loop does not depend on
    the shuffle. *)
Lemma stratified_scan_factor g d fd size :
  sc_factor (stratified_scan g d fd size) = shrink_factor d fd size.
Proof.
  unfold stratified_scan, shrink_factor.
  change 1%Qc with (sc_factor (ScanState g 1%Qc [])) at 2.
  generalize (ScanState g 1%Qc []).
  induction (sorted_labels fd) as [|label labels IH]; intros st; [done|].
  cbn [foldl]. by rewrite IH, scan_step_factor.
Qed.

(** *** The size reduction of a stratified test set *)

(** C1 (what the code does).  In stratified mode, when the shrink factor
    is below [1.0], [_make_test_set] raises exactly when the reduction
    [1 - factor] is {e below} 50%; with a reduction of 50% or more it
    goes on and sets the test size to [factor] times the requested
    size.  The comparison is the reverse of the one the comment above
    it and its error message describe. *)
Theorem make_test_set_shrink_check (self : self_t Label)
    (d : gmap string Label) (fd : FreqDist Label) :
  distributional_info (distributional_info_kwargs self)
                      (elements (test_games self)) = Ok (d, fd) →
  d ≠ ∅ → sampling self = "stratified" →
  let factor := shrink_factor d fd (test_size self) in
  (factor < 1)%Qc →
  ((1 - factor < frac 1 2)%Qc → _make_test_set self = Raise ValueError) ∧
  ((frac 1 2 ≤ 1 - factor)%Qc →
   ∃ self' test_set, _make_test_set self = Ok (self', Some test_set) ∧
                     test_size self' = (factor * test_size self)%Qc).
Proof.
  intros Hdist Hd Hs factor Hf. unfold _make_test_set.
  rewrite Hdist. run_bind. cbn [fst snd].
  rewrite (decide_False (P := d = ∅)) by done.
  assert (Hs' : sampling (if _games_test_games_equal self
            then set_labels_fdist (Some fd)
                   (set_id_strings_labels (Some d) self)
            else self) = "stratified"
          ∧ test_size (if _games_test_games_equal self
            then set_labels_fdist (Some fd)
                   (set_id_strings_labels (Some d) self)
            else self) = test_size self).
  { by destruct (_games_test_games_equal self). }
  destruct Hs' as [-> ->]. rewrite decide_True by done.
  rewrite stratified_scan_factor. fold factor.
  unfold test_set_resize. rewrite decide_True by done.
  split; intros Hcmp.
  - by rewrite decide_True by done.
  - rewrite decide_False by (by apply Qcle_not_lt). run_bind.
    by eexists _, _.
Qed.

(** *** The size reduction of a stratified fold *)


(** *** Deleting the drawn identifiers *)

Lemma del_all_lookup (ids : list string) :
  ∀ d d', del_all ids d = Ok d' →
    ∀ x, d' !! x = if decide (x ∈ ids) then None else d !! x.
Proof.
  induction ids as [|i ids IH]; intros d d' Hdel x.
  - injection Hdel as <-. by rewrite decide_False by apply not_elem_of_nil.
  - cbn [del_all] in Hdel. destruct (d !! i) as [v|] eqn:Hi; [|done].
    rewrite (IH _ _ Hdel x).
    destruct (decide (x = i)) as [->|Hne].
    + rewrite (decide_True (P := i ∈ i :: ids)) by left.
      case_decide; [done|]. apply lookup_delete_eq.
    + rewrite lookup_delete_ne by done.
      destruct (decide (x ∈ ids)).
      * by rewrite (decide_True (P := x ∈ i :: ids)) by (by right).
      * rewrite (decide_False (P := x ∈ i :: ids)); [done|].
        by intros [?|?]%elem_of_cons.
Qed.


Lemma discard_all_lookup (ids : list string) :
  ∀ d x, discard_all ids d !! x
         = if decide (x ∈ ids) then None else d !! x.
Proof.
  induction ids as [|i ids IH]; intros d x.
  - cbn. by rewrite decide_False by apply not_elem_of_nil.
  - unfold discard_all in IH |- *. cbn [foldl].
    assert (Hstep : ∀ y, (match d !! i with
                          | Some _ => delete i d
                          | None => d
                          end) !! y
                         = if decide (y = i) then None else d !! y).
    { intros y. destruct (d !! i) eqn:Hi; case_decide; subst;
        rewrite ?lookup_delete_eq, ?lookup_delete_ne by done; done. }
    rewrite IH, Hstep.
    destruct (decide (x = i)) as [->|Hne].
    + rewrite (decide_True (P := i ∈ i :: ids)) by left. by case_decide.
    + destruct (decide (x ∈ ids)).
      * by rewrite (decide_True (P := x ∈ i :: ids)) by (by right).
      * rewrite (decide_False (P := x ∈ i :: ids)); [done|].
        by intros [?|?]%elem_of_cons.
Qed.

(** *** The stratified loops *)

(** What the scan stores for a label: a permutation of its
    identifiers. *)
Lemma scan_labels_ids d fd size (labels : list Label) :
  ∀ st, ∃ new,
    sc_labels_ids (foldl (scan_step d fd size) st labels)
    = sc_labels_ids st ++ new ∧
    Forall2 (λ label li, li.2 ≡ₚ ids_with_label d label) labels new.
Proof.
  induction labels as [|label labels IH]; intros st.
  - exists []. cbn. by rewrite app_nil_r.
  - cbn [foldl]. destruct (IH (scan_step d fd size st label))
      as (new & -> & Hnew).
    unfold scan_step.
    pose proof (shuffled_label_ids_perm (sc_prng st) d label) as Hperm.
    destruct (shuffled_label_ids (sc_prng st) d label) as [ids g1].
    cbn [fst sc_labels_ids] in *.
    exists ((label, ids) :: new). rewrite <-app_assoc. split; [done|].
    by constructor.
Qed.

Lemma stratified_take_sub fd size (labels_ids : list (Label * list string)) :
  stratified_take fd size labels_ids ⊆+ mjoin (labels_ids.*2).
Proof.
  unfold stratified_take.
  assert (Hgen : ∀ acc,
            foldl (λ acc li,
                     acc ++ slice_to (Qc_ceil (fd_freq fd li.1 * size)) li.2)
                  acc labels_ids
            ⊆+ acc ++ mjoin (labels_ids.*2)).
  { induction labels_ids as [|li lis IH]; intros acc.
    - cbn. by rewrite app_nil_r.
    - cbn [foldl fmap list_fmap]. etrans; [apply IH|].
      change (mjoin (li.2 :: lis.*2)) with (li.2 ++ mjoin (lis.*2)).
      rewrite <-!app_assoc. apply submseteq_skips_l, submseteq_skips_r.
      apply sublist_submseteq, slice_to_sublist. }
  apply (Hgen []).
Qed.

(** Whatever the size the second loop uses, it draws identifiers of
    the dictionary, none twice. *)
Lemma scan_take_in_keys g d fd size size' :
  NoDup fd.*1 →
  stratified_take fd size' (sc_labels_ids (stratified_scan g d fd size))
  ⊆+ keys d.
Proof.
  intros Hnd. etrans; [apply stratified_take_sub|].
  etrans; [|apply (label_ids_in_keys d (sorted_labels fd));
            by apply sorted_labels_NoDup].
  unfold stratified_scan.
  destruct (scan_labels_ids d fd size (sorted_labels fd)
              (ScanState g 1%Qc [])) as (new & -> & Hnew).
  cbn [sc_labels_ids app]. clear Hnd.
  induction Hnew as [|label li labels new Hperm _ IH]; [done|].
  cbn [fmap list_fmap].
  change (mjoin (li.2 :: new.*2)) with (li.2 ++ mjoin (new.*2)).
  change (mjoin (ids_with_label d label :: (ids_with_label d <$> labels)))
    with (ids_with_label d label ++ mjoin (ids_with_label d <$> labels)).
  apply submseteq_app; [by rewrite Hperm|done].
Qed.

(** *** What a fold is made of *)

Lemma submseteq_NoDup' {A} (l k : list A) : l ⊆+ k → NoDup k → NoDup l.
Proof.
  intros [k' Hk]%submseteq_Permutation Hnd. rewrite Hk in Hnd.
  by apply NoDup_app in Hnd as [? _].
Qed.

Lemma even_loop_drawn_in_keys d fd size (labels : list Label) g ids g' :
  NoDup labels →
  even_loop d fd size labels g None [] = EvenDrawn ids g' →
  ids ⊆+ keys d.
Proof.
  intros Hnd Hloop. destruct labels as [|first rest].
  - injection Hloop as <- <-. apply submseteq_nil_l.
  - pose proof (even_loop_start d fd size first rest g) as Hstart.
    cbn zeta in Hstart. case_decide; [congruence|].
    destruct Hstart as (parts & g1 & Heq & Hparts).
    rewrite Heq in Hloop. injection Hloop as <- <-.
    by eapply parts_in_keys.
Qed.

Lemma draw_fold_in_keys sampling fd d size c F ids g s :
  NoDup fd.*1 →
  draw_fold sampling fd d size c F = Ok (FoldDrawn ids g s) →
  ids ⊆+ keys d.
Proof.
  intros Hnd. unfold draw_fold. case_decide.
  - intros ([s'|] & _ & Hdrawn)%bind_Ok; [|done].
    injection Hdrawn as <- <- <-.
    by apply scan_take_in_keys.
  - destruct (even_loop _ _ _ _ _ _ _) as [ids' g1|label] eqn:Hloop.
    + intros [= <- <- <-].
      eapply even_loop_drawn_in_keys; [|done].
      by apply sorted_labels_NoDup.
    + by case_decide.
Qed.

(** A fold is made of distinct identifiers of the dictionary, and
    these are exactly the ones that leave the dictionary. *)
Lemma training_fold_spec sampling fd d size c F d' fold_set :
  NoDup fd.*1 →
  training_fold sampling fd d size c F = Ok (d', fold_set) →
  fold_set ⊆+ keys d ∧
  ∀ x, d' !! x = if decide (x ∈ fold_set) then None else d !! x.
Proof.
  intros Hnd. unfold training_fold.
  intros ([ids g s|] & Hdraw & Hrest)%bind_Ok.
  - apply bind_Ok in Hrest as (d1 & Hdel & [= <- <-]).
    split; [|by apply del_all_lookup].
    etrans; [apply shuffle_and_cap_sub|]. by eapply draw_fold_in_keys.
  - injection Hrest as <- <-. split; [apply submseteq_nil_l|].
    intros x. by rewrite decide_False by apply not_elem_of_nil.
Qed.

(** *** Even sampling *)



(** *** What [distributional_info] returns *)

Lemma fd_incr_keys label fd :
  (fd_incr label fd).*1
  = if decide (label ∈ fd.*1) then fd.*1 else fd.*1 ++ [label].
Proof.
  induction fd as [|[l c] fd IH]; [done|]. cbn [fd_incr].
  destruct (decide (l = label)) as [->|Hne]; cbn [fmap list_fmap fst].
  - by rewrite decide_True by left.
  - rewrite IH. destruct (decide (label ∈ fd.*1)) as [Hin|Hnotin].
    + by rewrite decide_True by (by right).
    + rewrite decide_False; [done|].
      intros [?|?]%elem_of_cons; [congruence|done].
Qed.

Lemma FreqDist_of_NoDup (samples : list Label) :
  NoDup (FreqDist_of samples).*1.
Proof.
  unfold FreqDist_of.
  assert (Hgen : ∀ fd : FreqDist Label, NoDup fd.*1 →
            NoDup (foldl (λ fd label, fd_incr label fd) fd samples).*1).
  { induction samples as [|label samples IH]; intros fd Hfd; [done|].
    cbn [foldl]. apply IH. rewrite fd_incr_keys. case_decide; [done|].
    apply NoDup_app. split_and!; [done| |apply NoDup_singleton].
    by intros x Hx ->%list_elem_of_singleton. }
  apply Hgen. constructor.
Qed.

Lemma dict_of_samples_keys (samples : list (string * Label)) (x : string) :
  x ∈ keys (dict_of_samples samples) → x ∈ samples.*1.
Proof.
  unfold dict_of_samples. rewrite elem_of_keys.
  assert (Hgen : ∀ d : gmap string Label,
            is_Some (foldl (λ d s, <[s.1:=s.2]> d) d samples !! x) →
            is_Some (d !! x) ∨ x ∈ samples.*1).
  { induction samples as [|[i l] samples IH]; intros d Hx; [by left|].
    cbn [foldl] in Hx. apply IH in Hx as [Hx|Hx].
    - cbn [fst snd] in Hx. destruct (decide (i = x)) as [->|Hne].
      + right. left.
      + left. by rewrite lookup_insert_ne in Hx.
    - right. by right. }
  intros [Hx|Hx]%Hgen; [|done].
  rewrite lookup_empty in Hx. by destruct Hx.
Qed.

Lemma distributional_info_spec kw games d fd :
  distributional_info kw games = Ok (d, fd) →
  NoDup fd.*1 ∧
  ∃ samples, find_samples kw games = Ok samples ∧
             ∀ x, x ∈ keys d → x ∈ samples.*1.
Proof.
  unfold distributional_info. intros (samples & Hfind & Hrest)%bind_Ok.
  destruct samples as [|s samples]; [done|]. injection Hrest as <- <-.
  split; [apply FreqDist_of_NoDup|].
  exists (s :: samples). split; [done|]. apply dict_of_samples_keys.
Qed.

(** *** The test set *)

Lemma stratified_take_zero fd (labels_ids : list (Label * list string)) :
  stratified_take fd 0%Qc labels_ids = [].
Proof.
  unfold stratified_take.
  induction labels_ids as [|li lis IH]; [done|]. cbn [foldl].
  rewrite Qcmult_0_r. done.
Qed.

Lemma make_test_set_spec self self' T :
  _make_test_set self = Ok (self', T) →
  ∃ d fd size',
    distributional_info (distributional_info_kwargs self)
                        (elements (test_games self)) = Ok (d, fd) ∧
    default [] T ⊆+ keys d ∧
    (test_size self ≠ 0%Qc → size' = 0%Qc → default [] T = []) ∧
    self' = set_test_size size'
              (if _games_test_games_equal self
               then set_labels_fdist (Some fd)
                      (set_id_strings_labels (Some d) self)
               else self).
Proof.
  unfold _make_test_set. intros ([d fd] & Hdist & Hrest)%bind_Ok.
  exists d, fd.
  pose proof (distributional_info_spec _ _ _ _ Hdist) as [Hnd _].
  cbn [fst snd] in Hrest.
  set (self1 := if _games_test_games_equal self
                then set_labels_fdist (Some fd)
                       (set_id_strings_labels (Some d) self)
                else self) in *.
  assert (Hsize1 : test_size self1 = test_size self)
    by (subst self1; by destruct (_games_test_games_equal self)).
  assert (Hid : ∀ s : self_t Label, set_test_size (test_size s) s = s)
    by (by intros []).
  case_decide.
  { injection Hrest as <- <-. exists (test_size self1).
    split_and!; [done|apply submseteq_nil_l|done|by rewrite Hid]. }
  case_decide.
  - apply bind_Ok in Hrest as (size & Hsize & [= <- <-]).
    exists size. cbn [default from_option id]. split_and!; [done| | |done].
    + etrans; [apply shuffle_and_cap_sub|]. by apply scan_take_in_keys.
    + intros _ ->. rewrite stratified_take_zero.
      apply submseteq_nil_r, shuffle_and_cap_sub.
  - destruct (even_loop _ _ _ _ _ _ _) as [ids g|] eqn:Hloop; [|done].
    injection Hrest as <- <-. exists (test_size self1).
    cbn [default from_option id].
    split_and!; [done| | |by rewrite Hid].
    + etrans; [apply shuffle_and_cap_sub|].
      eapply even_loop_drawn_in_keys; [|done].
      by apply sorted_labels_NoDup.
    + rewrite Hsize1. by intros Hne Heq.
Qed.

(** *** The folds of a dataset *)

Lemma drawn_from_app d d1 d' (new1 new2 : list (list string)) :
  drawn_from d d1 new1 → drawn_from d1 d' new2 →
  drawn_from d d' (new1 ++ new2).
Proof.
  intros [Hsub1 Hd1] [Hsub Hd']. unfold drawn_from.
  rewrite join_app. split.
  - apply NoDup_submseteq.
    + apply NoDup_app. split_and!.
      * eapply submseteq_NoDup'; [done|apply keys_NoDup].
      * intros x Hx Hx'. eapply elem_of_submseteq in Hx'; [|done].
        apply elem_of_keys in Hx' as [v Hv].
        rewrite Hd1, decide_True in Hv by done. done.
      * eapply submseteq_NoDup'; [done|apply keys_NoDup].
    + intros x [Hx|Hx]%elem_of_app.
      * by eapply elem_of_submseteq.
      * eapply elem_of_submseteq in Hx; [|done].
        apply elem_of_keys in Hx as [v Hv]. apply elem_of_keys.
        rewrite Hd1 in Hv. case_decide; [done|]. by exists v.
  - intros x. rewrite Hd', Hd1.
    destruct (decide (x ∈ mjoin new2)), (decide (x ∈ mjoin new1)).
    + by rewrite decide_True by (apply elem_of_app; by left).
    + by rewrite decide_True by (apply elem_of_app; by right).
    + by rewrite decide_True by (apply elem_of_app; by left).
    + rewrite decide_False; [done|]. by intros [?|?]%elem_of_app.
Qed.

Lemma drawn_from_cons d d1 d' fold_set (new : list (list string)) :
  drawn_from d d1 [fold_set] → drawn_from d1 d' new →
  drawn_from d d' (fold_set :: new).
Proof. apply (drawn_from_app d d1 d' [fold_set] new). Qed.

Lemma drawn_from_nil d : drawn_from d d [].
Proof.
  split; [apply submseteq_nil_l|].
  intros x. by rewrite decide_False by apply not_elem_of_nil.
Qed.

Lemma generate_training_fold_spec self size c F self' fold_set d fd :
  id_strings_labels self = Some d → labels_fdist self = Some fd →
  NoDup fd.*1 →
  _generate_training_fold self size c F = Ok (self', fold_set) →
  ∃ d', self' = set_id_strings_labels (Some d') self ∧
        drawn_from d d' [fold_set].
Proof.
  intros Hd Hfd Hnd. unfold _generate_training_fold. rewrite Hd, Hfd.
  run_bind. cbn [the]. run_bind.
  intros ([d' f] & Hfold & [= <- <-])%bind_Ok.
  exists d'. split; [done|].
  apply training_fold_spec in Hfold as [Hsub Hlook]; [|done].
  split; cbn [mjoin list_join]; by rewrite app_nil_r.
Qed.

Lemma fold_loop_spec (n : nat) :
  ∀ self size F c ts self' c' ts' d fd,
    id_strings_labels self = Some d → labels_fdist self = Some fd →
    NoDup fd.*1 →
    fold_loop n self size F c ts = Ok (self', c', ts') →
    ∃ d' new, ts' = ts ++ new ∧
              self' = set_id_strings_labels (Some d') self ∧
              drawn_from d d' new.
Proof.
  induction n as [|n IH];
    intros self size F c ts self' c' ts' d fd Hd Hfd Hnd Hloop.
  - injection Hloop as <- <- <-. exists d, []. rewrite app_nil_r.
    split_and!; [done|by destruct self; cbn in *; subst|].
    split; [apply submseteq_nil_l|].
    intros x. by rewrite decide_False by apply not_elem_of_nil.
  - cbn [fold_loop] in Hloop.
    apply bind_Ok in Hloop as ([self1 fold_set] & Hfold & Hrest).
    eapply generate_training_fold_spec in Hfold
      as (d1 & -> & Hdrawn); [|done..].
    cbn [fst snd] in Hrest. destruct fold_set as [|x fold_set].
    + injection Hrest as <- <- <-. exists d1, []. rewrite app_nil_r.
      split_and!; [done|done|].
      destruct Hdrawn as [_ Hlook]. split; [apply submseteq_nil_l|].
      intros y. rewrite Hlook. cbn [mjoin list_join app].
      by rewrite !decide_False by apply not_elem_of_nil.
    + eapply IH in Hrest as (d' & new & -> & -> & Hnew);
        [|by destruct self|by destruct self; cbn in *|done].
      exists d', ((x :: fold_set) :: new). rewrite <-app_assoc.
      split_and!; [done|by destruct self|].
      by eapply drawn_from_cons.
Qed.

Lemma generate_dataset_spec self grid_search self' ts d fd :
  id_strings_labels self = Some d → labels_fdist self = Some fd →
  NoDup fd.*1 →
  _generate_dataset self grid_search = Ok (self', ts) →
  ∃ d', self' = set_id_strings_labels (Some d') self ∧
        drawn_from d d' ts.
Proof.
  intros Hd Hfd Hnd. unfold _generate_dataset.
  intros ([[self1 c] ts1] & Hloop & Hcheck)%bind_Ok.
  case_decide; [|done]. injection Hcheck as <- <-.
  eapply fold_loop_spec in Hloop as (d' & new & Hts & -> & Hnew);
    [|done..].
  cbn [app] in Hts. subst new. by exists d'.
Qed.

(** *** Disjoint partitions *)

(** Every document of the corpus belongs to one game, and a query for
    a list of games returns documents of these games only. *)
Variable game_of : string → string.
Hypothesis find_samples_game :
  ∀ kw games samples, find_samples kw games = Ok samples →
    ∀ s, s ∈ samples → game_of s.1 ∈ games.

Lemma keys_game kw games d fd (x : string) :
  distributional_info kw games = Ok (d, fd) →
  x ∈ keys d → game_of x ∈ games.
Proof.
  intros (_ & samples & Hfind & Hkeys)%distributional_info_spec
    ([i l] & -> & Hs)%Hkeys%list_elem_of_fmap.
  by apply (find_samples_game _ _ _ Hfind (i, l)).
Qed.

Lemma games_in_common_self self :
  games self ≠ ∅ → test_games self = games self →
  games_in_common self = true.
Proof.
  intros Hne Heq. unfold games_in_common. rewrite Heq.
  apply set_choose_L in Hne as [game Hgame].
  apply existsb_exists. exists game. split.
  - by apply list_elem_of_In, elem_of_elements.
  - by apply bool_decide_eq_true.
Qed.

Lemma games_in_common_game self (game : string) :
  game ∈ elements (test_games self) → game ∈ elements (games self) →
  games_in_common self = true.
Proof.
  intros Ht Hg. apply existsb_exists. exists game. split.
  - by apply list_elem_of_In.
  - apply bool_decide_eq_true. by apply elem_of_elements.
Qed.

Lemma pool_ready_after_removal a s0 s1 s2 s3 :
  validate a = Ok s0 → build_test_set s0 = Ok s1 →
  load_distribution s1 = Ok s2 → remove_test_ids s2 = Ok s3 →
  pool_ready s3.
Proof.
  intros (_ & Htr & _ & _ & Heq & Hgames & Hts & Hd0 & Hfd0 & Hgs)
           %validate_fields H1 H2 H3.
  destruct s0 as [games0 test_games0 equal ? ? ? ? ? kw size0 ts0 d0 fd0
                    ? tr0 gs0 ?].
  cbn in Htr, Heq, Hgames, Hts, Hd0, Hfd0, Hgs. subst ts0 d0 fd0 tr0 gs0.
  unfold build_test_set in H1. cbn [test_size] in H1.
  destruct (decide (size0 ≠ 0%Qc)) as [Hsize|Hsize].
  - (* a test set is made *)
    apply bind_Ok in H1 as ([s' T] & Hmake & [= <-]).
    apply make_test_set_spec in Hmake
      as (dt & fdt & size1 & Hdist & HT & Hzero & ->).
    cbn [fst snd test_size distributional_info_kwargs test_games
           _games_test_games_equal] in *.
    pose proof (distributional_info_spec _ _ _ _ Hdist) as [Hndt _].
    assert (HndT : NoDup (default [] T))
      by (eapply submseteq_NoDup'; [done|apply keys_NoDup]).
    destruct equal.
    + (* identical games: the distribution of the test set is cached *)
      symmetry in Heq. apply bool_decide_eq_true in Heq.
      unfold load_distribution in H2. cbn in H2.
      destruct (negb _) eqn:Hcached.
      * apply bind_Ok in H2 as ([d fd] & Hdist' & [= <-]).
        pose proof (distributional_info_spec _ _ _ _ Hdist') as [Hnd _].
        unfold remove_test_ids in H3. cbn in H3.
        rewrite games_in_common_self in H3 by done.
        destruct (bool_decide (size1 ≠ 0%Qc)) eqn:Hsize1; cbn [andb] in H3.
        -- destruct T as [T|]; [|done]. cbn in H3. injection H3 as <-.
           exists (discard_all T d), fd. cbn.
           split_and!; [done..| |done|done].
           intros x Hx. by rewrite discard_all_lookup, decide_True.
        -- injection H3 as <-. apply bool_decide_eq_false in Hsize1.
           apply dec_stable in Hsize1. rewrite (Hzero Hsize Hsize1) in *.
           exists d, fd. cbn. rewrite (Hzero Hsize Hsize1).
           split_and!; [done..|constructor| |done|done].
           by intros x Hx%elem_of_nil.
      * injection H2 as <-.
        unfold remove_test_ids in H3. cbn in H3.
        rewrite games_in_common_self in H3 by done.
        destruct (bool_decide (size1 ≠ 0%Qc)) eqn:Hsize1; cbn [andb] in H3.
        -- destruct T as [T|]; [|done]. cbn in H3. injection H3 as <-.
           exists (discard_all T dt), fdt. cbn.
           split_and!; [done..| |done|done].
           intros x Hx. by rewrite discard_all_lookup, decide_True.
        -- injection H3 as <-. apply bool_decide_eq_false in Hsize1.
           apply dec_stable in Hsize1.
           exists dt, fdt. cbn. rewrite (Hzero Hsize Hsize1).
           split_and!; [done..|constructor| |done|done].
           by intros x Hx%elem_of_nil.
    + (* different games: the training distribution is queried *)
      unfold load_distribution in H2. cbn in H2.
      apply bind_Ok in H2 as ([d fd] & Hdist' & [= <-]).
      pose proof (distributional_info_spec _ _ _ _ Hdist') as [Hnd _].
      unfold remove_test_ids in H3. cbn [test_size set_test_set
        set_labels_fdist set_id_strings_labels set_test_size fst snd
        test_set id_strings_labels games test_games] in H3.
      destruct (bool_decide (size1 ≠ 0%Qc) && games_in_common _)
        eqn:Hremove.
      * destruct T as [T|]; [|done]. cbn in H3. injection H3 as <-.
        exists (discard_all T d), fd. cbn.
        split_and!; [done..| |done|done].
        intros x Hx. by rewrite discard_all_lookup, decide_True.
      * injection H3 as <-. exists d, fd. cbn.
        split_and!; [done..| |done|done].
        apply andb_false_iff in Hremove as [Hsize1|Hcommon].
        -- apply bool_decide_eq_false in Hsize1.
           apply dec_stable in Hsize1. rewrite (Hzero Hsize Hsize1).
           by intros x Hx%elem_of_nil.
        -- intros x Hx. destruct (d !! x) as [l|] eqn:Hdx; [|done].
           rewrite games_in_common_game with (game := game_of x)
             in Hcommon; [done|..]; cbn.
           ++ eapply keys_game; [exact Hdist|].
              by eapply elem_of_submseteq.
           ++ eapply keys_game; [exact Hdist'|].
              apply elem_of_keys. by eexists.
  - (* no test set *)
    injection H1 as <-. apply dec_stable in Hsize. subst size0.
    unfold load_distribution in H2. cbn in H2.
    apply bind_Ok in H2 as ([d fd] & Hdist' & [= <-]).
    pose proof (distributional_info_spec _ _ _ _ Hdist') as [Hnd _].
    unfold remove_test_ids in H3. cbn in H3. injection H3 as <-.
    exists d, fd. cbn. split_and!; [done..|constructor| |done|done].
    by intros x Hx%elem_of_nil.
Qed.

Lemma folds_drawn s3 s4 s5 s6 self d fd :
  id_strings_labels s3 = Some d → labels_fdist s3 = Some fd →
  NoDup fd.*1 → training_set s3 = None → grid_search_set s3 = None →
  index_labels s3 = Ok s4 → build_training_set s4 = Ok s5 →
  build_grid_search_set s5 = Ok s6 → count_datasets s6 = Ok self →
  ∃ d' tr gs,
    test_set self = test_set s3 ∧ id_strings_labels self = Some d' ∧
    training_set self = Some tr ∧
    default [] (grid_search_set self) = gs ∧
    drawn_from d d' (tr ++ gs).
Proof.
  intros Hd Hfd Hnd Htr Hgs H4 H5 H6 H7.
  destruct s3 as [? ? ? folds0 ? gsfolds0 ? ? ? ? T d3 fd3 ? tr3 gs3 ?].
  cbn in Hd, Hfd, Htr, Hgs. subst d3 fd3 tr3 gs3.
  unfold index_labels in H4. cbn in H4. injection H4 as <-.
  unfold build_training_set in H5. cbn [folds set_labels_id_strings] in H5.
  destruct (decide (folds0 ≠ 0)) as [Hfolds|Hfolds].
  - apply bind_Ok in H5 as ([s' tr] & Hgen & [= <-]).
    eapply generate_dataset_spec in Hgen as (d5 & -> & Htr); [|done..].
    cbn [fst snd] in *.
    unfold build_grid_search_set in H6. cbn [grid_search_folds
      set_training_set set_id_strings_labels set_labels_id_strings] in H6.
    destruct (decide (gsfolds0 ≠ 0)) as [Hgsf|Hgsf].
    + apply bind_Ok in H6 as ([s'' gs] & Hgen & [= <-]).
      eapply generate_dataset_spec in Hgen as (d6 & -> & Hgs); [|done..].
      cbn [fst snd] in *.
      unfold count_datasets in H7. cbn in H7. injection H7 as <-.
      exists d6, tr, gs. cbn. split_and!; [done..|].
      by eapply drawn_from_app.
    + injection H6 as <-.
      unfold count_datasets in H7. cbn in H7. injection H7 as <-.
      exists d5, tr, []. cbn. split_and!; [done..|].
      by rewrite app_nil_r.
  - injection H5 as <-.
    assert (Hnone : training_set s6 = None).
    { unfold build_grid_search_set in H6. case_decide.
      - apply bind_Ok in H6 as ([s'' gs] & Hgen & [= <-]).
        apply generate_dataset_self in Hgen. cbn [fst]. by rewrite Hgen.
      - by injection H6 as <-. }
    unfold count_datasets in H7. by rewrite Hnone in H7.
Qed.

(** C4.  When the constructor returns, the test set and all the folds
    of the training and grid search sets, put end to end, hold no
    identifier twice: the partitions are pairwise disjoint and none
    repeats an identifier.  No identifier of a partition is left in
    the pool: those of the test set are out of it before the first
    fold is drawn, those of a fold leave it at the end of its draw. *)
Theorem partitions_disjoint (a : init_args) (self : self_t Label) :
  __init__ a = Ok self →
  NoDup (mjoin (partitions self)) ∧
  ∃ d, id_strings_labels self = Some d ∧
       ∀ part x, part ∈ partitions self → x ∈ part → d !! x = None.
Proof.
  unfold __init__, _construct_layered_dataset.
  intros (s0 & Hv & (s1 & H1 & (s2 & H2 & (s3 & H3 & (s4 & H4 &
           (s5 & H5 & (s6 & H6 & H7)%bind_Ok)%bind_Ok)%bind_Ok)%bind_Ok)
           %bind_Ok)%bind_Ok)%bind_Ok.
  destruct (pool_ready_after_removal _ _ _ _ _ Hv H1 H2 H3)
    as (d & fd & Hd & Hfd & Hnd & HT & Hout & Htr & Hgs).
  destruct (folds_drawn _ _ _ _ _ _ _ Hd Hfd Hnd Htr Hgs H4 H5 H6 H7)
    as (d' & tr & gs & HTs & Hd' & Htr' & Hgs' & [Hsub Hlook]).
  unfold partitions. rewrite HTs, Htr', Hgs'. cbn [default from_option id].
  change (mjoin (?t :: ?l)) with (t ++ mjoin l). split.
  - apply NoDup_app. split_and!; [done| |].
    + intros x Hx%Hout Hx'. eapply elem_of_submseteq in Hx'; [|done].
      apply elem_of_keys in Hx' as [v Hv']. congruence.
    + eapply submseteq_NoDup'; [done|apply keys_NoDup].
  - exists d'. split; [done|]. intros part x Hpart Hx. rewrite Hlook.
    case_decide; [done|].
    apply elem_of_cons in Hpart as [->|Hpart]; [by apply Hout|].
    destruct H. apply list_elem_of_join. by exists part.
Qed.

End Facts.

(** *** The model on the small corpus *)

Import Corpus.

Lemma reverse_shuffle_perm (g : counter) (a : list string) :
  (reverse_shuffle g a).1 ≡ₚ a.
Proof. apply reverse_Permutation. Qed.

Lemma find_in_game (corpus : list doc) :
  Forall (λ d, game_of_id corpus (doc_id d) = doc_game d) corpus →
  ∀ kw games samples, find_in corpus kw games = Ok samples →
    ∀ s, s ∈ samples → game_of_id corpus s.1 ∈ games.
Proof.
  intros Hall kw games samples [= <-] s
    (d & -> & [Hgame Hd]%list_elem_of_filter)%list_elem_of_fmap.
  rewrite Forall_forall in Hall. cbn [fst]. by rewrite (Hall d Hd).
Qed.

Lemma zero_folds_never_constructs_witness :
  ∃ e, init corpus_two_games
         (args {["Dota_2"]} {["Arma_3"; "Dota_2"]} 0 4 1 2 4 "stratified")
       = Raise e.
Proof.
  set (a := args _ _ _ _ _ _ _ _).
  destruct (validate (Externals0 := externals corpus_two_games) a)
    as [self|e] eqn:Hv; [|by vm_compute in Hv].
  exact (proj2 (proj2 (proj2
           (zero_folds_never_constructs a self Hv eq_refl)))).
Defined.

Lemma validate_accepts_zero_test_size_witness :
  ∃ self : self_t string,
    validate (Externals0 := externals corpus_two_games)
      (args {["Dota_2"]} {["Arma_3"]} 2 4 1 2 0 "even") = Ok self ∧
    test_size self = Z2Qc 0.
Proof.
  edestruct (validate_accepts_zero_test_size
               (Externals0 := externals corpus_two_games)
               (args {["Dota_2"]} {["Arma_3"]} 2 4 1 2 0 "even"))
    as (self & Hv & _ & Hts & _).
  14: exact (ex_intro _ self (conj Hv Hts)).
  all: compute_done.
Defined.


Lemma make_test_set_shrink_check_witness :
  shrink_factor (dict_of corpus_40_40) (fdist_of corpus_40_40) (Z2Qc 100)
  = frac 4 5 ∧
  _make_test_set (Externals0 := externals corpus_40_40)
    (fresh_self {["Dota_2"]} {["Dota_2"]} 1 10 0 0 100 "stratified")
  = Raise ValueError.
Proof.
  split; [apply Qc_is_canon; by vm_compute|].
  refine (proj1 (make_test_set_shrink_check
                   (Externals0 := externals corpus_40_40)
                   reverse_shuffle_perm _
                   (dict_of corpus_40_40) (fdist_of corpus_40_40)
                   _ _ _ _) _).
  - exact eq_refl.
  - compute_done.
  - reflexivity.
  - compute_done.
  - compute_done.
Defined.



Lemma partitions_disjoint_witness :
  ∃ self,
    init corpus_two_games
      (args {["Dota_2"]} {["Arma_3"; "Dota_2"]} 2 4 1 2 4 "stratified")
    = Ok self ∧
    NoDup (mjoin (partitions self)).
Proof.
  set (a := args _ _ _ _ _ _ _ _).
  destruct (init corpus_two_games a) as [self|e] eqn:Hinit;
    [|by vm_compute in Hinit].
  exists self. split; [reflexivity|]. unfold init in Hinit.
  assert (Hgames : Forall (λ d, game_of_id corpus_two_games (doc_id d)
                                = doc_game d) corpus_two_games)
    by compute_done.
  exact (proj1 (partitions_disjoint
                  (Externals0 := externals corpus_two_games)
                  reverse_shuffle_perm (game_of_id corpus_two_games)
                  (find_in_game corpus_two_games Hgames) a self Hinit)).
Defined.

End ExperimentsFacts.

(* ================================================================= *)
(** * Further properties *)

(** From canonical rationals to plain ones, where [lra] works. *)
Ltac qc_to_q :=
  unfold Qcle, Qclt, Qcminus, Qcdiv, Qcplus, Qcmult, Qcopp, Qcinv, Z2Qc,
    Qc_of_Z, frac, Q2Qc in *;
  cbn [this] in *; rewrite ?Qred_correct in *.

(** ** Numbers *)

Module NumberFacts.


Lemma Z2Qc_le (a b : Z) : a ≤ b → (Z2Qc a ≤ Z2Qc b)%Qc.
Proof. intros H. by apply (proj1 (Z2Qc_inj_le a b)). Qed.
Lemma Z2Qc_le_inv (a b : Z) : (Z2Qc a ≤ Z2Qc b)%Qc → a ≤ b.
Proof. intros H. by apply (proj2 (Z2Qc_inj_le a b)). Qed.

Lemma Z2Qc_of_nat_nonneg (n : nat) : (0 ≤ Z2Qc (Z.of_nat n))%Qc.
Proof. apply DatasetsFacts.Z2Qc_nonneg. lia. Qed.

Lemma ratio_bounds (a n : Z) :
  0 ≤ a < n → (0 ≤ Z2Qc a / Z2Qc n)%Qc ∧ (Z2Qc a / Z2Qc n < 1)%Qc.
Proof.
  intros [Ha Hn]. qc_to_q. split.
  - apply Qle_shift_div_l; [rewrite <-(Zlt_Qlt 0); lia|].
    rewrite Qmult_0_l, <-(Zle_Qle 0). done.
  - apply Qlt_shift_div_r; [rewrite <-(Zlt_Qlt 0); lia|].
    rewrite Qmult_1_l, <-Zlt_Qlt. done.
Qed.

Lemma new_factor_ratio (a n : Z) :
  n ≠ 0 → (1 - Z2Qc (n - a) / Z2Qc n = Z2Qc a / Z2Qc n)%Qc.
Proof.
  intros Hn. unfold Z2Qc. rewrite Z2Qc_inj_sub. field.
  rewrite <-Z2Qc_inj_0. by intros ?%Z2Qc_inj.
Qed.




Lemma Qc_floor_le (x : Qc) : (Z2Qc (Qc_floor x) ≤ x)%Qc.
Proof. unfold Qc_floor. qc_to_q. apply Qfloor_le. Qed.


Lemma Qc_scale_le (f x : Qc) :
  (0 ≤ f)%Qc → (f ≤ 1)%Qc → (0 ≤ x)%Qc →
  (0 ≤ f * x)%Qc ∧ (f * x ≤ x)%Qc.
Proof.
  intros Hf0 Hf1 Hx. split; [by apply Qcmult_nonneg_nonneg|].
  pose proof (Qcmult_le_compat_r f 1 x Hf1 Hx) as H.
  by rewrite Qcmult_1_l in H.
Qed.






End NumberFacts.

(** ** The ranges of [get_bin_ranges] seen through [get_bin] *)

Module BinsFacts.
Import Datasets DatasetsFacts NumberFacts.

Lemma bin_size_nonneg (_min _max : Qc) (nbins : Z) :
  1 ≤ nbins → (_min ≤ _max)%Qc →
  (0 ≤ round1 ((_max - _min) / Z2Qc nbins))%Qc.
Proof.
  intros Hn Hle. apply round1_nonneg. unfold Qcdiv. apply Qcmult_nonneg_nonneg.
  - unfold Qcminus. rewrite <-(Qcplus_opp_r _min). by apply Qcplus_le_mono_r.
  - apply Qclt_le_weak, Qcinv_pos. apply Z2Qc_pos. lia.
Qed.

Lemma nth_range_lo_mono (_min w : Qc) (nbins b b' : Z) :
  (0 ≤ w)%Qc → b ≤ b' →
  ((nth_range _min w nbins b).1 ≤ (nth_range _min w nbins b').1)%Qc.
Proof.
  intros Hw Hb. unfold nth_range; cbn [fst].
  apply Qcplus_le_compat; [apply Qcle_refl|].
  apply Qcmult_le_compat_r; [|done]. apply Z2Qc_le. lia.
Qed.

Lemma nth_range_hi_next (_min w : Qc) (nbins b : Z) :
  b ≠ nbins →
  (nth_range _min w nbins b).2 = (nth_range _min w nbins (b + 1)).1.
Proof.
  intros Hb. unfold nth_range; cbn [fst snd]. rewrite decide_False by done.
  rewrite Z2Qc_succ. ring.
Qed.


Lemma nth_range_disjoint (_min w : Qc) (nbins b b' : Z) (val : Qc) :
  (0 ≤ w)%Qc → b < b' → b' ≤ nbins →
  in_range val (nth_range _min w nbins b) →
  ¬ in_range val (nth_range _min w nbins b').
Proof.
  intros Hw Hb Hn [_ Hhi] [Hlo _].
  rewrite nth_range_hi_next in Hhi by lia.
  pose proof (nth_range_lo_mono _min w nbins (b + 1) b' Hw ltac:(lia)) as Hm.
  apply (Qclt_not_le _ _ Hlo). by etrans.
Qed.

Lemma lookup_generated (_min w : Qc) (nbins : Z) (i : nat) (r : bin_range) :
  (nth_range _min w nbins <$> seqZ 1 nbins) !! i = Some r →
  r = nth_range _min w nbins (Z.of_nat i + 1) ∧ Z.of_nat i < nbins.
Proof.
  intros Hi. rewrite list_lookup_fmap in Hi.
  destruct (seqZ 1 nbins !! i) as [b|] eqn:Hb; [|done].
  apply lookup_seqZ in Hb as [-> ?]. injection Hi as <-.
  split; [f_equal; lia|done].
Qed.

(** The bin of a value among generated ranges: the one range that
    holds it, if any. *)
Lemma generated_bin (_min w : Qc) (nbins : Z) (val : Qc) :
  (0 ≤ w)%Qc →
  let rs := nth_range _min w nbins <$> seqZ 1 nbins in
  (get_bin rs val = -1 ∧ ∀ b, 1 ≤ b ≤ nbins →
                               ¬ in_range val (nth_range _min w nbins b))
  ∨ (1 ≤ get_bin rs val ≤ nbins ∧
     ∀ b, 1 ≤ b ≤ nbins →
          in_range val (nth_range _min w nbins b) ↔ get_bin rs val = b).
Proof.
  intros Hw rs. unfold get_bin.
  destruct (get_bin_from_spec rs val 0)
    as [(i & r & Hi & Hin & _ & Heq)|[Hnone Heq]].
  - right. apply lookup_generated in Hi as [-> Hi]. rewrite Heq.
    split; [lia|]. intros b Hb. split; [|intros <-; by rewrite Z.add_0_l].
    intros Hin'. destruct (Z.lt_trichotomy b (Z.of_nat i + 1)) as [?|[?|?]].
    + destruct (nth_range_disjoint _min w nbins b (Z.of_nat i + 1) val Hw
                  ltac:(lia) ltac:(lia) Hin' Hin).
    + lia.
    + destruct (nth_range_disjoint _min w nbins (Z.of_nat i + 1) b val Hw
                  ltac:(lia) ltac:(lia) Hin Hin').
  - left. split; [done|]. intros b Hb. apply Hnone.
    apply list_elem_of_fmap. exists b. split; [done|].
    apply elem_of_seqZ. lia.
Qed.












(** X4.  Over the ranges of [get_bin_ranges], [get_bin] is monotone: of
    two values that both have a bin, the larger one has the larger (or
    the same) bin number. *)
Theorem generated_bins_monotone (_min _max : Qc) (nbins : Z)
    (val val' : Qc) (rs : list bin_range) :
  (_min ≤ _max)%Qc →
  get_bin_ranges _min _max nbins = Ok rs →
  (val ≤ val')%Qc →
  get_bin rs val ≠ -1 → get_bin rs val' ≠ -1 →
  get_bin rs val ≤ get_bin rs val'.
Proof.
  intros Hle Hrs Hv Hb Hb'.
  destruct (decide (nbins = 0)) as [->|Hn0]; [done|].
  rewrite get_bin_ranges_closed in Hrs by done. injection Hrs as <-.
  destruct (decide (nbins < 1)) as [Hneg|Hpos].
  { rewrite seqZ_nil in Hb by lia. done. }
  pose proof (bin_size_nonneg _min _max nbins ltac:(lia) Hle) as Hw.
  set (w := round1 _) in *.
  destruct (generated_bin _min w nbins val Hw) as [[? _]|[Hr Hiff]]; [done|].
  destruct (generated_bin _min w nbins val' Hw) as [[? _]|[Hr' Hiff']]; [done|].
  set (b := get_bin _ val) in *. set (b' := get_bin _ val') in *.
  destruct (decide (b ≤ b')) as [|Hgt]; [done|]. exfalso.
  destruct (proj2 (Hiff b Hr) eq_refl) as [Hlo _].
  destruct (proj2 (Hiff' b' Hr') eq_refl) as [_ Hhi'].
  rewrite nth_range_hi_next in Hhi' by lia.
  pose proof (nth_range_lo_mono _min w nbins (b' + 1) b Hw ltac:(lia)) as Hm.
  apply (Qclt_not_le _ _ Hlo). etrans; [exact Hv|]. by etrans.
Qed.

Lemma generated_bins_monotone_witness :
  get_bin ranges_0_10_5 (Z2Qc 2) ≤ get_bin ranges_0_10_5 (Z2Qc 7).
Proof.
  apply (generated_bins_monotone (Z2Qc 0) (Z2Qc 10) 5);
    [by vm_compute|apply get_bin_ranges_0_10_5|by vm_compute
    |by vm_compute|by vm_compute].
Defined.
End BinsFacts.

(** ** The partitions of [ExperimentalData] *)

Module PartitionFacts.
Import Experiments ExperimentsFacts NumberFacts.

Section More.
Context {Label : Type} `{!EqDecision Label} `{!Externals Label}.

Implicit Types (self : self_t Label) (d : gmap string Label)
  (fd : FreqDist Label).

(** *** The dictionary and the distribution of a list of samples *)

Lemma dict_of_samples_snoc (samples : list (string * Label)) s :
  dict_of_samples (samples ++ [s]) = <[s.1 := s.2]> (dict_of_samples samples).
Proof. unfold dict_of_samples. by rewrite foldl_app. Qed.

Lemma dict_of_samples_lookup (samples : list (string * Label)) x l :
  dict_of_samples samples !! x = Some l → (x, l) ∈ samples.
Proof.
  induction samples as [|[y k] samples IH] using rev_ind; [done|].
  rewrite dict_of_samples_snoc. cbn [fst snd].
  destruct (decide (y = x)) as [->|Hne].
  - rewrite lookup_insert_eq. intros [= ->]. set_solver.
  - rewrite lookup_insert_ne by done. set_solver.
Qed.

Lemma dict_of_samples_lookup_NoDup (samples : list (string * Label)) x l :
  NoDup samples.*1 → (x, l) ∈ samples →
  dict_of_samples samples !! x = Some l.
Proof.
  induction samples as [|[y k] samples IH] using rev_ind; [set_solver|].
  rewrite fmap_app, dict_of_samples_snoc. cbn [fst snd fmap list_fmap].
  intros [Hnd [Hy _]]%NoDup_app [Hin|Hin]%elem_of_app.
  - rewrite lookup_insert_ne; [by apply IH|]. intros ->.
    apply (Hy x); [|set_solver]. apply list_elem_of_fmap. by exists (x, l).
  - apply list_elem_of_singleton in Hin as [= -> ->].
    by rewrite lookup_insert_eq.
Qed.

Lemma dict_of_samples_nonempty (samples : list (string * Label)) :
  samples ≠ [] → dict_of_samples samples ≠ ∅.
Proof.
  destruct samples as [|s samples] using rev_ind; [done|]. intros _.
  rewrite dict_of_samples_snoc. apply insert_non_empty.
Qed.

Lemma fd_get_incr fd (label l : Label) :
  fd_get (fd_incr label fd) l
  = fd_get fd l + (if decide (label = l) then 1 else 0).
Proof.
  induction fd as [|[k c] fd IH]; cbn [fd_incr fd_get].
  - repeat case_decide; congruence || lia.
  - destruct (decide (k = label)) as [->|Hk]; cbn [fd_get].
    + repeat case_decide; congruence || lia.
    + destruct (decide (k = l)) as [->|Hl]; [|done].
      rewrite decide_False by done. lia.
Qed.

Lemma fd_N_incr fd (label : Label) : fd_N (fd_incr label fd) = fd_N fd + 1.
Proof.
  unfold fd_N. induction fd as [|[k c] fd IH]; cbn [fd_incr foldr snd]; [done|].
  case_decide; cbn [foldr snd]; lia.
Qed.

Lemma fd_incr_nonempty fd (label : Label) : fd_incr label fd ≠ [].
Proof. destruct fd as [|[k c] fd]; cbn [fd_incr]; [done|by case_decide]. Qed.

Lemma FreqDist_of_snoc (labels : list Label) label :
  FreqDist_of (labels ++ [label]) = fd_incr label (FreqDist_of labels).
Proof. unfold FreqDist_of. by rewrite foldl_app. Qed.

Lemma fd_get_FreqDist_of (labels : list Label) (l : Label) :
  fd_get (FreqDist_of labels) l = Z.of_nat (length (filter (λ k, k = l) labels)).
Proof.
  induction labels as [|k labels IH] using rev_ind; [done|].
  rewrite FreqDist_of_snoc, fd_get_incr, IH, filter_app, length_app.
  rewrite filter_cons, filter_nil. case_decide; cbn [length]; lia.
Qed.

Lemma fd_N_FreqDist_of (labels : list Label) :
  fd_N (FreqDist_of labels) = Z.of_nat (length labels).
Proof.
  induction labels as [|k labels IH] using rev_ind; [done|].
  rewrite FreqDist_of_snoc, fd_N_incr, IH, length_app. cbn [length]. lia.
Qed.

Lemma fd_get_keys fd (l : Label) : fd_get fd l ≠ 0 → l ∈ fd.*1.
Proof.
  induction fd as [|[k c] fd IH]; [done|]. cbn [fd_get fmap list_fmap fst].
  case_decide as Hk; [subst k; intros _; apply elem_of_cons; by left|].
  intros Hl. apply elem_of_cons. right. by apply IH.
Qed.

Lemma distributional_info_samples kw games d fd :
  distributional_info kw games = Ok (d, fd) →
  ∃ samples, find_samples kw games = Ok samples ∧ samples ≠ [] ∧
             d = dict_of_samples samples ∧ fd = FreqDist_of samples.*2.
Proof.
  unfold distributional_info. intros (samples & Hfind & Hrest)%bind_Ok.
  exists samples. destruct samples as [|s samples]; [done|].
  by injection Hrest as <- <-.
Qed.

Lemma available_le_count (samples : list (string * Label)) (l : Label) :
  (available (dict_of_samples samples) l ≤ count_samples l samples)%nat.
Proof.
  unfold available, count_samples.
  rewrite <-(length_fmap fst (filter _ samples)).
  apply submseteq_length, NoDup_submseteq; [apply ids_with_label_NoDup|].
  intros x Hx%ids_with_label_spec%dict_of_samples_lookup.
  apply list_elem_of_fmap. exists (x, l). split; [done|].
  by apply list_elem_of_filter.
Qed.

Lemma available_eq_count (samples : list (string * Label)) (l : Label) :
  NoDup samples.*1 →
  available (dict_of_samples samples) l = count_samples l samples.
Proof.
  intros Hnd. unfold available, count_samples.
  rewrite <-(length_fmap fst (filter _ samples)).
  apply Permutation_length, NoDup_Permutation.
  - apply ids_with_label_NoDup.
  - eapply sublist_NoDup; [done|]. apply fmap_sublist, sublist_filter.
  - intros x. rewrite ids_with_label_spec, list_elem_of_fmap. split.
    + intros Hx%dict_of_samples_lookup. exists (x, l). split; [done|].
      by apply list_elem_of_filter.
    + intros ([y k] & -> & [Hk Hin]%list_elem_of_filter). cbn in Hk. subst k.
      by apply dict_of_samples_lookup_NoDup.
Qed.

Lemma count_samples_labels (samples : list (string * Label)) (l : Label) :
  count_samples l samples = length (filter (λ k, k = l) samples.*2).
Proof.
  unfold count_samples. induction samples as [|[x k] samples IH]; [done|].
  cbn [fmap list_fmap snd]. rewrite !filter_cons. cbn [snd].
  case_decide; cbn [length]; by rewrite IH.
Qed.

Lemma size_dict_of_samples (samples : list (string * Label)) :
  (size (dict_of_samples samples) ≤ length samples)%nat.
Proof.
  rewrite <-length_map_to_list, <-(length_fmap fst (map_to_list _)).
  rewrite <-(length_fmap fst samples).
  apply submseteq_length, NoDup_submseteq; [apply keys_NoDup|].
  intros x Hx. by apply dict_of_samples_keys.
Qed.

Lemma size_dict_of_samples_NoDup (samples : list (string * Label)) :
  NoDup samples.*1 → size (dict_of_samples samples) = length samples.
Proof.
  intros Hnd.
  rewrite <-length_map_to_list, <-(length_fmap fst (map_to_list _)).
  rewrite <-(length_fmap fst samples).
  apply Permutation_length, NoDup_Permutation; [apply keys_NoDup|done|].
  intros x. split; [apply dict_of_samples_keys|].
  intros ([y k] & -> & Hin)%list_elem_of_fmap.
  apply elem_of_keys. exists k. by apply dict_of_samples_lookup_NoDup.
Qed.

Lemma distributional_info_labels (kw : kwargs) (games : list string)
    (d : gmap string Label) (fd : FreqDist Label) :
  distributional_info kw games = Ok (d, fd) →
  NoDup fd.*1 ∧ ∀ x l, d !! x = Some l → l ∈ fd.*1.
Proof.
  intros (samples & _ & _ & -> & ->)%distributional_info_samples.
  split; [apply FreqDist_of_NoDup|].
  intros x l Hx. apply fd_get_keys.
  rewrite fd_get_FreqDist_of, <-count_samples_labels.
  pose proof (available_le_count samples l) as Hle.
  assert (0 < available (dict_of_samples samples) l)%nat; [|lia].
  unfold available. apply ids_with_label_spec in Hx.
  destruct (ids_with_label _ l); [by apply elem_of_nil in Hx|cbn; lia].
Qed.

(** X5.  What [distributional_info] returns is never empty and is
    consistent: the dictionary is not empty, the distribution has at
    least one label and no label twice, every label of the dictionary
    is a label of the distribution, the distribution counts each label
    at least as often as the dictionary holds it, and its total is the
    number of samples read, at least the size of the dictionary; when
    no identifier occurs twice among the samples these are
    equalities. *)
Theorem distributional_info_consistent (kw : kwargs) (games : list string)
    (d : gmap string Label) (fd : FreqDist Label) :
  distributional_info kw games = Ok (d, fd) →
  d ≠ ∅ ∧ fd ≠ [] ∧ NoDup fd.*1 ∧
  (∀ x l, d !! x = Some l → l ∈ fd.*1) ∧
  (∀ l, Z.of_nat (available d l) ≤ fd_get fd l) ∧
  Z.of_nat (size d) ≤ fd_N fd ∧
  ∃ samples, find_samples kw games = Ok samples ∧
             fd_N fd = Z.of_nat (length samples) ∧
             (NoDup samples.*1 →
              (∀ l, Z.of_nat (available d l) = fd_get fd l) ∧
              Z.of_nat (size d) = fd_N fd).
Proof.
  intros (samples & Hfind & Hne & -> & ->)%distributional_info_samples.
  assert (HN : fd_N (FreqDist_of samples.*2) = Z.of_nat (length samples))
    by by rewrite fd_N_FreqDist_of, length_fmap.
  assert (Hle : ∀ l, Z.of_nat (available (dict_of_samples samples) l)
                     ≤ fd_get (FreqDist_of samples.*2) l).
  { intros l. rewrite fd_get_FreqDist_of, <-count_samples_labels.
    pose proof (available_le_count samples l). lia. }
  split_and!.
  - by apply dict_of_samples_nonempty.
  - destruct samples as [|s samples] using rev_ind; [done|].
    rewrite fmap_app. cbn [fmap list_fmap]. rewrite FreqDist_of_snoc.
    apply fd_incr_nonempty.
  - apply FreqDist_of_NoDup.
  - intros x l Hx. apply fd_get_keys.
    assert (0 < available (dict_of_samples samples) l)%nat; [|specialize (Hle l); lia].
    unfold available. apply ids_with_label_spec in Hx.
    destruct (ids_with_label _ l); [by apply elem_of_nil in Hx|cbn; lia].
  - done.
  - rewrite HN. pose proof (size_dict_of_samples samples). lia.
  - exists samples. split_and!; [done|done|]. intros Hnd. split.
    + intros l. rewrite fd_get_FreqDist_of, <-count_samples_labels.
      by rewrite available_eq_count.
    + by rewrite HN, size_dict_of_samples_NoDup.
Qed.

(** X6.  [_make_test_set] never returns [None]: when it returns, it
    returns an array of identifiers.  Its early [return] on an empty
    dictionary is dead code, [distributional_info] raising
    [ValueError] before an empty dictionary can reach it. *)
Theorem make_test_set_returns_ids self self' (T : option (list string)) :
  _make_test_set self = Ok (self', T) → ∃ ids, T = Some ids.
Proof.
  unfold _make_test_set. intros ([d fd] & Hdist & Hrest)%bind_Ok.
  apply distributional_info_samples in Hdist as (samples & _ & Hne & -> & ->).
  cbn [fst snd] in Hrest.
  rewrite decide_False in Hrest by by apply dict_of_samples_nonempty.
  case_decide.
  - apply bind_Ok in Hrest as (size & _ & [= _ <-]). by eexists.
  - destruct (even_loop _ _ _ _ _ _ _); [|done].
    injection Hrest as _ <-. by eexists.
Qed.
(** *** The shrink factor *)

Lemma factor_step_cases d fd size (factor : Qc) (label : Label) :
  factor_step d fd size factor label
  = if decide (Z.of_nat (available d label) < n_label_data fd size label)
    then if decide (ratio d fd size label < factor)%Qc
         then ratio d fd size label else factor
    else factor.
Proof.
  unfold factor_step, short_of, ratio. fold (n_label_data fd size label).
  set (n := n_label_data fd size label). set (a := available d label).
  destruct (decide (Z.of_nat a < n)) as [Hshort|Hok].
  - assert (Hlen : Z.of_nat (slice_len n a) = Z.of_nat a).
    { unfold slice_len. rewrite decide_True by lia. lia. }
    rewrite Hlen, decide_True by done.
    by rewrite new_factor_ratio by lia.
  - rewrite decide_False; [done|]. unfold slice_len. case_decide; lia.
Qed.

Lemma fold_factor_spec d fd size (labels : list Label) :
  ∀ factor : Qc,
    let r := foldl (factor_step d fd size) factor labels in
    (r ≤ factor)%Qc ∧
    (r = factor ∨
     ∃ l, l ∈ labels ∧ short_of d fd size l ∧ r = ratio d fd size l) ∧
    (∀ l, l ∈ labels → short_of d fd size l → (r ≤ ratio d fd size l)%Qc).
Proof.
  induction labels as [|label labels IH]; intros factor r.
  - split_and!; [apply Qcle_refl|by left|]. by intros l ?%elem_of_nil.
  - subst r. cbn [foldl].
    destruct (IH (factor_step d fd size factor label)) as (Hle & Hcase & Hall).
    set (r := foldl _ _ labels) in *.
    assert (Hstep : (factor_step d fd size factor label ≤ factor)%Qc ∧
              (short_of d fd size label →
               (factor_step d fd size factor label ≤ ratio d fd size label)%Qc) ∧
              (factor_step d fd size factor label = factor ∨
               short_of d fd size label ∧
               factor_step d fd size factor label = ratio d fd size label)).
    { rewrite factor_step_cases. unfold short_of. destruct (decide (_ < _)).
      - destruct (decide (_ < _)%Qc) as [Hlt|Hge].
        + split_and!; [by apply Qclt_le_weak|intros; apply Qcle_refl|by right].
        + split_and!; [apply Qcle_refl|by intros; apply Qcnot_lt_le|by left].
      - split_and!; [apply Qcle_refl|done|by left]. }
    destruct Hstep as (Hs1 & Hs2 & Hs3). split_and!.
    + by etrans.
    + destruct Hcase as [Hr|(l & Hl & Hshort & Hr)].
      * destruct Hs3 as [Heq|[Hshort Heq]]; [left; congruence|].
        right. exists label. split_and!; [apply elem_of_cons; by left|done|congruence].
      * right. exists l. split_and!; [apply elem_of_cons; by right|done|done].
    + intros l [->|Hl]%elem_of_cons Hshort.
      * etrans; [exact Hle|]. by apply Hs2.
      * by apply Hall.
Qed.


Lemma ratio_lt_1 d fd size (l : Label) :
  short_of d fd size l →
  (0 ≤ ratio d fd size l)%Qc ∧ (ratio d fd size l < 1)%Qc.
Proof. intros Hshort. apply ratio_bounds. unfold short_of in Hshort. lia. Qed.



Lemma shrink_factor_range d fd size :
  (0 ≤ shrink_factor d fd size)%Qc ∧ (shrink_factor d fd size ≤ 1)%Qc.
Proof.
  destruct (fold_factor_spec d fd size (sorted_labels fd) 1%Qc)
    as (Hle & Hcase & _).
  fold (shrink_factor d fd size) in Hle, Hcase. split; [|done].
  destruct Hcase as [->|(l & _ & Hshort & ->)]; [done|].
  by apply ratio_lt_1.
Qed.

Lemma fd_get_nonneg fd (l : Label) :
  Forall (λ lc, 0 ≤ lc.2) fd → 0 ≤ fd_get fd l.
Proof.
  induction 1 as [|[k c] fd Hc _ IH]; cbn [fd_get]; [done|]. by case_decide.
Qed.

Lemma fd_freq_bounds fd (l : Label) :
  0 ≤ fd_get fd l ≤ fd_N fd →
  (0 ≤ fd_freq fd l)%Qc ∧ (fd_freq fd l ≤ 1)%Qc.
Proof.
  intros [H0 HN]. unfold fd_freq. case_decide as Hz; [done|].
  assert (HNpos : 0 < fd_N fd) by lia. clear Hz.
  revert H0 HN HNpos. generalize (fd_get fd l) (fd_N fd). intros c N H0 HN HNpos.
  qc_to_q. split.
  - apply Qle_shift_div_l; [by rewrite <-(Zlt_Qlt 0)|].
    rewrite Qmult_0_l. by rewrite <-(Zle_Qle 0).
  - apply Qle_shift_div_r; [by rewrite <-(Zlt_Qlt 0)|].
    rewrite Qmult_1_l. by rewrite <-Zle_Qle.
Qed.





(** *** What the stratified loops draw *)

Hypothesis shuffle_perm :
  ∀ (g : prng) (a : list string), (shuffle g a).1 ≡ₚ a.






(** *** Sizes *)

Lemma shuffle_and_cap_bound g (ids : list string) (size : Qc) :
  (0 ≤ size)%Qc →
  (Z2Qc (Z.of_nat (length (shuffle_and_cap g ids size))) ≤ size)%Qc.
Proof.
  intros Hsize. unfold shuffle_and_cap.
  set (a := (shuffle g (sort_ids ids)).1).
  case_decide as Hlt; [|by apply Qcnot_lt_le].
  unfold slice_to_float, Qc_trunc. rewrite decide_True by done.
  assert (Hf : 0 ≤ Qc_floor size).
  { unfold Qc_floor. change 0 with (Qfloor 0). by apply Qfloor_resp_le. }
  rewrite length_slice_to. unfold slice_len. rewrite decide_True by done.
  etrans; [|apply Qc_floor_le]. apply Z2Qc_le. lia.
Qed.

Lemma draw_fold_size sampling fd d (size c F : Z) ids g (s : Qc) :
  0 ≤ size →
  draw_fold sampling fd d size c F = Ok (FoldDrawn ids g s) →
  (0 ≤ s)%Qc ∧ (s ≤ Z2Qc size)%Qc.
Proof.
  intros Hsize. unfold draw_fold.
  assert (H0 : (0 ≤ Z2Qc size)%Qc) by by apply DatasetsFacts.Z2Qc_nonneg.
  case_decide.
  - rewrite (stratified_scan_factor shuffle_perm).
    destruct (shrink_factor_range d fd (Z2Qc size)) as [Hf0 Hf1].
    intros ([s'|] & Hres & [= <- <- <-])%bind_Ok.
    unfold fold_resize in Hres.
    case_decide; [|injection Hres as <-; split; [done|apply Qcle_refl]].
    destruct (_ && _); [by cbn in Hres|].
    injection Hres as <-. by apply Qc_scale_le.
  - destruct (even_loop _ _ _ _ _ _ _); [|by case_decide].
    intros [= <- <- <-]. split; [done|apply Qcle_refl].
Qed.

Lemma training_fold_length sampling fd d (size c F : Z) d' fold_set :
  0 ≤ size →
  training_fold sampling fd d size c F = Ok (d', fold_set) →
  Z.of_nat (length fold_set) ≤ size.
Proof.
  intros Hsize. unfold training_fold.
  intros ([ids g s|] & Hdraw & Hrest)%bind_Ok.
  - apply draw_fold_size in Hdraw as [Hs0 Hs]; [|done].
    apply bind_Ok in Hrest as (d1 & _ & [= _ <-]).
    apply Z2Qc_le_inv. etrans; [by apply shuffle_and_cap_bound|done].
  - injection Hrest as _ <-. cbn. lia.
Qed.

Lemma fold_loop_lengths (n : nat) :
  ∀ self size F c ts self' c' ts',
    0 ≤ size →
    fold_loop n self size F c ts = Ok (self', c', ts') →
    Forall (λ fold_set, Z.of_nat (length fold_set) ≤ size) ts →
    Forall (λ fold_set, Z.of_nat (length fold_set) ≤ size) ts'.
Proof.
  induction n as [|n IH]; intros self size F c ts self' c' ts' Hsize Hloop Hts.
  - by injection Hloop as _ _ <-.
  - cbn [fold_loop] in Hloop.
    apply bind_Ok in Hloop as ([s1 fold_set] & Hfold & Hrest).
    cbn [fst snd] in Hrest. destruct fold_set as [|x fold_set].
    + by injection Hrest as _ _ <-.
    + eapply IH; [done|exact Hrest|]. apply Forall_app. split; [done|].
      apply Forall_singleton. unfold _generate_training_fold in Hfold.
      apply bind_Ok in Hfold as (fd & _ & Hfold).
      apply bind_Ok in Hfold as (d & _ & Hfold).
      apply bind_Ok in Hfold as ([d' f] & Hfold & [= _ <-]).
      by eapply training_fold_length.
Qed.

Lemma generate_dataset_lengths self (grid_search : bool) self' ts :
  let size := if grid_search then grid_search_fold_size self
              else fold_size self in
  0 ≤ size →
  _generate_dataset self grid_search = Ok (self', ts) →
  Forall (λ fold_set, Z.of_nat (length fold_set) ≤ size) ts.
Proof.
  intros size Hsize. unfold _generate_dataset.
  intros ([[s1 c] ts1] & Hloop & Hrest)%bind_Ok.
  case_decide; [|done]. injection Hrest as _ <-.
  eapply fold_loop_lengths; [exact Hsize|exact Hloop|constructor].
Qed.

Lemma make_test_set_length self self' (T : option (list string)) :
  (0 ≤ test_size self)%Qc →
  _make_test_set self = Ok (self', T) →
  ∃ ids, T = Some ids ∧
         (Z2Qc (Z.of_nat (length ids)) ≤ test_size self')%Qc ∧
         (test_size self' ≤ test_size self)%Qc.
Proof.
  intros Hsize. unfold _make_test_set.
  intros ([d fd] & Hdist & Hrest)%bind_Ok. cbn [fst snd] in Hrest.
  assert (Hd : d ≠ ∅).
  { apply distributional_info_samples in Hdist as (samples & _ & Hne & -> & _).
    by apply dict_of_samples_nonempty. }
  set (self1 := if _games_test_games_equal self then _ else self) in *.
  assert (Hs1 : test_size self1 = test_size self)
    by (subst self1; by destruct (_games_test_games_equal self)).
  case_decide; [done|]. case_decide.
  - rewrite (stratified_scan_factor shuffle_perm) in Hrest.
    destruct (shrink_factor_range d fd (test_size self1)) as [Hf0 Hf1].
    apply bind_Ok in Hrest as (size & Hres & [= <- <-]).
    assert (Hts : test_size (set_test_size size self1) = size)
      by by destruct self1.
    rewrite Hts. rewrite Hs1 in Hres, Hf0, Hf1.
    assert (Hsz : (0 ≤ size)%Qc ∧ (size ≤ test_size self)%Qc).
    { unfold test_set_resize in Hres.
      case_decide; [|injection Hres as <-; split; [done|apply Qcle_refl]].
      case_decide; [done|]. injection Hres as <-. by apply Qc_scale_le. }
    destruct Hsz. eexists. split; [done|].
    split; [by apply shuffle_and_cap_bound|done].
  - destruct (even_loop _ _ _ _ _ _ _); [|done].
    injection Hrest as <- <-. rewrite Hs1. eexists. split; [done|].
    split; [|apply Qcle_refl].
    rewrite <-Hs1. apply shuffle_and_cap_bound. by rewrite Hs1.
Qed.
(** *** The object the constructor returns *)

Lemma generate_dataset_folds self (grid_search : bool) self' ts :
  let F := if grid_search then grid_search_folds self else folds self in
  let size := if grid_search then grid_search_fold_size self
              else fold_size self in
  0 ≤ F → 0 ≤ size →
  _generate_dataset self grid_search = Ok (self', ts) →
  folds_as_requested F size ts.
Proof.
  intros F size HF Hsize Hgen.
  pose proof (generate_dataset_lengths self grid_search self' ts Hsize Hgen)
    as Hlen.
  unfold _generate_dataset in Hgen. fold F size in Hgen.
  apply bind_Ok in Hgen as ([[s1 c] ts1] & Hloop & Hrest).
  case_decide as Hq; [|done]. injection Hrest as _ <-.
  apply fold_loop_count in Hloop as (new & Hts & Hc & Hne & Hn).
  cbn [app] in Hts. subst new. apply three_quarters in Hq.
  split_and!; [lia|lia|].
  apply Forall_forall. intros f Hf. split.
  - by eapply Forall_forall in Hne.
  - by eapply Forall_forall in Hlen.
Qed.

Lemma validate_request a self :
  validate a = Ok self →
  requested self = (arg_folds a, arg_fold_size a, arg_grid_search_folds a,
                    arg_grid_search_fold_size a) ∧
  0 ≤ arg_folds a ∧ 0 ≤ arg_fold_size a ∧ 0 ≤ arg_grid_search_folds a ∧
  0 ≤ arg_grid_search_fold_size a ∧ 0 ≤ arg_test_size a.
Proof.
  unfold validate. repeat (case_decide; [done|]).
  destruct (existsb _ _); [done|]. case_decide; [done|].
  destruct (existsb _ _) eqn:Hneg; [done|].
  intros (u & _ & Hs)%bind_Ok. destruct (bool_decide (_ ∉ _)); [done|].
  injection Hs as <-. split; [done|].
  cbn [existsb] in Hneg.
  repeat apply orb_false_elim in Hneg as [?%bool_decide_eq_false Hneg].
  lia.
Qed.

Lemma partitions_kept_refl self : partitions_kept self self.
Proof. done. Qed.

Lemma partitions_kept_trans (s1 s2 s3 : self_t Label) :
  partitions_kept s1 s2 → partitions_kept s2 s3 → partitions_kept s1 s3.
Proof.
  intros (? & ? & ? & ?) (? & ? & ? & ?). split_and!; congruence.
Qed.

Lemma load_distribution_kept self self' :
  load_distribution self = Ok self' → partitions_kept self self'.
Proof.
  unfold load_distribution. destruct (negb _).
  - intros (dd & _ & Hset)%bind_Ok. injection Hset as <-. by destruct self.
  - by intros [= <-].
Qed.

Lemma remove_test_ids_kept self self' :
  remove_test_ids self = Ok self' → partitions_kept self self'.
Proof.
  unfold remove_test_ids. destruct (_ && _).
  - intros (ids & _ & (d & _ & Hset)%bind_Ok)%bind_Ok.
    injection Hset as <-. by destruct self.
  - by intros [= <-].
Qed.

Lemma index_labels_kept self self' :
  index_labels self = Ok self' → partitions_kept self self'.
Proof.
  unfold index_labels. intros (fd & _ & (d & _ & Hset)%bind_Ok)%bind_Ok.
  injection Hset as <-. by destruct self.
Qed.

Lemma build_test_set_fields self self' :
  (0 ≤ test_size self)%Qc → test_set self = Some [] →
  build_test_set self = Ok self' →
  requested self' = requested self ∧
  training_set self' = training_set self ∧
  grid_search_set self' = grid_search_set self ∧
  ∃ T, test_set self' = Some T ∧
       (Z2Qc (Z.of_nat (length T)) ≤ test_size self)%Qc.
Proof.
  intros Hsize Hts. unfold build_test_set. case_decide.
  - intros ([s1 T] & Hmake & [= <-])%bind_Ok. cbn [fst snd].
    destruct (make_test_set_length _ _ _ Hsize Hmake) as (ids & -> & Hlen & Hle).
    apply make_test_set_spec in Hmake as (d & fd & size' & _ & _ & _ & ->);
      [|done].
    split_and!.
    + by destruct self, (_games_test_games_equal _).
    + by destruct self, (_games_test_games_equal _).
    + by destruct self, (_games_test_games_equal _).
    + exists ids. split; [by destruct self, (_games_test_games_equal _)|].
      by etrans.
  - intros [= <-]. split_and!; [done..|]. exists []. split; [done|].
    exact Hsize.
Qed.

Lemma build_training_set_fields self self' :
  0 ≤ folds self → 0 ≤ fold_size self →
  build_training_set self = Ok self' →
  requested self' = requested self ∧ test_set self' = test_set self ∧
  grid_search_set self' = grid_search_set self ∧
  if decide (folds self = 0) then training_set self' = training_set self
  else ∃ tr, training_set self' = Some tr ∧
             folds_as_requested (folds self) (fold_size self) tr.
Proof.
  intros HF Hsize. unfold build_training_set. case_decide as Hz.
  - intros ([s1 tr] & Hgen & [= <-])%bind_Ok. cbn [fst snd].
    rewrite decide_False by done.
    pose proof (generate_dataset_folds self false s1 tr HF Hsize Hgen) as Hfolds.
    apply generate_dataset_self in Hgen. rewrite Hgen.
    split_and!; [by destruct self..|]. exists tr. split; [|done].
    by destruct self.
  - intros [= <-]. by rewrite decide_True by done.
Qed.

Lemma build_grid_search_set_fields self self' :
  0 ≤ grid_search_folds self → 0 ≤ grid_search_fold_size self →
  build_grid_search_set self = Ok self' →
  requested self' = requested self ∧ test_set self' = test_set self ∧
  training_set self' = training_set self ∧
  if decide (grid_search_folds self = 0)
  then grid_search_set self' = grid_search_set self
  else ∃ gs, grid_search_set self' = Some gs ∧
             folds_as_requested (grid_search_folds self)
                                (grid_search_fold_size self) gs.
Proof.
  intros HF Hsize. unfold build_grid_search_set. case_decide as Hz.
  - intros ([s1 gs] & Hgen & [= <-])%bind_Ok. cbn [fst snd].
    rewrite decide_False by done.
    pose proof (generate_dataset_folds self true s1 gs HF Hsize Hgen) as Hfolds.
    apply generate_dataset_self in Hgen. rewrite Hgen.
    split_and!; [by destruct self..|]. exists gs. split; [|done].
    by destruct self.
  - intros [= <-]. by rewrite decide_True by done.
Qed.

(** X9.  An object that [__init__] returns has what was asked for, up
    to the 75% rule: at least one fold was requested; the training set
    has at least three quarters of the requested folds and at most as
    many, none of them empty, none larger than [fold_size], and
    [num_datasets] is their number; the grid search set is [None] when
    no grid search fold was requested and obeys the same bounds
    otherwise; the test set has at most [test_size] identifiers. *)
Theorem constructed_partitions_as_requested (a : init_args)
    (self : self_t Label) :
  __init__ a = Ok self →
  1 ≤ arg_folds a ∧
  (∃ tr, training_set self = Some tr ∧
         num_datasets self = Some (Z.of_nat (length tr)) ∧
         folds_as_requested (arg_folds a) (arg_fold_size a) tr) ∧
  (if decide (arg_grid_search_folds a = 0) then grid_search_set self = None
   else ∃ gs, grid_search_set self = Some gs ∧
              folds_as_requested (arg_grid_search_folds a)
                                 (arg_grid_search_fold_size a) gs) ∧
  ∃ T, test_set self = Some T ∧ Z.of_nat (length T) ≤ arg_test_size a.
Proof.
  unfold __init__, _construct_layered_dataset.
  intros (s0 & Hv & (s1 & H1 & (s2 & H2 & (s3 & H3 & (s4 & H4 &
           (s5 & H5 & (s6 & H6 & H7)%bind_Ok)%bind_Ok)%bind_Ok)%bind_Ok)
           %bind_Ok)%bind_Ok)%bind_Ok.
  pose proof (validate_request _ _ Hv) as (Hreq & HF & HS & HG & HGS & HT).
  apply validate_fields in Hv
    as (_ & Htr0 & Hsize0 & _ & _ & _ & Hts0 & _ & _ & Hgs0).
  apply build_test_set_fields in H1 as (Hreq1 & Htr1 & Hgs1 & T & HT1 & Hlen);
    [|rewrite Hsize0; by apply DatasetsFacts.Z2Qc_nonneg|done].
  rewrite Hsize0 in Hlen. apply Z2Qc_le_inv in Hlen.
  pose proof (partitions_kept_trans _ _ _
                (partitions_kept_trans _ _ _ (load_distribution_kept _ _ H2)
                   (remove_test_ids_kept _ _ H3))
                (index_labels_kept _ _ H4)) as (Hreq4 & Hts4 & Htr4 & Hgs4).
  assert (Hr4 : requested s4 = (arg_folds a, arg_fold_size a,
                  arg_grid_search_folds a, arg_grid_search_fold_size a))
    by congruence.
  injection Hr4 as Hf4 Hfs4 Hg4 Hgs4'.
  apply build_training_set_fields in H5 as (Hreq5 & Hts5 & Hgs5 & Htr5);
    [|lia..].
  assert (Hr5 : requested s5 = (arg_folds a, arg_fold_size a,
                  arg_grid_search_folds a, arg_grid_search_fold_size a))
    by (rewrite Hreq5; unfold requested; congruence).
  injection Hr5 as Hf5 Hfs5 Hg5 Hgs5'.
  apply build_grid_search_set_fields in H6 as (Hreq6 & Hts6 & Htr6 & Hgs6);
    [|lia..].
  unfold count_datasets in H7.
  apply bind_Ok in H7 as (ts & Hthe & [= <-]).
  assert (Htr : training_set s6 = Some ts).
  { destruct (training_set s6); [|done]. by injection Hthe as ->. }
  rewrite Hf4, Hfs4 in Htr5. rewrite Hg5, Hgs5' in Hgs6.
  assert (Hfolds : arg_folds a ≠ 0 ∧
            folds_as_requested (arg_folds a) (arg_fold_size a) ts).
  { destruct (decide (arg_folds a = 0)) as [Hz|Hnz].
    - congruence.
    - destruct Htr5 as (tr & Htr5 & Hfolds). split; [done|].
      assert (ts = tr) by congruence. by subst tr. }
  destruct Hfolds as [Hnz Hfolds]. split_and!.
  - lia.
  - exists ts. split_and!; [by destruct s6|by destruct s6|done].
  - destruct (decide (arg_grid_search_folds a = 0)).
    + destruct s6; cbn in *. congruence.
    + destruct Hgs6 as (gs & Hgs6 & Hgfolds). exists gs.
      split; [by destruct s6|done].
  - exists T. split; [|done]. destruct s6; cbn in *. congruence.
Qed.
(** *** Nothing is lost *)

Lemma drawn_from_conserves d d' (new : list (list string)) :
  drawn_from d d' new →
  keys d ≡ₚ mjoin new ++ keys d' ∧
  ∀ x l, d' !! x = Some l → d !! x = Some l.
Proof.
  intros [Hsub Hlook]. split.
  - apply NoDup_Permutation.
    + apply keys_NoDup.
    + apply NoDup_app. split_and!.
      * eapply submseteq_NoDup'; [done|apply keys_NoDup].
      * intros x Hx [l Hl]%elem_of_keys. rewrite Hlook in Hl.
        by rewrite decide_True in Hl.
      * apply keys_NoDup.
    + intros x. rewrite elem_of_app, !elem_of_keys, Hlook. split.
      * intros Hx. case_decide; [by left|by right].
      * intros [Hx|Hx]; [|by case_decide].
        apply elem_of_keys. by eapply elem_of_submseteq.
  - intros x l. rewrite Hlook. by case_decide.
Qed.

(** X10.  [_generate_dataset] loses no identifier and relabels none:
    the identifiers of the pool it started with are exactly those of
    the folds it returns together with those left in the pool, each
    once, the identifiers left keep their labels, and the distribution
    is not recomputed. *)
Theorem generate_dataset_conserves (self : self_t Label)
    (grid_search : bool) (self' : self_t Label) (ts : list (list string))
    (d : gmap string Label) (fd : FreqDist Label) :
  id_strings_labels self = Some d → labels_fdist self = Some fd →
  NoDup fd.*1 →
  _generate_dataset self grid_search = Ok (self', ts) →
  ∃ d', id_strings_labels self' = Some d' ∧
        keys d ≡ₚ mjoin ts ++ keys d' ∧
        (∀ x l, d' !! x = Some l → d !! x = Some l) ∧
        labels_fdist self' = Some fd.
Proof.
  intros Hd Hfd Hnd Hgen.
  destruct (generate_dataset_spec shuffle_perm _ _ _ _ _ _ Hd Hfd Hnd Hgen)
    as (d' & -> & Hdrawn).
  apply drawn_from_conserves in Hdrawn as [Hperm Hlabels].
  exists d'. split_and!; [by destruct self|done|done|by destruct self].
Qed.
(** *** The exceptions of a fold draw *)

End More.

(** *** The properties on the small corpus *)

Import Corpus.

Lemma distributional_info_consistent_witness :
  Z.of_nat (size (dict_of corpus_6_6)) ≤ fd_N (fdist_of corpus_6_6).
Proof.
  exact (proj1 (proj2 (proj2 (proj2 (proj2 (proj2
    (distributional_info_consistent (Externals0 := externals corpus_6_6)
       (Kwargs None false [] 50) ["Dota_2"]
       (dict_of corpus_6_6) (fdist_of corpus_6_6) eq_refl))))))).
Defined.

Lemma make_test_set_returns_ids_witness :
  ∃ self' ids,
    _make_test_set (Externals0 := externals corpus_6_6)
      (fresh_self {["Dota_2"]} {["Dota_2"]} 1 4 0 0 4 "even")
    = Ok (self', Some ids).
Proof.
  destruct (_make_test_set (Externals0 := externals corpus_6_6)
              (fresh_self {["Dota_2"]} {["Dota_2"]} 1 4 0 0 4 "even"))
    as [[self' T]|e] eqn:Hmake; [|by vm_compute in Hmake].
  destruct (make_test_set_returns_ids _ _ _ Hmake) as [ids ->].
  exact (ex_intro _ self' (ex_intro _ ids eq_refl)).
Defined.


Lemma constructed_partitions_as_requested_witness :
  ∃ self tr,
    init corpus_two_games
      (args {["Dota_2"]} {["Arma_3"; "Dota_2"]} 2 4 1 2 4 "stratified")
    = Ok self ∧ training_set self = Some tr ∧
    folds_as_requested 2 4 tr.
Proof.
  set (a := args _ _ _ _ _ _ _ _).
  destruct (init corpus_two_games a) as [self|e] eqn:Hinit;
    [|by vm_compute in Hinit].
  unfold init in Hinit.
  destruct (constructed_partitions_as_requested
              (Externals0 := externals corpus_two_games)
              reverse_shuffle_perm a self Hinit)
    as (_ & (tr & Htr & _ & Hfolds) & _).
  exact (ex_intro _ self (ex_intro _ tr (conj eq_refl (conj Htr Hfolds)))).
Defined.

Lemma generate_dataset_conserves_witness :
  ∃ self' ts (d' : gmap string string),
    _generate_dataset (Externals0 := externals corpus_6_6)
      (loaded_self (dict_of corpus_6_6) (fdist_of corpus_6_6)
         (fresh_self {["Dota_2"]} {["Dota_2"]} 4 4 0 0 0 "even")) false
    = Ok (self', ts) ∧
    keys (dict_of corpus_6_6) ≡ₚ mjoin ts ++ keys d'.
Proof.
  set (self := loaded_self _ _ _).
  destruct (_generate_dataset (Externals0 := externals corpus_6_6) self false)
    as [[self' ts]|e] eqn:Hgen; [|by vm_compute in Hgen].
  destruct (generate_dataset_conserves (Externals0 := externals corpus_6_6)
              reverse_shuffle_perm self false self' ts
              (dict_of corpus_6_6) (fdist_of corpus_6_6)
              eq_refl eq_refl ltac:(compute_done) Hgen)
    as (d' & _ & Hperm & _).
  exact (ex_intro _ self' (ex_intro _ ts (ex_intro _ d' (conj eq_refl Hperm)))).
Defined.

End PartitionFacts.

(** ** [evenly_distribute_samples] *)

Module SamplingFacts.
Import Experiments ExperimentsFacts PartitionFacts Sampling.

Lemma pop_snoc {A} (l : list A) (x : A) : pop (l ++ [x]) = Some (x, l).
Proof. unfold pop. by rewrite reverse_snoc, reverse_involutive. Qed.

Lemma pop_cases {A} (l : list A) :
  (l = [] ∧ pop l = None) ∨ ∃ x rest, l = rest ++ [x] ∧ pop l = Some (x, rest).
Proof.
  destruct l as [|x l _] using rev_ind; [by left|].
  right. exists x, l. by rewrite pop_snoc.
Qed.
Section Facts.
Context {Label : Type} `{!EqDecision Label}.

Implicit Types (d : gmap string Label) (st : gen_state (Label := Label))
  (labels : list Label).

Lemma pop_label_cases st (l : Label) :
  (labels_id_strings_lists_dict st l = [] ∧ pop_label st l = st)
  ∨ ∃ x rest,
      labels_id_strings_lists_dict st l = rest ++ [x] ∧
      pop_label st l
      = GenState (dict_set (labels_id_strings_lists_dict st) l rest)
                 (gen_i st + 1) (yielded st ++ [x]).
Proof.
  unfold pop_label.
  destruct (pop_cases (labels_id_strings_lists_dict st l))
    as [[Hnil ->]|(x & rest & Heq & ->)]; [by left|].
  right. by exists x, rest.
Qed.

Lemma dict_set_eq (f : Label → list string) l ids : dict_set f l ids l = ids.
Proof. unfold dict_set. by rewrite decide_True. Qed.

Lemma dict_set_ne (f : Label → list string) l k ids :
  k ≠ l → dict_set f l ids k = f k.
Proof. intros. unfold dict_set. by rewrite decide_False. Qed.

Lemma fmap_dict_set_notin (f : Label → list string) l ids labels :
  l ∉ labels → dict_set f l ids <$> labels = f <$> labels.
Proof.
  intros Hl. apply list_fmap_ext. intros i k Hk. apply dict_set_ne.
  intros ->. apply Hl. by eapply list_elem_of_lookup_2.
Qed.

Lemma mjoin_dict_set (f : Label → list string) l rest x labels :
  NoDup labels → l ∈ labels → f l = rest ++ [x] →
  mjoin (f <$> labels) ≡ₚ x :: mjoin (dict_set f l rest <$> labels).
Proof.
  intros Hnd Hl Hf. induction labels as [|k labels IH]; [by apply elem_of_nil in Hl|].
  apply NoDup_cons in Hnd as [Hk Hnd]. cbn [fmap list_fmap].
  change (mjoin (?a :: ?b)) with (a ++ mjoin b).
  destruct (decide (k = l)) as [->|Hne].
  - rewrite dict_set_eq, fmap_dict_set_notin by done. rewrite Hf.
    rewrite <-app_assoc. cbn [app]. by rewrite <-Permutation_middle.
  - rewrite dict_set_ne by done. apply elem_of_cons in Hl as [->|Hl]; [done|].
    rewrite IH by done. by rewrite <-Permutation_middle.
Qed.

Lemma prefix_snoc_cases {A} (p l : list A) (x : A) :
  p `prefix_of` l ++ [x] → p `prefix_of` l ∨ p = l ++ [x].
Proof.
  intros [k Hk]. destruct k as [|y k _] using rev_ind.
  - right. by rewrite app_nil_r in Hk.
  - left. rewrite app_assoc in Hk. apply app_inj_tail in Hk as [-> _].
    by exists k.
Qed.

Lemma count_label_snoc d (l : Label) (ids : list string) (x : string) :
  count_label d l (ids ++ [x])
  = (count_label d l ids + if decide (d !! x = Some l) then 1 else 0)%nat.
Proof.
  rewrite count_label_app. f_equal. unfold count_label.
  rewrite filter_cons, filter_nil. by case_decide.
Qed.

Lemma spread_of_counts d labels (r : nat) (seen todo : list Label)
    (ids : list string) :
  (∀ l, l ∈ labels → l ∈ seen ∨ l ∈ todo) →
  (∀ l, l ∈ seen → count_label d l ids = (S r `min` available d l)%nat) →
  (∀ l, l ∈ todo → count_label d l ids = (r `min` available d l)%nat) →
  evenly_spread d labels ids.
Proof.
  intros Hsplit Hdone Htodo. exists r. intros l [Hl|Hl]%Hsplit.
  - rewrite (Hdone l Hl). lia.
  - rewrite (Htodo l Hl). lia.
Qed.

Lemma pop_label_inv d labels (r : nat) (seen todo : list Label) (l : Label) st :
  NoDup labels → labels = seen ++ l :: todo →
  round_inv d labels r seen (l :: todo) st →
  round_inv d labels r (seen ++ [l]) todo (pop_label st l).
Proof.
  intros Hnd Hlabels (Ha & Hb & Hdone & Htodo & Hi & Hperm & Hpre).
  assert (Hl : l ∈ labels).
  { subst labels. apply elem_of_app. right. by left. }
  assert (Hl_done : l ∉ seen).
  { subst labels. apply NoDup_app in Hnd as (_ & Hdisj & _).
    intros Hin. apply (Hdisj l Hin). by left. }
  assert (Hl_todo : l ∉ todo).
  { subst labels. apply NoDup_app in Hnd as (_ & _ & Hnd).
    by apply NoDup_cons in Hnd as [? _]. }
  assert (Hsplit : ∀ k, k ∈ labels → k ∈ seen ++ [l] ∨ k ∈ todo).
  { intros k. subst labels. rewrite !elem_of_app, elem_of_cons, list_elem_of_singleton.
    tauto. }
  pose proof (Htodo l ltac:(by left)) as Hcl. pose proof (Hb l Hl) as Hbl.
  destruct (pop_label_cases st l) as [[Hnil ->]|(x & rest & Hlist & ->)].
  - rewrite Hnil in Hbl. cbn [length] in Hbl.
    split_and!; [done|done| |intros k Hk; apply Htodo; by right|done|done|done].
    intros k [Hk| ->%list_elem_of_singleton]%elem_of_app; [by apply Hdone|]. lia.
  - rewrite Hlist, length_app in Hbl. cbn [length] in Hbl.
    assert (Hx : d !! x = Some l).
    { apply Ha; [done|]. rewrite Hlist. apply elem_of_app. right. by left. }
    assert (Hcount : ∀ k, count_label d k (yielded st ++ [x])
              = (count_label d k (yielded st)
                 + if decide (k = l) then 1 else 0)%nat).
    { intros k. rewrite count_label_snoc, Hx.
      destruct (decide (k = l)) as [->|Hne].
      - by rewrite decide_True.
      - rewrite decide_False; [done|]. congruence. }
    assert (Hdone' : ∀ k, k ∈ seen ++ [l] →
              count_label d k (yielded st ++ [x])
              = (S r `min` available d k)%nat).
    { intros k [Hk| ->%list_elem_of_singleton]%elem_of_app; rewrite Hcount.
      - rewrite decide_False by (intros ->; done). rewrite Hdone by done. lia.
      - rewrite decide_True by done. lia. }
    assert (Htodo' : ∀ k, k ∈ todo →
              count_label d k (yielded st ++ [x])
              = (r `min` available d k)%nat).
    { intros k Hk. rewrite Hcount.
      rewrite decide_False by (intros ->; done).
      rewrite Htodo by (by right). lia. }
    unfold round_inv. cbn [labels_id_strings_lists_dict gen_i yielded].
    split_and!.
    + intros k y Hk. destruct (decide (k = l)) as [->|Hne].
      * rewrite dict_set_eq. intros Hy. apply Ha; [done|]. rewrite Hlist.
        apply elem_of_app. by left.
      * rewrite dict_set_ne by done. by apply Ha.
    + intros k Hk. rewrite Hcount. destruct (decide (k = l)) as [->|Hne].
      * rewrite dict_set_eq. lia.
      * rewrite dict_set_ne by done. rewrite <-(Hb k Hk). lia.
    + done.
    + done.
    + rewrite length_app. cbn [length]. lia.
    + rewrite <-Hperm, <-app_assoc. cbn [app].
      apply Permutation_app_head. symmetry. by apply mjoin_dict_set.
    + intros p [Hp| ->]%prefix_snoc_cases; [by apply Hpre|].
      by apply (spread_of_counts d labels r (seen ++ [l]) todo).
Qed.

Lemma round_fold d labels (r : nat) (todo : list Label) :
  ∀ (seen : list Label) st,
    NoDup labels → labels = seen ++ todo →
    round_inv d labels r seen todo st →
    round_inv d labels r labels [] (foldl pop_label st todo).
Proof.
  induction todo as [|l todo IH]; intros seen st Hnd Hlabels Hinv.
  - rewrite app_nil_r in Hlabels. by subst seen.
  - cbn [foldl]. apply (IH (seen ++ [l])); [done|by rewrite <-app_assoc|].
    by apply pop_label_inv.
Qed.

Lemma round_next d labels (r : nat) st :
  round_inv d labels r labels [] st → round_inv d labels (S r) [] labels st.
Proof.
  intros (Ha & Hb & Hdone & _ & Hi & Hperm & Hpre).
  split_and!; [done|done|by intros l ?%elem_of_nil|done|done|done|done].
Qed.

Lemma pop_label_i st (l : Label) : gen_i st ≤ gen_i (pop_label st l).
Proof.
  destruct (pop_label_cases st l) as [[_ ->]|(x & rest & _ & ->)]; cbn; lia.
Qed.

Lemma foldl_pop_label_i labels : ∀ st, gen_i st ≤ gen_i (foldl pop_label st labels).
Proof.
  induction labels as [|l labels IH]; intros st; cbn [foldl]; [done|].
  etrans; [apply (pop_label_i st l)|apply IH].
Qed.

Lemma round_progress labels :
  ∀ st, (∃ l, l ∈ labels ∧ labels_id_strings_lists_dict st l ≠ []) →
        gen_i st + 1 ≤ gen_i (foldl pop_label st labels).
Proof.
  induction labels as [|k labels IH]; intros st (l & Hl & Hne).
  - by apply elem_of_nil in Hl.
  - cbn [foldl].
    destruct (pop_label_cases st k) as [[Hnil Heq]|(x & rest & _ & Heq)];
      rewrite Heq.
    + apply IH. exists l. split; [|done].
      apply elem_of_cons in Hl as [->|Hl]; [done|done].
    + etrans; [|apply foldl_pop_label_i]. cbn. lia.
Qed.

Lemma distribute_loop_more (fuel : nat) :
  ∀ (fuel' : nat) n labels st st',
    (fuel ≤ fuel')%nat →
    distribute_loop fuel n labels st = Some st' →
    distribute_loop fuel' n labels st = Some st'.
Proof.
  induction fuel as [|fuel IH]; intros fuel' n labels st st' Hle.
  - destruct fuel'; cbn [distribute_loop]; case_decide; done.
  - destruct fuel' as [|fuel']; [lia|]. cbn [distribute_loop].
    case_decide; [|done]. apply IH. lia.
Qed.

Lemma distribute_loop_spec d labels (n : Z) (fuel : nat) :
  NoDup labels →
  n = Z.of_nat (length (mjoin (ids_with_label d <$> labels))) →
  ∀ (r : nat) st,
    round_inv d labels r [] labels st →
    (Z.to_nat (n - gen_i st) ≤ fuel)%nat →
    ∃ st' (r' : nat),
      distribute_loop fuel n labels st = Some st' ∧
      round_inv d labels r' [] labels st' ∧ n ≤ gen_i st'.
Proof.
  intros Hnd Hn. induction fuel as [|fuel IH]; intros r st Hinv Hfuel.
  - exists st, r. cbn [distribute_loop]. rewrite decide_False by lia.
    split_and!; [done|done|lia].
  - cbn [distribute_loop]. case_decide as Hlt.
    + pose proof Hinv as (_ & _ & _ & _ & Hi & Hperm & _).
      assert (Hsome : ∃ l, l ∈ labels ∧ labels_id_strings_lists_dict st l ≠ []).
      { apply Permutation_length in Hperm. rewrite length_app in Hperm.
        destruct (mjoin (labels_id_strings_lists_dict st <$> labels))
          as [|x rest] eqn:Hjoin; [cbn in Hperm; lia|].
        assert (Hx : x ∈ mjoin (labels_id_strings_lists_dict st <$> labels))
          by (rewrite Hjoin; by left).
        apply list_elem_of_join in Hx as (ids & Hx & Hids).
        apply list_elem_of_fmap in Hids as (l & -> & Hl).
        exists l. split; [done|]. intros Hnil. rewrite Hnil in Hx.
        by apply elem_of_nil in Hx. }
      apply round_progress in Hsome.
      apply (IH (S r)); [|lia].
      apply round_next, (round_fold d labels r labels []); done.
    + exists st, r. split_and!; [done|done|lia].
Qed.

Lemma lists_of_snoc d labels (l : Label) :
  lists_of d (labels ++ [l])
  = dict_set (lists_of d labels) l (ids_with_label d l).
Proof. unfold lists_of. by rewrite foldl_app. Qed.

Lemma lists_of_spec d labels (l : Label) :
  lists_of d labels l
  = if decide (l ∈ labels) then ids_with_label d l else [].
Proof.
  induction labels as [|k labels IH] using rev_ind.
  - by rewrite decide_False by apply not_elem_of_nil.
  - rewrite lists_of_snoc. destruct (decide (l = k)) as [->|Hne].
    + rewrite dict_set_eq, decide_True; [done|].
      apply elem_of_app. right. by left.
    + rewrite dict_set_ne, IH by done.
      destruct (decide (l ∈ labels)) as [Hl|Hl].
      * rewrite decide_True; [done|]. apply elem_of_app. by left.
      * rewrite decide_False; [done|].
        intros [?|?%list_elem_of_singleton]%elem_of_app; done.
Qed.

Lemma round_inv_init d labels :
  round_inv d labels 0 [] labels (GenState (lists_of d labels) 0 []).
Proof.
  unfold round_inv. cbn [labels_id_strings_lists_dict gen_i yielded].
  split_and!.
  - intros l x Hl. rewrite lists_of_spec, decide_True by done.
    apply ids_with_label_spec.
  - intros l Hl. by rewrite lists_of_spec, decide_True by done.
  - by intros l ?%elem_of_nil.
  - done.
  - done.
  - cbn [app].
    assert (Heq : lists_of d labels <$> labels = ids_with_label d <$> labels).
    { apply list_fmap_ext. intros i l Hl.
      rewrite lists_of_spec, decide_True; [done|].
      by eapply list_elem_of_lookup_2. }
    by rewrite Heq.
  - intros p Hp. apply prefix_nil_inv in Hp as ->. exists 0%nat.
    intros l _. unfold count_label. cbn. lia.
Qed.

Lemma all_label_ids d labels :
  NoDup labels → (∀ x l, d !! x = Some l → l ∈ labels) →
  mjoin (ids_with_label d <$> labels) ≡ₚ keys d.
Proof.
  intros Hnd Hcover. apply NoDup_Permutation.
  - eapply submseteq_NoDup'; [by apply label_ids_in_keys|apply keys_NoDup].
  - apply keys_NoDup.
  - intros x. split.
    + intros Hx. eapply elem_of_submseteq; [done|by apply label_ids_in_keys].
    + intros [l Hl]%elem_of_keys. apply list_elem_of_join.
      exists (ids_with_label d l). split; [by apply ids_with_label_spec|].
      apply list_elem_of_fmap. exists l. split; [done|]. by eapply Hcover.
Qed.

Lemma distribute_all d labels :
  NoDup labels → (∀ x l, d !! x = Some l → l ∈ labels) →
  ∃ st,
    (∀ fuel, (size d ≤ fuel)%nat →
       distribute_loop fuel (Z.of_nat (size d)) labels
         (GenState (lists_of d labels) 0 []) = Some st) ∧
    yielded st ≡ₚ keys d ∧
    ∀ p, p `prefix_of` yielded st → evenly_spread d labels p.
Proof.
  intros Hnd Hcover. pose proof (all_label_ids d labels Hnd Hcover) as Hall.
  assert (Hn : Z.of_nat (size d)
               = Z.of_nat (length (mjoin (ids_with_label d <$> labels)))).
  { rewrite (Permutation_length Hall). unfold keys.
    by rewrite length_fmap, length_map_to_list. }
  destruct (distribute_loop_spec d labels (Z.of_nat (size d)) (size d) Hnd Hn
              0%nat (GenState (lists_of d labels) 0 []) (round_inv_init d labels))
    as (st & r & Hloop & Hinv & Hdone); [cbn; lia|].
  exists st. destruct Hinv as (_ & _ & _ & _ & Hi & Hperm & Hpre).
  split_and!; [|
    |done].
  - intros fuel Hfuel. by eapply distribute_loop_more.
  - rewrite <-Hall, <-Hperm.
    pose proof (Permutation_length Hperm) as Hlen.
    rewrite length_app in Hlen.
    destruct (mjoin (labels_id_strings_lists_dict st <$> labels)) as [|x rest];
      [by rewrite app_nil_r|cbn [length] in Hlen; lia].
Qed.
Section Store.
Context (store : string → Externals Label).

(** X12.  [evenly_distribute_samples] terminates and yields every
    identifier of the dictionary exactly once: for a valid [partition]
    and transformation arguments, when [distributional_info] returns
    [(d, fd)], as many rounds of the [while] loop as [d] has
    identifiers are enough, and the identifiers yielded are a
    permutation of the keys of [d]. *)
Theorem evenly_distribute_samples_all (games : list string)
    (partition : string) (bin_ranges : list Datasets.bin_range)
    (lognormal : bool) (power_transform : option Qc)
    (d : gmap string Label) (fd : FreqDist Label) :
  partition ∈ ["test"; "train"; "all"] →
  lognormal && truthy_float power_transform = false →
  distributional_info (Externals0 := store partition)
    (Kwargs power_transform lognormal bin_ranges 50) games = Ok (d, fd) →
  ∃ ys,
    (∀ fuel, (size d ≤ fuel)%nat →
       evenly_distribute_samples store fuel games partition bin_ranges
         lognormal power_transform = Ok (Some ys)) ∧
    ys ≡ₚ keys d.
Proof.
  intros Hpart Htr Hdist.
  destruct (distributional_info_labels _ _ _ _ Hdist) as [Hnd Hcover].
  destruct (distribute_all d fd.*1 Hnd Hcover) as (st & Hloop & Hperm & _).
  exists (yielded st). split; [|done]. intros fuel Hfuel.
  unfold evenly_distribute_samples.
  assert (Hp : bool_decide (partition ≠ "test")
               && negb (bool_decide (partition ∈ ["train"; "all"])) = false).
  { apply andb_false_iff.
    apply elem_of_cons in Hpart as [->|Hpart].
    - left. apply bool_decide_eq_false. by intros ?.
    - right. apply negb_false_iff, bool_decide_eq_true. done. }
  rewrite Hp, Htr, Hdist. run_bind. cbn [fst snd].
  by rewrite (Hloop fuel Hfuel).
Qed.

(** X13.  [evenly_distribute_samples] yields round robin: at every
    point of the iteration, a label has given at most one identifier
    more than any other label that still has identifiers to give. *)
Theorem evenly_distribute_samples_round_robin (fuel : nat)
    (games : list string) (partition : string)
    (bin_ranges : list Datasets.bin_range) (lognormal : bool)
    (power_transform : option Qc) (ys : list string) :
  evenly_distribute_samples store fuel games partition bin_ranges
    lognormal power_transform = Ok (Some ys) →
  ∃ d fd,
    distributional_info (Externals0 := store partition)
      (Kwargs power_transform lognormal bin_ranges 50) games = Ok (d, fd) ∧
    ∀ p l l', p `prefix_of` ys → l ∈ fd.*1 → l' ∈ fd.*1 →
      (count_label d l p ≤ S (count_label d l' p))%nat
      ∨ count_label d l' p = available d l'.
Proof.
  unfold evenly_distribute_samples.
  destruct (_ && _); [done|]. destruct (_ && _); [done|].
  intros ([d fd] & Hdist & Hrest)%bind_Ok. cbn [fst snd] in Hrest.
  exists d, fd. split; [done|].
  destruct (distributional_info_labels _ _ _ _ Hdist) as [Hnd Hcover].
  destruct (distribute_all d fd.*1 Hnd Hcover) as (st & Hloop & _ & Hpre).
  destruct (distribute_loop fuel _ _ _) as [st'|] eqn:Hfuel; [|done].
  injection Hrest as <-.
  assert (st' = st) as ->.
  { pose proof (distribute_loop_more fuel (fuel `max` size d) _ _ _ _
                  ltac:(lia) Hfuel) as H1.
    rewrite (Hloop (fuel `max` size d)%nat) in H1 by lia. congruence. }
  intros p l l' Hp Hl Hl'. destruct (Hpre p Hp) as [r Hr].
  destruct (Hr l Hl) as [_ Hup]. destruct (Hr l' Hl') as [Hlow Hup']. lia.
Qed.
End Store.
End Facts.

Import Corpus.

Lemma evenly_distribute_samples_all_witness :
  ∃ ys,
    evenly_distribute_samples (λ _, externals corpus_6_6) 12 ["Dota_2"]
      "test" [] false None = Ok (Some ys) ∧
    ys ≡ₚ keys (dict_of corpus_6_6).
Proof.
  destruct (evenly_distribute_samples_all (λ _, externals corpus_6_6)
              ["Dota_2"] "test" [] false None
              (dict_of corpus_6_6) (fdist_of corpus_6_6))
    as (ys & Hrun & Hperm).
  - compute_done.
  - reflexivity.
  - exact eq_refl.
  - exists ys. split; [|exact Hperm]. apply Hrun. compute_done.
Defined.

Lemma evenly_distribute_samples_round_robin_witness :
  ∃ ys,
    evenly_distribute_samples (λ _, externals corpus_90_10) 100 ["Dota_2"]
      "all" [] false None = Ok (Some ys) ∧
    ∀ p, p `prefix_of` ys →
         (count_label (dict_of corpus_90_10) "A" p
          ≤ S (count_label (dict_of corpus_90_10) "B" p))%nat
         ∨ count_label (dict_of corpus_90_10) "B" p
           = available (dict_of corpus_90_10) "B".
Proof.
  destruct (evenly_distribute_samples (λ _, externals corpus_90_10) 100
              ["Dota_2"] "all" [] false None) as [[ys|]|e] eqn:Hrun;
    [|by vm_compute in Hrun..].
  destruct (evenly_distribute_samples_round_robin _ _ _ _ _ _ _ _ Hrun)
    as (d & fd & Hdist & Heven).
  assert (Hd : distributional_info (Externals0 := externals corpus_90_10)
                 (Kwargs None false [] 50) ["Dota_2"]
               = Ok (dict_of corpus_90_10, fdist_of corpus_90_10))
    by exact eq_refl.
  rewrite Hd in Hdist. injection Hdist as <- <-.
  exists ys. split; [reflexivity|]. intros p Hp.
  apply (Heven p "A" "B" Hp); compute_done.
Defined.
End SamplingFacts.

(** ** [fit_preds_in_scale] *)

Module PredictionsFacts.
Import Predictions.







End PredictionsFacts.

(** ** [get_label_in_doc], [get_all_features] and [get_data_point] *)

Module FeaturesFacts.
Import Features.

Lemma outcome_bind_Return {A B} (r : outcome A) (k : A → outcome B) (b : B) :
  (r ≫= k) = Return b → ∃ a, r = Return a ∧ k a = Return b.
Proof. destruct r as [a|e]; [|done]. intros H. by exists a. Qed.

Lemma kept_truthy (v : pyval) : kept v = true ↔ truthy v = true.
Proof. unfold kept, differs_from_nan. by rewrite andb_true_r. Qed.

Lemma truthy_not_None (v : pyval) : truthy v = true → is_not_None v = true.
Proof. by destruct v as [[]|]. Qed.
Section Facts.
Context (LABELS : list string).
Context (BSON_decode : option pyval → outcome (gmap string pyval)).
Context (compute_label_value :
           pyval → string → bool → option Qc → list Datasets.bin_range
           → outcome pyval).

Implicit Types (review_doc feature_dict : gmap string pyval).

Lemma label_features_lookup (d : gmap string pyval) feat val :
  label_features LABELS d !! feat = Some val
  ↔ d !! feat = Some val ∧ feat ∈ LABELS ∧ truthy val = true.
Proof.
  unfold label_features. rewrite map_lookup_filter_Some. cbn [fst snd].
  by rewrite kept_truthy.
Qed.

Lemma get_all_features_spec review_doc prediction_label nlp_features features :
  get_all_features LABELS BSON_decode review_doc prediction_label nlp_features
  = Return (Some features) →
  features !! "id_string"
  = Some (default (Atom ANone) (review_doc !! "id_string")) ∧
  (prediction_label ≠ "id_string" →
   ∃ v, features !! prediction_label = Some v ∧ truthy v = true) ∧
  ∀ feat val, feat ≠ "id_string" → features !! feat = Some val →
    truthy val = true ∧ collected LABELS BSON_decode review_doc nlp_features feat val.
Proof.
  unfold get_all_features.
  intros (f1 & Hnlp & Hrest)%outcome_bind_Return.
  apply outcome_bind_Return in Hrest as (ach & Hach & Hrest).
  set (f3 := update (label_features LABELS ach)
               (update (label_features LABELS review_doc) f1)) in *.
  destruct (negb _) eqn:Hlabel; [done|]. injection Hrest as <-.
  assert (Hf1 : ∀ feat val, f1 !! feat = Some val →
            truthy val = true ∧
            collected LABELS BSON_decode review_doc nlp_features feat val).
  { intros feat val Hf. destruct nlp_features.
    - apply outcome_bind_Return in Hnlp as (decoded & Hdec & [= <-]).
      unfold update in Hf. rewrite (right_id_L ∅ (∪)) in Hf.
      apply map_lookup_filter_Some in Hf as [Hf Hk]. cbn in Hk.
      split; [by apply kept_truthy|]. left. split; [done|]. by exists decoded.
    - injection Hnlp as <-. by rewrite lookup_empty in Hf. }
  assert (Hf3 : ∀ feat val, f3 !! feat = Some val →
            truthy val = true ∧
            collected LABELS BSON_decode review_doc nlp_features feat val).
  { intros feat val. unfold f3, update.
    intros [Ha|[_ [Hd|[_ Hf]]%lookup_union_Some_raw]]%lookup_union_Some_raw.
    - apply label_features_lookup in Ha as (Ha & Hl & Ht). split; [done|].
      right. right. split; [done|].
      destruct (review_doc !! "achievement_progress") as [[a|a]|] eqn:Hdoc;
        cbn in Hach; [done| |].
      + injection Hach as <-. exists a. split; [done|].
        by rewrite <-lookup_fmap.
      + injection Hach as <-. by rewrite fmap_empty, lookup_empty in Ha.
    - apply label_features_lookup in Hd as (Hd & Hl & Ht). split; [done|].
      right. left. done.
    - by apply Hf1. }
  unfold update.
  assert (Hother : ∀ feat, feat ≠ "id_string" →
            ({["id_string" :=
                 default (Atom ANone) (review_doc !! "id_string")]} ∪ f3)
            !! feat = f3 !! feat).
  { intros feat Hne. apply lookup_union_r. by rewrite lookup_singleton_ne. }
  split_and!.
  - apply lookup_union_Some_raw. left. apply lookup_singleton_eq.
  - intros Hne. apply negb_false_iff in Hlabel.
    destruct (f3 !! prediction_label) as [v|] eqn:Hv; [|done].
    exists v. by rewrite (Hother _ Hne).
  - intros feat val Hne. rewrite (Hother _ Hne). apply Hf3.
Qed.

Lemma drop_label_features_lookup (non_nlp_features : list string)
    (labels : list string) :
  ∀ feature_dict feat val,
    foldl (drop_label_feature non_nlp_features) feature_dict labels !! feat
    = Some val →
    feature_dict !! feat = Some val ∧
    (feat ∈ labels → feat ∈ non_nlp_features ∨ is_not_None val = false).
Proof.
  induction labels as [|l labels IH]; intros feature_dict feat val.
  - cbn. intros Hf. split; [done|]. by intros ?%elem_of_nil.
  - cbn [foldl]. intros [Hf Hl]%IH. unfold drop_label_feature in Hf.
    destruct (negb _ && _) eqn:Hdrop.
    + apply lookup_delete_Some in Hf as [Hne Hf]. split; [done|].
      intros [->|Hin]%elem_of_cons; [done|by apply Hl].
    + split; [done|]. intros [->|Hin]%elem_of_cons; [|by apply Hl].
      rewrite Hf in Hdrop. cbn in Hdrop.
      apply andb_false_iff in Hdrop as [Hd|Hd]; [left|by right].
      by apply negb_false_iff, bool_decide_eq_true in Hd.
Qed.

Lemma get_data_point_parts (review_doc : gmap string pyval)
    (prediction_label : string) (nlp_features : bool)
    (non_nlp_features : list string) (lognormal : bool)
    (power_transform : option Qc) (bin_ranges : list Datasets.bin_range)
    (p : data_point) :
  get_data_point LABELS BSON_decode compute_label_value review_doc
    prediction_label nlp_features non_nlp_features lognormal
    power_transform bin_ranges = Return (Some p) →
  ∃ features v,
    get_all_features LABELS BSON_decode review_doc prediction_label
      nlp_features = Return (Some features) ∧
    prediction_label ≠ "id_string" ∧
    features !! prediction_label = Some v ∧
    compute_label_value v prediction_label lognormal power_transform
      bin_ranges = Return (dp_y p) ∧
    features !! "id_string" = Some (dp_id p) ∧
    dp_x p = foldl (drop_label_feature non_nlp_features)
               (delete "id_string" (delete prediction_label features))
               LABELS ∧
    dp_x p ≠ ∅.
Proof.
  unfold get_data_point.
  intros ([features|] & Hall & Hrest)%outcome_bind_Return; [|done].
  case_decide; [done|].
  apply outcome_bind_Return in Hrest as (v & Hv & Hrest).
  apply outcome_bind_Return in Hrest as (y & Hy & Hrest).
  apply outcome_bind_Return in Hrest as (f1 & Hf1 & Hrest).
  apply outcome_bind_Return in Hrest as (id & Hidv & Hrest).
  apply outcome_bind_Return in Hrest as (f2 & Hf2 & Hrest).
  case_decide as Hempty; [done|]. injection Hrest as <-.
  cbn [dp_x dp_id dp_y].
  unfold getitem in Hv.
  destruct (features !! prediction_label) as [v'|] eqn:Hlv; [|done].
  injection Hv as ->.
  unfold delitem in Hf1. rewrite Hlv in Hf1. injection Hf1 as <-.
  unfold getitem in Hidv.
  destruct (delete prediction_label features !! "id_string") as [id'|]
    eqn:Hdid; [|done].
  injection Hidv as ->.
  unfold delitem in Hf2. rewrite Hdid in Hf2. injection Hf2 as <-.
  apply lookup_delete_Some in Hdid as [Hne Hdid].
  by exists features, v.
Qed.

(** X15.  A data point that [get_data_point] returns never leaks the
    label: its features [x] hold neither the prediction label nor
    [id_string], nor any of [LABELS] that was not asked for through
    [non_nlp_features]; [x] is not empty; every feature of [x] has a
    true value and was collected from the decoded NLP features, the
    document or its [achievement_progress]; [id] is the [id_string]
    of the document ([None] when it has none) and [y] is
    [compute_label_value] applied to a true value collected for the
    prediction label. *)
Theorem data_point_excludes_label (review_doc : gmap string pyval)
    (prediction_label : string) (nlp_features : bool)
    (non_nlp_features : list string) (lognormal : bool)
    (power_transform : option Qc) (bin_ranges : list Datasets.bin_range)
    (p : data_point) :
  get_data_point LABELS BSON_decode compute_label_value review_doc
    prediction_label nlp_features non_nlp_features lognormal
    power_transform bin_ranges = Return (Some p) →
  dp_x p !! prediction_label = None ∧
  dp_x p !! "id_string" = None ∧
  (∀ feat, feat ∈ LABELS → feat ∉ non_nlp_features →
           dp_x p !! feat = None) ∧
  dp_x p ≠ ∅ ∧
  (∀ feat val, dp_x p !! feat = Some val →
     truthy val = true ∧
     collected LABELS BSON_decode review_doc nlp_features feat val) ∧
  dp_id p = default (Atom ANone) (review_doc !! "id_string") ∧
  ∃ v, truthy v = true ∧
       collected LABELS BSON_decode review_doc nlp_features
         prediction_label v ∧
       compute_label_value v prediction_label lognormal power_transform
         bin_ranges = Return (dp_y p).
Proof.
  intros (features & v & Hall & Hne & Hlv & Hy & Hidv & Hx & Hempty)
    %get_data_point_parts.
  destruct (get_all_features_spec _ _ _ _ Hall) as (Hid & Hlabel & Hfeat).
  assert (Hin : ∀ feat val, dp_x p !! feat = Some val →
            feat ≠ "id_string" ∧ feat ≠ prediction_label ∧
            features !! feat = Some val ∧
            (feat ∈ LABELS →
             feat ∈ non_nlp_features ∨ is_not_None val = false)).
  { intros feat val. rewrite Hx. intros [Hf Hl]%drop_label_features_lookup.
    apply lookup_delete_Some in Hf as [Hne1 Hf].
    apply lookup_delete_Some in Hf as [Hne2 Hf]. done. }
  split_and!.
  - destruct (dp_x p !! prediction_label) as [val|] eqn:Hl; [|done].
    by apply Hin in Hl as (_ & ? & _).
  - destruct (dp_x p !! "id_string") as [val|] eqn:Hl; [|done].
    by apply Hin in Hl as (? & _).
  - intros feat Hlab Hnot.
    destruct (dp_x p !! feat) as [val|] eqn:Hl; [|done].
    apply Hin in Hl as (Hne1 & _ & Hf & Hcase).
    destruct (Hcase Hlab) as [?|Hnone]; [done|].
    apply Hfeat in Hf as [Ht _]; [|done].
    apply truthy_not_None in Ht. congruence.
  - done.
  - intros feat val (Hne1 & _ & Hf & _)%Hin. by apply Hfeat.
  - rewrite Hid in Hidv. by injection Hidv as <-.
  - exists v. destruct (Hfeat prediction_label v) as [Ht Hc]; done.
Qed.

(** X16.  [get_data_point] and [get_label_in_doc] agree on the label:
    for a label of [LABELS] that no decoded NLP feature is named
    after and that is not stored both in the document and, with a
    true value, in its [achievement_progress], the [y] of the data
    point is [compute_label_value] applied to what
    [get_label_in_doc] returns for the document. *)
Theorem data_point_label_agrees (review_doc : gmap string pyval)
    (prediction_label : string) (nlp_features : bool)
    (non_nlp_features : list string) (lognormal : bool)
    (power_transform : option Qc) (bin_ranges : list Datasets.bin_range)
    (p : data_point) :
  prediction_label ∈ LABELS →
  (nlp_features = true →
   ∀ decoded, BSON_decode (review_doc !! "nlp_features") = Return decoded →
              decoded !! prediction_label = None) →
  (∀ a v, review_doc !! "achievement_progress" = Some (Dict a) →
          a !! prediction_label = Some v → truthy_atom v = true →
          review_doc !! prediction_label = None) →
  get_data_point LABELS BSON_decode compute_label_value review_doc
    prediction_label nlp_features non_nlp_features lognormal
    power_transform bin_ranges = Return (Some p) →
  ∃ v, get_label_in_doc LABELS review_doc prediction_label = Return v ∧
       compute_label_value v prediction_label lognormal power_transform
         bin_ranges = Return (dp_y p).
Proof.
  intros Hlab Hnlp Hone
    (features & v & Hall & Hne & Hlv & Hy & _)%get_data_point_parts.
  destruct (get_all_features_spec _ _ _ _ Hall) as (_ & _ & Hfeat).
  destruct (Hfeat prediction_label v Hne Hlv) as [Ht Hc].
  exists v. split; [|done]. unfold get_label_in_doc.
  rewrite bool_decide_eq_true_2 by done. cbn [negb].
  destruct Hc as [[Hyes (decoded & Hdec & Hd)]|[[_ Hdoc]|[_ (a & Ha & Hv)]]].
  - by rewrite (Hnlp Hyes decoded Hdec) in Hd.
  - by rewrite Hdoc.
  - rewrite <-lookup_fmap in Hv. rewrite lookup_fmap in Hv.
    destruct (a !! prediction_label) as [w|] eqn:Hw; [|done].
    injection Hv as <-. rewrite (Hone a w Ha Hw Ht), Ha. cbn.
    rewrite bool_decide_eq_true_2 by by rewrite Hw.
    by rewrite Hw.
Qed.
End Facts.

Lemma data_point_excludes_label_witness :
  ∃ p, get_data_point LABELS_3 decode_stored label_unchanged review_doc_1
         "total_game_hours" true ["num_reviews"] false None []
       = Return (Some p) ∧
       dp_x p !! "total_game_hours" = None ∧
       dp_x p !! "num_achievements_attained" = None ∧
       dp_x p ≠ ∅.
Proof.
  destruct (get_data_point LABELS_3 decode_stored label_unchanged
              review_doc_1 "total_game_hours" true ["num_reviews"] false
              None []) as [[p|]|e] eqn:H; [|by vm_compute in H..].
  destruct (data_point_excludes_label _ _ _ _ _ _ _ _ _ _ _ H)
    as (Hlabel & _ & Hdrop & Hne & _).
  exists p. split; [exact eq_refl|]. split; [exact Hlabel|].
  split; [|exact Hne]. apply Hdrop; compute_done.
Defined.

Lemma data_point_label_agrees_witness :
  ∃ p v,
    get_data_point LABELS_3 decode_stored label_unchanged review_doc_1
      "num_achievements_attained" true [] false None []
    = Return (Some p) ∧
    get_label_in_doc LABELS_3 review_doc_1 "num_achievements_attained"
    = Return v ∧
    label_unchanged v "num_achievements_attained" false None []
    = Return (dp_y p).
Proof.
  destruct (get_data_point LABELS_3 decode_stored label_unchanged
              review_doc_1 "num_achievements_attained" true [] false
              None []) as [[p|]|e] eqn:H; [|by vm_compute in H..].
  destruct (data_point_label_agrees LABELS_3 decode_stored label_unchanged
              review_doc_1 "num_achievements_attained" true [] false None
              [] p) as (v & Hv & Hy).
  - compute_done.
  - intros _ decoded Hd. vm_compute in Hd. injection Hd as <-.
    exact eq_refl.
  - intros a v _ _ _. exact eq_refl.
  - exact H.
  - exists p, v. split; [exact eq_refl|]. split; [exact Hv|exact Hy].
Defined.
End FeaturesFacts.

(** ** The weights of a model *)

Module WeightsFacts.
Import Weights ExperimentsFacts.

Lemma insert_desc_perm {A} (key : A → Qc) (x : A) (l : list A) :
  insert_desc key x l ≡ₚ x :: l.
Proof.
  induction l as [|y l IH]; [done|]. cbn [insert_desc].
  case_decide; [done|]. rewrite IH. apply Permutation_swap.
Qed.

Lemma sorted_desc_by_perm {A} (key : A → Qc) (l : list A) :
  sorted_desc_by key l ≡ₚ l.
Proof.
  induction l as [|x l IH]; [done|]. cbn [sorted_desc_by foldr].
  rewrite insert_desc_perm. by f_equiv.
Qed.

Lemma insert_desc_sorted {A} (key : A → Qc) (x : A) (l : list A) :
  Sorted (λ a b, key b ≤ key a)%Qc l →
  Sorted (λ a b, key b ≤ key a)%Qc (insert_desc key x l).
Proof.
  induction 1 as [|y l Hs IH Hhd]; cbn [insert_desc].
  - by repeat constructor.
  - case_decide as Hle.
    + constructor; [by constructor|by constructor].
    + apply Qcnot_le_lt, Qclt_le_weak in Hle. constructor; [done|].
      destruct l as [|z l]; cbn [insert_desc]; [by constructor|].
      case_decide; constructor; [done|].
      by inversion Hhd.
Qed.

Lemma sorted_desc_by_sorted {A} (key : A → Qc) (l : list A) :
  Sorted (λ a b, key b ≤ key a)%Qc (sorted_desc_by key l).
Proof.
  induction l as [|x l IH]; [constructor|]. by apply insert_desc_sorted.
Qed.
Section Facts.
Context {Label : Type}.
Implicit Types (classes : list Label).

Lemma coef_indices_spec (coef_ : list (list Qc)) classes (index : nat) (coefs : list Qc) :
  coef_indices coef_ classes index = Some coefs ↔
  length coefs = length classes ∧
  ∀ i, (i < length classes)%nat → coef_at coef_ i index = coefs !! i.
Proof.
  unfold coef_indices. rewrite mapM_Some. split.
  - intros Hall. pose proof (Forall2_length _ _ _ Hall) as Hlen.
    rewrite length_seq in Hlen. split; [done|]. intros i Hi.
    destruct (coefs !! i) as [w|] eqn:Hw.
    + eapply Forall2_lookup_lr in Hall; [exact Hall| |exact Hw].
      by apply lookup_seq.
    + apply lookup_ge_None in Hw. lia.
  - intros [Hlen Hall]. apply Forall2_same_length_lookup.
    split; [by rewrite length_seq|].
    intros i j w [-> Hi]%lookup_seq Hw. cbn. by rewrite Hall.
Qed.

Lemma collect_coefs_spec (coef_ : list (list Qc)) classes (feature_names : list string) :
  ∀ (index : nat) feature_coefs,
    collect_coefs coef_ classes index feature_names = Ok feature_coefs →
    length feature_coefs = length feature_names ∧
    ∀ (j : nat) coefs, feature_coefs !! j = Some coefs →
      feature_names !! j = Some coefs.1 ∧
      length coefs.2 = length classes ∧
      ∀ (i : nat) label weight,
        coefs.2 !! i = Some (label, weight) ↔
        classes !! i = Some label ∧
        coef_at coef_ i (index + j) = Some weight.
Proof.
  induction feature_names as [|feat rest IH]; intros index feature_coefs.
  - intros [= <-]. split; [done|]. by intros j coefs ?.
  - cbn [collect_coefs].
    destruct (coef_indices coef_ classes index) as [ws|] eqn:Hws; [|done].
    intros (tl & Htl & [= <-])%bind_Ok.
    apply IH in Htl as [Hlen Htl].
    apply coef_indices_spec in Hws as [Hwlen Hws].
    split; [cbn; by rewrite Hlen|].
    intros [|j] coefs Hj.
    + injection Hj as <-. cbn [fst snd]. split_and!; [done| |].
      * rewrite length_zip_with. lia.
      * intros i label weight. rewrite Nat.add_0_r, lookup_zip_with_Some.
        split.
        -- intros (l & w & [= -> ->] & Hl & Hw). split; [done|].
           rewrite Hws; [done|]. by eapply lookup_lt_Some.
        -- intros [Hl Hw]. exists label, weight. split_and!; [done..|].
           rewrite <-Hws; [done|]. by eapply lookup_lt_Some.
    + cbn in Hj. destruct (Htl j coefs Hj) as (Hname & Hl & Hi).
      split_and!; [done|done|]. intros i label weight.
      replace (index + S j)%nat with (S index + j)%nat by lia. apply Hi.
Qed.


Lemma elem_of_weights_of_class
    (feature_coefs : list (string * list (Label * Qc))) (i : nat)
    (x : feature_weight Label) :
  x ∈ weights_of_class feature_coefs i ↔
  fw_weight x ≠ 0%Qc ∧
  ∃ coefs, coefs ∈ feature_coefs ∧ fw_feature x = coefs.1 ∧
           coefs.2 !! (i - 1)%nat = Some (fw_label x, fw_weight x).
Proof.
  unfold weights_of_class. rewrite list_elem_of_join. split.
  - intros (l & Hx & (coefs & -> & Hin)%list_elem_of_fmap).
    destruct (coefs.2 !! (i - 1)%nat) as [[label weight]|] eqn:Hl;
      [|by apply elem_of_nil in Hx].
    case_decide as Hw; [|by apply elem_of_nil in Hx].
    apply list_elem_of_singleton in Hx as ->. cbn. split; [done|].
    by exists coefs.
  - intros (Hw & coefs & Hin & Hfeat & Hl). eexists. split.
    2: { apply list_elem_of_fmap. by exists coefs. }
    cbn. rewrite Hl, decide_True by done. apply list_elem_of_singleton.
    destruct x; cbn in *. by subst.
Qed.

Lemma collect_coefs_complete (coef_ : list (list Qc)) classes
    (feature_names : list string) feature_coefs :
  collect_coefs coef_ classes 0 feature_names = Ok feature_coefs →
  ∀ i j : nat, (i < length classes)%nat → (j < length feature_names)%nat →
    ∃ coefs label weight,
      feature_coefs !! j = Some coefs ∧ feature_names !! j = Some coefs.1 ∧
      classes !! i = Some label ∧ coefs.2 !! i = Some (label, weight) ∧
      coef_at coef_ i j = Some weight.
Proof.
  intros [Hlen Hspec]%collect_coefs_spec i j Hi Hj.
  destruct (lookup_lt_is_Some_2 feature_coefs j) as [coefs Hc]; [lia|].
  destruct (Hspec j coefs Hc) as (Hname & Hl & Hiff).
  destruct (lookup_lt_is_Some_2 coefs.2 i) as [[label weight] Hp]; [lia|].
  exists coefs, label, weight. apply Hiff in Hp as Hp'. cbn in Hp'.
  destruct Hp'. done.
Qed.

Lemma elem_of_features (coef_ : list (list Qc)) classes
    (feature_names : list string) feature_coefs :
  collect_coefs coef_ classes 0 feature_names = Ok feature_coefs →
  ∀ feat label weight,
    FeatureWeight feat label weight
    ∈ mjoin (weights_of_class feature_coefs <$> seq 1 (length classes)) ↔
    weight ≠ 0%Qc ∧
    ∃ i j : nat, classes !! i = Some label ∧
                 feature_names !! j = Some feat ∧
                 coef_at coef_ i j = Some weight.
Proof.
  intros Hfc feat label weight.
  pose proof (collect_coefs_spec _ _ _ _ _ Hfc) as [Hlen Hspec].
  pose proof (collect_coefs_complete _ _ _ _ Hfc) as Hall.
  rewrite list_elem_of_join. split.
  - intros (l & Hx & (i & -> & [Hi1 Hi2]%elem_of_seq)%list_elem_of_fmap).
    apply elem_of_weights_of_class in Hx as (Hw & coefs & Hin & Hfeat & Hl).
    cbn in Hw, Hfeat, Hl. split; [done|].
    apply list_elem_of_lookup in Hin as [j Hj].
    destruct (Hspec j coefs Hj) as (Hname & _ & Hiff).
    apply Hiff in Hl as [Hclass Hcoef].
    exists (i - 1)%nat, j. by rewrite Hfeat.
  - intros (Hw & i & j & Hclass & Hname & Hcoef).
    destruct (Hall i j) as (coefs & label' & weight' & Hc & Hn & Hcl & Hp & Hco);
      [by eapply lookup_lt_Some..|].
    exists (weights_of_class feature_coefs (S i)). split.
    + apply elem_of_weights_of_class. cbn. split; [done|].
      exists coefs. split_and!.
      * by eapply list_elem_of_lookup_2.
      * congruence.
      * rewrite Nat.sub_0_r. rewrite Hp. congruence.
    + apply list_elem_of_fmap. exists (S i). split; [done|].
      apply elem_of_seq. apply lookup_lt_Some in Hclass. lia.
Qed.

(** X17.  When [get_sorted_features_for_learner] returns, the learner
    is not one of the [NO_INTROSPECTION_LEARNERS], [coef_] has a
    coefficient for every pair of a class and a feature name, and the
    list returned holds exactly the triples of a feature, a class and
    their coefficient whose coefficient is not zero, by decreasing
    absolute value of the coefficient. *)
Theorem sorted_features_spec (no_introspection : bool)
    (coef_ : list (list Qc)) (classes : list Label)
    (feature_names : list string) (fs : list (feature_weight Label)) :
  get_sorted_features_for_learner no_introspection coef_ classes
    feature_names = Ok fs →
  Sorted (λ a b, Qc_abs (fw_weight b) ≤ Qc_abs (fw_weight a))%Qc fs ∧
  (∀ feat label weight,
     FeatureWeight feat label weight ∈ fs ↔
     weight ≠ 0%Qc ∧
     ∃ i j : nat, classes !! i = Some label ∧
                  feature_names !! j = Some feat ∧
                  coef_at coef_ i j = Some weight) ∧
  no_introspection = false ∧
  ∀ i j : nat, (i < length classes)%nat → (j < length feature_names)%nat →
               is_Some (coef_at coef_ i j).
Proof.
  unfold get_sorted_features_for_learner.
  destruct no_introspection; [done|].
  intros (fc & Hfc & [= <-])%bind_Ok.
  split_and!; [apply sorted_desc_by_sorted| |done|].
  - intros feat label weight. rewrite sorted_desc_by_perm.
    by apply elem_of_features.
  - intros i j Hi Hj.
    destruct (collect_coefs_complete _ _ _ _ Hfc i j Hi Hj)
      as (_ & _ & weight & _ & _ & _ & _ & ->).
    by eexists.
Qed.

End Facts.

Lemma sorted_features_spec_witness :
  ∃ fs : list (feature_weight Z),
    get_sorted_features_for_learner false
      [[frac 1 2; Z2Qc 0]; [Z2Qc (-2); Z2Qc 1]] [1; 2] ["a"; "b"] = Ok fs ∧
    Sorted (λ a b, Qc_abs (fw_weight b) ≤ Qc_abs (fw_weight a))%Qc fs ∧
    (FeatureWeight "b" 1 (Z2Qc 0) ∈ fs ↔
     Z2Qc 0 ≠ 0%Qc ∧
     ∃ i j : nat, [1; 2] !! i = Some 1 ∧ ["a"; "b"] !! j = Some "b" ∧
                  coef_at [[frac 1 2; Z2Qc 0]; [Z2Qc (-2); Z2Qc 1]] i j
                  = Some (Z2Qc 0)).
Proof.
  destruct (get_sorted_features_for_learner false
              [[frac 1 2; Z2Qc 0]; [Z2Qc (-2); Z2Qc 1]] [1; 2] ["a"; "b"])
    as [fs|e] eqn:H; [|by vm_compute in H].
  destruct (sorted_features_spec _ _ _ _ _ H) as (Hsorted & Hmem & _).
  exists fs. split; [exact eq_refl|]. split; [exact Hsorted|]. apply Hmem.
Defined.
End WeightsFacts.

(** ** [write_arff_file] *)

Module ArffFacts.
Import Datasets DatasetsFacts NumberFacts BinsFacts Arff.

Lemma remove_chars_filter (bad : list Ascii.ascii) (s : string) :
  String.list_ascii_of_string (remove_chars bad s)
  = filter (λ c, c ∉ bad) (String.list_ascii_of_string s).
Proof.
  induction s as [|a s IH]; [done|].
  cbn [remove_chars String.list_ascii_of_string]. rewrite filter_cons.
  destruct (decide (a ∈ bad)) as [Hin|Hout].
  - by rewrite decide_False by (by intros Hn; apply Hn).
  - rewrite decide_True by done. cbn [String.list_ascii_of_string].
    by rewrite IH.
Qed.


Section Facts.
Context (lower : string → string).
Context (strftime : nat → string).
Context (str_of_list : list string → string).
Context (str_of_float : Qc → string).
Context (find : string → list string → list game_doc).

(** X19.  The two substitutions [write_arff_file] applies to a review
    amount to one filter: the text written between double quotes is
    the lower-cased review without its single quotes, double quotes
    and backslashes, every other character kept in order; so a review
    cannot close the quoted field. *)
Theorem clean_review_filter (review : string) :
  String.list_ascii_of_string (clean_review lower review)
  = filter (λ c, c ∉ [single_quote; double_quote; backslash])
      (String.list_ascii_of_string (lower review)).
Proof.
  unfold clean_review. rewrite !remove_chars_filter, list_filter_filter.
  apply list_filter_iff. intros c. split.
  - intros [Hb Hq] [->|Hin]%elem_of_cons.
    + apply Hq. by left.
    + apply elem_of_cons in Hin as [->|Hin].
      * apply Hq. apply elem_of_cons. right. by left.
      * apply Hb. done.
  - intros Hc. split.
    + intros ->%list_elem_of_singleton. apply Hc.
      do 2 (apply elem_of_cons; right). by left.
    + intros [->|Hin]%elem_of_cons.
      * apply Hc. by left.
      * apply list_elem_of_singleton in Hin as ->. apply Hc.
        apply elem_of_cons. right. by left.
Qed.


Lemma write_partition_cases (dest_path : string) (file_names : list string)
    (_file_names : string) (bins : bins_arg)
    (files : list (string * string)) (partition : string) :
  (find partition file_names = [] ∧
   write_partition lower strftime str_of_float find
      dest_path file_names _file_names bins files partition
   = (files, Exited 1))
  ∨ (find partition file_names ≠ [] ∧
     ∃ text,
       write_partition lower strftime str_of_float find
      dest_path file_names _file_names bins files partition
       = (files ++ [(drop_last_4 dest_path
                     +:+ (if bins_truthy bins then "bins." else "")
                     +:+ (if String.prefix "train" partition then "train"
                          else "test")
                     +:+ ".arff", text)], Returned)).
Proof.
  unfold write_partition.
  destruct (find partition file_names) as [|doc docs] eqn:Hfind;
    [by left|right]. split; [done|].
  by destruct (bins_truthy bins), (String.prefix "train" partition);
    eexists.
Qed.

(** X20.  Whenever [write_arff_file] exits, the exit code is 1 and no
    file has been written, with one exception: with
    [make_train_test], when the collection has documents of the
    training partition and none of the test partition, the file of
    the training partition has been written before the exit. *)
Theorem write_arff_file_exits (dest_path : string)
    (file_names : list string) (reviews : list review_dict)
    (reviewdb make_train_test : bool) (bins : bins_arg)
    (files : list (string * string)) (code : Z) :
  write_arff_file lower strftime str_of_list str_of_float find
      dest_path file_names reviews reviewdb make_train_test bins
  = (files, Exited code) →
  code = 1 ∧
  (files = []
   ∨ (make_train_test = true ∧ reviews = [] ∧ reviewdb = true ∧
      find "training" file_names ≠ [] ∧ find "test" file_names = [] ∧
      ∃ text,
        files = [(drop_last_4 dest_path
                  +:+ (if bins_truthy bins then "bins.train.arff"
                       else "train.arff"), text)])).
Proof.
  unfold write_arff_file.
  destruct make_train_test; cbn [andb negb].
  - destruct (bool_decide (reviews ≠ [])) eqn:Hrev; cbn [orb];
      [intros [= <- <-]; by split; [|left]|].
    apply bool_decide_eq_false in Hrev. apply dec_stable in Hrev.
    destruct reviewdb; cbn [negb];
      [|intros [= <- <-]; by split; [|left]].
    rewrite andb_false_r. cbn [andb].
    destruct (write_partition_cases dest_path file_names
                (str_of_list (underscores_to_spaces <$> file_names)) bins []
                "training") as [[Hnone ->]|[Htrain [text ->]]];
      [intros [= <- <-]; by split; [|left]|].
    cbn [app].
    destruct (write_partition_cases dest_path file_names
                (str_of_list (underscores_to_spaces <$> file_names)) bins
                [(drop_last_4 dest_path
                  +:+ (if bins_truthy bins then "bins." else "")
                  +:+ (if String.prefix "train" "training" then "train"
                       else "test") +:+ ".arff", text)]
                "test") as [[Hnone ->]|[Htest [text' ->]]]; [|done].
    intros [= <- <-]. split; [done|]. right. split_and!; try done.
    exists text. by destruct (bins_truthy bins).
  - destruct (reviewdb && negb (bool_decide (reviews ≠ [])));
      [intros [= <- <-]; by split; [|left]|].
    destruct (bins_truthy bins && bool_decide (reviews ≠ [])
              && negb (bins_is_list bins));
      [intros [= <- <-]; by split; [|left]|].
    destruct (negb (bool_decide (reviews ≠ [])));
      [intros [= <- <-]; by split; [|left]|].
    destruct (review_lines lower str_of_float bins reviews); [done|].
    intros [= <- <-]; by split; [|left].
Qed.


End Facts.

Lemma write_arff_file_exits_witness :
  ∃ files,
    write_arff_file id (λ _, "Monday") (String.concat ", ") (λ _, "3.0")
      training_docs_only "out.arff" ["Arma_3"] [] true true (BinsFlag true)
    = (files, Exited 1) ∧
    length files = 1%nat.
Proof.
  destruct (write_arff_file id (λ _, "Monday") (String.concat ", ")
              (λ _, "3.0") training_docs_only "out.arff" ["Arma_3"] [] true
              true (BinsFlag true)) as [files [|code]] eqn:H;
    [by vm_compute in H|].
  destruct (write_arff_file_exits _ _ _ _ _ _ _ _ _ _ _ _ _ H)
    as [-> [Hnil|(_ & _ & _ & _ & _ & text & Hfiles)]].
  - rewrite Hnil in H. by vm_compute in H.
  - exists files. split; [exact eq_refl|]. by rewrite Hfiles.
Defined.


End ArffFacts.
